(** * Voice call centre: agent loop, tool registry, memory adapter, turn controller

    A shallow embedding of the Python sources [groq_agent.py], [tools.py],
    [database.py], [knowledge_base.py] and [app.py], and the properties
    of their natural-language specification.

    Conventions of the embedding.
    - Python [str] values are byte strings: the UTF-8 encoding of the text.
    - A Python function that may raise returns a [result]; code that contains
      the unbounded [while True] loop of the agent returns an [outcome],
      whose third case [Running] says that the loop is still going after
      the given number of rounds.
    - Python list objects that are passed by reference live in a heap
      ([gmap] from locations to contents).
    - Everything outside the repository (the PostgreSQL server, the vector
      index, the language model) is an explicit state or an oracle.
    - [print] calls write to the console only and are left out. *)

From Stdlib Require Import ZArith Ascii String List Sorted Permutation Lia.
From stdpp Require Import base option list sorting gmap strings pretty.

Set Warnings "-register-all".

Local Open Scope string_scope.
Local Open Scope Z_scope.
Local Open Scope list_scope.

(* ===================================================================== *)
(** * 1. Python values shared by all modules                             *)
(* ===================================================================== *)

(** The exception classes the code can meet.  All of them derive from
    Python's [Exception], so an [except Exception] clause catches each. *)
Inductive exn : Type :=
| JSONDecodeError                  (* json.loads on text that is not JSON *)
| KeyError (key : string)          (* d[key] on a dict without that key *)
| TypeError (what : string)        (* subscripting or iterating a wrong type *)
| IndexError                       (* choices[0] on an empty list *)
| DatabaseError (what : string)    (* any psycopg2.Error *)
| SearchError (what : string)      (* a failure of the vector index *)
| APIError (what : string).        (* a failure of the model service *)

Inductive result (A : Type) : Type :=
| Return (a : A)
| Raise (e : exn).
Arguments Return {A} a.
Arguments Raise {A} e.

Inductive outcome (A : Type) : Type :=
| Returned (a : A)
| Raised (e : exn)
| Running.
Arguments Returned {A} a.
Arguments Raised {A} e.
Arguments Running {A}.

Definition byte (n : N) : ascii := ascii_of_N n.
Definition code (c : ascii) : N := N_of_ascii c.

(** [bool(s)] for a str: the empty string is falsy. *)
Definition truthy (s : string) : bool :=
  match s with EmptyString => false | String _ _ => true end.

(** ** [str.strip()]

    Python strips the characters for which [str.isspace] holds: U+0009 to
    U+000D, U+001C to U+0020, U+0085, U+00A0, U+1680, U+2000 to U+200A,
    U+2028, U+2029, U+202F, U+205F and U+3000.  On the UTF-8 bytes these
    are the one-byte, two-byte and three-byte patterns below. *)
Definition space1 (c : ascii) : bool :=
  let n := code c in
  ((9 <=? n) && (n <=? 13) || (28 <=? n) && (n <=? 32))%N.

Definition space2 (c1 c2 : ascii) : bool :=
  ((code c1 =? 194) && ((code c2 =? 133) || (code c2 =? 160)))%N.

Definition space3 (c1 c2 c3 : ascii) : bool :=
  let '(a, b, c) := (code c1, code c2, code c3) in
  ((a =? 225) && (b =? 154) && (c =? 128)
   || (a =? 226) && (b =? 128) && ((128 <=? c) && (c <=? 138))
   || (a =? 226) && (b =? 128) && ((c =? 168) || (c =? 169) || (c =? 175))
   || (a =? 226) && (b =? 129) && (c =? 159)
   || (a =? 227) && (b =? 128) && (c =? 128))%N.

(** Drops leading white space.  [fwd] tells whether the bytes are read in
    their own order or, for the right end, in reverse. *)
Fixpoint lstrip_bytes (fwd : bool) (s : list ascii) : list ascii :=
  match s with
  | [] => []
  | c1 :: r1 =>
      if space1 c1 then lstrip_bytes fwd r1
      else
        match r1 with
        | [] => s
        | c2 :: r2 =>
            if (if fwd then space2 c1 c2 else space2 c2 c1) then lstrip_bytes fwd r2
            else
              match r2 with
              | [] => s
              | c3 :: r3 =>
                  if (if fwd then space3 c1 c2 c3 else space3 c3 c2 c1)
                  then lstrip_bytes fwd r3
                  else s
              end
        end
  end.

Definition strip (s : string) : string :=
  let l := lstrip_bytes true (list_ascii_of_string s) in
  string_of_list_ascii (rev (lstrip_bytes false (rev l))).

(** [sep.join(parts)] *)
Fixpoint join (sep : string) (parts : list string) : string :=
  match parts with
  | [] => ""
  | [p] => p
  | p :: rest => p +:+ sep +:+ join sep rest
  end.

(* ===================================================================== *)
(** * 2. JSON values and [json.loads]                                    *)
(* ===================================================================== *)

(** The values [json.loads] builds.  A float keeps the text it was read
    from: floating-point arithmetic is not part of this development. *)
Inductive json : Type :=
| JNull
| JBool (b : bool)
| JInt (z : Z)
| JFloat (lexeme : string)
| JString (s : string)
| JArray (items : list json)
| JObject (fields : list (string * json)).

(** A Python dict keeps the position of the first insertion of a key and
    the value of the last one. *)
Fixpoint dict_set {V : Type} (k : string) (v : V) (d : list (string * V))
  : list (string * V) :=
  match d with
  | [] => [(k, v)]
  | (k', v') :: d' =>
      if String.eqb k k' then (k, v) :: d' else (k', v') :: dict_set k v d'
  end.

Fixpoint dict_get {V : Type} (k : string) (d : list (string * V)) : option V :=
  match d with
  | [] => None
  | (k', v) :: d' => if String.eqb k k' then Some v else dict_get k d'
  end.

Module JsonDecoder.

Definition is_ws (c : ascii) : bool :=
  let n := code c in ((n =? 32) || (n =? 9) || (n =? 10) || (n =? 13))%N.

Fixpoint skip_ws (s : string) : string :=
  match s with
  | String c r => if is_ws c then skip_ws r else s
  | EmptyString => s
  end.

Definition is_digit (c : ascii) : bool :=
  let n := code c in ((48 <=? n) && (n <=? 57))%N.

Definition hex_val (c : ascii) : option N :=
  let n := code c in
  if ((48 <=? n) && (n <=? 57))%N then Some (n - 48)%N
  else if ((97 <=? n) && (n <=? 102))%N then Some (n - 87)%N
  else if ((65 <=? n) && (n <=? 70))%N then Some (n - 55)%N
  else None.

(** The four hexadecimal digits of a [\uXXXX] escape. *)
Definition hex4 (s : string) : option (N * string) :=
  match s with
  | String a (String b (String c (String d r))) =>
      match hex_val a, hex_val b, hex_val c, hex_val d with
      | Some x, Some y, Some z, Some w =>
          Some (((x * 16 + y) * 16 + z) * 16 + w, r)%N
      | _, _, _, _ => None
      end
  | _ => None
  end.

(** UTF-8 bytes of a code point; a lone surrogate, which a Python str
    can hold, takes the three-byte form. *)
Definition utf8 (u : N) : string :=
  (if u <? 128 then String (byte u) ""
   else if u <? 2048 then
     String (byte (192 + u / 64)) (String (byte (128 + u mod 64)) "")
   else if u <? 65536 then
     String (byte (224 + u / 4096))
       (String (byte (128 + (u / 64) mod 64)) (String (byte (128 + u mod 64)) ""))
   else
     String (byte (240 + u / 262144))
       (String (byte (128 + (u / 4096) mod 64))
          (String (byte (128 + (u / 64) mod 64))
             (String (byte (128 + u mod 64)) ""))))%N.

Definition high_surrogate (u : N) : bool := ((55296 <=? u) && (u <=? 56319))%N.
Definition low_surrogate (u : N) : bool := ((56320 <=? u) && (u <=? 57343))%N.

(** The escape after a backslash: the decoded bytes and the rest. *)
Definition scan_escape (s : string) : option (string * string) :=
  match s with
  | String e r =>
      let one (n : N) := Some (String (byte n) "", r) in
      match code e with
      | 34%N => one 34%N        (* quote *)
      | 92%N => one 92%N        (* backslash *)
      | 47%N => one 47%N        (* slash *)
      | 98%N => one 8%N         (* backspace *)
      | 102%N => one 12%N       (* form feed *)
      | 110%N => one 10%N       (* line feed *)
      | 114%N => one 13%N       (* carriage return *)
      | 116%N => one 9%N        (* tab *)
      | 117%N =>                  (* u and four hex digits *)
          match hex4 r with
          | None => None
          | Some (u, r1) =>
              if high_surrogate u then
                match r1 with
                | String b (String v r2) =>
                    if ((code b =? 92) && (code v =? 117))%N then
                      match hex4 r2 with
                      | None => None
                      | Some (u2, r3) =>
                          if low_surrogate u2
                          then Some (utf8 (65536 + (u - 55296) * 1024 + (u2 - 56320))%N, r3)
                          else Some (utf8 u, r1)
                      end
                    else Some (utf8 u, r1)
                | _ => Some (utf8 u, r1)
                end
              else Some (utf8 u, r1)
          end
      | _ => None
      end
  | EmptyString => None
  end.

(** The body of a string literal, after its opening quote (strict mode:
    control characters are refused). *)
Fixpoint scanstring (fuel : nat) (s : string) (acc : string)
  : option (string * string) :=
  match fuel with
  | O => None
  | S fuel' =>
      match s with
      | EmptyString => None
      | String c r =>
          if (code c =? 34)%N then Some (acc, r)
          else if (code c =? 92)%N then
            match scan_escape r with
            | Some (bytes, r') => scanstring fuel' r' (acc +:+ bytes)
            | None => None
            end
          else if (code c <? 32)%N then None
          else scanstring fuel' r (acc +:+ String c "")
      end
  end.

Fixpoint span_digits (s : string) : string * string :=
  match s with
  | String c r =>
      if is_digit c then let '(d, r') := span_digits r in (String c d, r')
      else ("", s)
  | EmptyString => ("", "")
  end.

Definition digits_value (d : string) : Z :=
  fold_left (fun acc c => 10 * acc + Z.of_N (code c - 48)) (list_ascii_of_string d) 0.

(** The integer part [0|[1-9][0-9]*]. *)
Definition scan_int_part (s : string) : option (string * string) :=
  match s with
  | String c r =>
      if (code c =? 48)%N then Some ("0", r)
      else if is_digit c then let '(d, r') := span_digits r in Some (String c d, r')
      else None
  | EmptyString => None
  end.

(** The optional fraction [\.[0-9]+]. *)
Definition scan_frac (s : string) : string * string :=
  match s with
  | String c r =>
      if (code c =? 46)%N then
        match span_digits r with
        | (EmptyString, _) => ("", s)
        | (d, r') => (String c d, r')
        end
      else ("", s)
  | EmptyString => ("", s)
  end.

(** The optional exponent [[eE][-+]?[0-9]+]. *)
Definition scan_exp (s : string) : string * string :=
  match s with
  | String c r =>
      if ((code c =? 101) || (code c =? 69))%N then
        let '(sign, r1) :=
          match r with
          | String g r1 =>
              if ((code g =? 43) || (code g =? 45))%N then (String g "", r1) else ("", r)
          | EmptyString => ("", r)
          end in
        match span_digits r1 with
        | (EmptyString, _) => ("", s)
        | (d, r') => (String c (sign +:+ d), r')
        end
      else ("", s)
  | EmptyString => ("", s)
  end.

Definition scan_number (s : string) : option (json * string) :=
  let '(neg, s1) :=
    match s with
    | String c r => if (code c =? 45)%N then (true, r) else (false, s)
    | EmptyString => (false, s)
    end in
  match scan_int_part s1 with
  | None => None
  | Some (ip, r1) =>
      let '(fp, r2) := scan_frac r1 in
      let '(ep, r3) := scan_exp r2 in
      match fp, ep with
      | EmptyString, EmptyString =>
          Some (JInt (if neg then - digits_value ip else digits_value ip), r3)
      | _, _ => Some (JFloat ((if neg then "-" else "") +:+ ip +:+ fp +:+ ep), r3)
      end
  end.

Fixpoint drop_prefix (p s : string) : option string :=
  match p, s with
  | EmptyString, _ => Some s
  | String a p', String b s' => if Ascii.eqb a b then drop_prefix p' s' else None
  | String _ _, EmptyString => None
  end.

Definition scan_literal (s : string) : option (json * string) :=
  match drop_prefix "null" s with
  | Some r => Some (JNull, r)
  | None =>
  match drop_prefix "true" s with
  | Some r => Some (JBool true, r)
  | None =>
  match drop_prefix "false" s with
  | Some r => Some (JBool false, r)
  | None =>
  match scan_number s with
  | Some v => Some v
  | None =>
  match drop_prefix "NaN" s with
  | Some r => Some (JFloat "NaN", r)
  | None =>
  match drop_prefix "Infinity" s with
  | Some r => Some (JFloat "Infinity", r)
  | None =>
  match drop_prefix "-Infinity" s with
  | Some r => Some (JFloat "-Infinity", r)
  | None => None
  end end end end end end end.

(** [scan_once]: one value at the head of [s].  Of two nested recursive
    calls at least one is on a strictly shorter text, so a fuel above twice
    the length of the text is never used up (lemma [decode_fuel]).  Python
    gives up on input nested deeper than its recursion limit; that limit
    is not modelled. *)
Fixpoint scan_once (fuel : nat) (s : string) {struct fuel} : option (json * string) :=
  match fuel with
  | O => None
  | S fuel' =>
      match s with
      | EmptyString => None
      | String c r =>
          if (code c =? 34)%N then
            match scanstring (S (String.length r)) r "" with
            | Some (str, r') => Some (JString str, r')
            | None => None
            end
          else if (code c =? 123)%N then
            match skip_ws r with
            | String c1 r1 =>
                if (code c1 =? 125)%N then Some (JObject [], r1)
                else scan_pairs fuel' (String c1 r1) []
            | EmptyString => None
            end
          else if (code c =? 91)%N then
            match skip_ws r with
            | String c1 r1 =>
                if (code c1 =? 93)%N then Some (JArray [], r1)
                else scan_items fuel' (String c1 r1) []
            | EmptyString => None
            end
          else scan_literal s
      end
  end

with scan_pairs (fuel : nat) (s : string) (acc : list (string * json)) {struct fuel}
  : option (json * string) :=
  match fuel with
  | O => None
  | S fuel' =>
      match s with
      | String q r =>
          if (code q =? 34)%N then
            match scanstring (S (String.length r)) r "" with
            | None => None
            | Some (k, r1) =>
                match skip_ws r1 with
                | String colon r2 =>
                    if (code colon =? 58)%N then
                      match scan_once fuel' (skip_ws r2) with
                      | None => None
                      | Some (v, r3) =>
                          match skip_ws r3 with
                          | String d r4 =>
                              if (code d =? 125)%N then Some (JObject (dict_set k v acc), r4)
                              else if (code d =? 44)%N
                                   then scan_pairs fuel' (skip_ws r4) (dict_set k v acc)
                                   else None
                          | EmptyString => None
                          end
                      end
                    else None
                | EmptyString => None
                end
            end
          else None
      | EmptyString => None
      end
  end

with scan_items (fuel : nat) (s : string) (acc : list json) {struct fuel}
  : option (json * string) :=
  match fuel with
  | O => None
  | S fuel' =>
      match scan_once fuel' s with
      | None => None
      | Some (v, r1) =>
          match skip_ws r1 with
          | String d r2 =>
              if (code d =? 93)%N then Some (JArray (acc ++ [v]), r2)
              else if (code d =? 44)%N then scan_items fuel' (skip_ws r2) (acc ++ [v])
              else None
          | EmptyString => None
          end
      end
  end.

(** [JSONDecoder.decode]: one value, white space around it, nothing else. *)
Definition decode (s : string) : option json :=
  match scan_once (2 * String.length s + 2) (skip_ws s) with
  | Some (v, r) =>
      match skip_ws r with
      | EmptyString => Some v
      | String _ _ => None
      end
  | None => None
  end.

End JsonDecoder.

(** [json.loads(text)] *)
Definition json_loads (text : string) : result json :=
  match JsonDecoder.decode text with
  | Some v => Return v
  | None => Raise JSONDecodeError
  end.

(** Text with a double quote in it is built from the quote's code. *)
Definition dq : string := String (byte 34) "".
Definition quoted (s : string) : string := dq +:+ s +:+ dq.

(* ===================================================================== *)
(** * 3. The store: [database.py]                                        *)
(* ===================================================================== *)

(** A small error monad for the pure parts. *)
Definition bind_result {A B : Type} (m : result A) (k : A -> result B) : result B :=
  match m with
  | Return a => k a
  | Raise e => Raise e
  end.

(** Python code that reads and writes a state [S] and may raise. *)
Definition M (S A : Type) : Type := S -> result A * S.

Definition ret {S A : Type} (a : A) : M S A := fun s => (Return a, s).

Definition bind {S A B : Type} (m : M S A) (k : A -> M S B) : M S B :=
  fun s =>
    match m s with
    | (Return a, s') => k a s'
    | (Raise e, s') => (Raise e, s')
    end.

Definition lift {S A : Type} (r : result A) : M S A := fun s => (r, s).

Declare Scope py_scope.
Delimit Scope py_scope with py.
Notation "x <- m ;; k" := (bind m (fun x => k))
  (at level 100, m at next level, right associativity) : py_scope.
Notation "m ;;; k" := (bind m (fun _ => k))
  (at level 100, right associativity) : py_scope.

(** ** Tables

    The schema is not part of the repository.  What the queries of
    [database.py] need is modelled: a customer is the dict that
    [RealDictCursor] yields (column name to value, with a [phone] and a
    [status] column among them); a conversation row and a ticket carry the
    columns the statements name, and [created_at], which the server fills
    in from its clock. *)
Definition row : Type := list (string * json).

Record turn : Type := { role : string; content : string }.

Record conv_row : Type := {
  c_phone : string;
  c_turn : turn;
  c_created_at : Z
}.

Record ticket_row : Type := {
  t_id : Z;
  t_phone : option string;
  t_issue : option string;
  t_priority : option string;
  t_created_at : Z
}.

Record tables : Type := {
  customers : list row;
  conversations : list conv_row;
  tickets : list ticket_row;
  next_ticket_id : Z
}.

(** ** The world outside the process

    [data] is the committed content of the server.  Every round trip to
    the server (connect, statement, commit, rollback) is numbered by
    [ops]; [fails n] tells whether round trip [n] fails and [now n] is the
    server's clock reading there.  [kb_query] is the vector index behind
    [knowledge_base.search]: embedding and nearest-neighbour search are
    floating-point computations of external libraries, so the index is an
    oracle from the query and the passage count to the passages found. *)
Record backend : Type := {
  data : tables;
  ops : nat;
  fails : nat -> bool;
  now : nat -> Z;
  kb_query : json -> Z -> result (list string)
}.

Definition tick (b : backend) : backend :=
  {| data := data b; ops := S (ops b); fails := fails b; now := now b;
     kb_query := kb_query b |}.

Definition set_data (t : tables) (b : backend) : backend :=
  {| data := t; ops := ops b; fails := fails b; now := now b;
     kb_query := kb_query b |}.

(** ** Connections and transactions (psycopg2)

    A connection works on its own view [work] of the tables; [commit]
    publishes it, [rollback] drops it.  psycopg2 opens a transaction with
    the first statement, and [with conn:] commits when its block ends
    normally and rolls back when the block raises. *)
Record session : Type := {
  srv : backend;
  work : tables;
  in_txn : bool
}.

Definition db (A : Type) : Type := M session A.

(** [cur.execute(statement, params)]: one round trip.  [stmt] is the
    meaning of the SQL text on the tables, given the clock reading. *)
Definition execute {R : Type} (stmt : Z -> tables -> result (R * tables)) : db R :=
  fun s =>
    let b := srv s in
    let failed := {| srv := tick b; work := work s; in_txn := true |} in
    if fails b (ops b) then (Raise (DatabaseError "statement failed"), failed)
    else
      match stmt (now b (ops b)) (work s) with
      | Return (r, t) => (Return r, {| srv := tick b; work := t; in_txn := true |})
      | Raise e => (Raise e, failed)
      end.

(** [conn.commit()] *)
Definition commit : db unit :=
  fun s =>
    let b := srv s in
    if negb (in_txn s) then (Return tt, s)
    else if fails b (ops b)
         then (Raise (DatabaseError "commit failed"),
               {| srv := tick b; work := work s; in_txn := true |})
         else (Return tt,
               {| srv := set_data (work s) (tick b); work := work s; in_txn := false |}).

(** [with get_conn() as conn: with conn.cursor() as cur: body] *)
Definition with_conn {A : Type} (body : db A) (b : backend) : result A * backend :=
  if fails b (ops b) then (Raise (DatabaseError "connection failed"), tick b)
  else
    let s0 := {| srv := tick b; work := data b; in_txn := false |} in
    match body s0 with
    | (Return a, s) =>
        match commit s with
        | (Return _, s') => (Return a, srv s')
        | (Raise e, s') => (Raise e, srv s')
        end
    | (Raise e, s) => (Raise e, if in_txn s then tick (srv s) else srv s)
    end.

(** ** Statements *)

(** psycopg2 adapts a str to text and [None] to NULL.  The columns the
    parameters meet are text columns, so a value of another type is
    refused, by the adapter (a dict) or by the server (a number, a list). *)
Definition sql_text (v : json) : result (option string) :=
  match v with
  | JString s => Return (Some s)
  | JNull => Return None
  | _ => Raise (DatabaseError "parameter is not text")
  end.

Definition cell (v : option string) : json :=
  match v with Some s => JString s | None => JNull end.

(** [phone = %s] on a customer; NULL equals nothing. *)
Definition customer_has_phone (p : option string) (r : row) : bool :=
  match p, dict_get "phone" r with
  | Some s, Some (JString s') => String.eqb s s'
  | _, _ => false
  end.

(** [ORDER BY created_at DESC], as an insertion sort; the order of rows
    with equal [created_at] is the server's choice and not fixed here. *)
Fixpoint insert_desc {A : Type} (key : A -> Z) (x : A) (l : list A) : list A :=
  match l with
  | [] => [x]
  | y :: l' => if key y <? key x then x :: l else y :: insert_desc key x l'
  end.

Definition order_by_desc {A : Type} (key : A -> Z) (l : list A) : list A :=
  fold_right (insert_desc key) [] l.

(** [SELECT * FROM customers WHERE phone = %s], then [fetchone()] *)
Definition select_customer (phone : json) (_ : Z) (t : tables)
  : result (option row * tables) :=
  bind_result (sql_text phone) (fun p =>
  Return (List.find (customer_has_phone p) (customers t), t)).

(** [UPDATE customers SET status = %s WHERE phone = %s RETURNING *] *)
Definition update_status (status phone : json) (_ : Z) (t : tables)
  : result (list row * tables) :=
  bind_result (sql_text status) (fun st =>
  bind_result (sql_text phone) (fun p =>
  let upd (r : row) := if customer_has_phone p r then dict_set "status" (cell st) r else r in
  let t' := {| customers := map upd (customers t); conversations := conversations t;
               tickets := tickets t; next_ticket_id := next_ticket_id t |} in
  Return (map upd (List.filter (customer_has_phone p) (customers t)), t'))).

(** [SELECT role, content FROM conversations WHERE phone = %s
     ORDER BY created_at DESC LIMIT %s] *)
Definition select_history (phone : string) (limit : Z) (_ : Z) (t : tables)
  : result (list conv_row * tables) :=
  if limit <? 0 then Raise (DatabaseError "LIMIT must not be negative")
  else
    let mine := List.filter (fun r => String.eqb (c_phone r) phone) (conversations t) in
    Return (firstn (Z.to_nat limit) (order_by_desc c_created_at mine), t).

(** [INSERT INTO conversations (phone, role, content) VALUES (%s, %s, %s)] *)
Definition insert_conversation (phone role content : string) (ts : Z) (t : tables)
  : result (unit * tables) :=
  let r := {| c_phone := phone; c_turn := {| role := role; content := content |};
              c_created_at := ts |} in
  Return (tt, {| customers := customers t; conversations := conversations t ++ [r];
                 tickets := tickets t; next_ticket_id := next_ticket_id t |}).

(** [INSERT INTO tickets (phone, issue, priority) VALUES (%s, %s, %s)
     RETURNING id] *)
Definition insert_ticket (phone issue priority : json) (ts : Z) (t : tables)
  : result (Z * tables) :=
  bind_result (sql_text phone) (fun p =>
  bind_result (sql_text issue) (fun i =>
  bind_result (sql_text priority) (fun pr =>
  let r := {| t_id := next_ticket_id t; t_phone := p; t_issue := i; t_priority := pr;
              t_created_at := ts |} in
  Return (next_ticket_id t,
          {| customers := customers t; conversations := conversations t;
             tickets := tickets t ++ [r]; next_ticket_id := next_ticket_id t + 1 |})))).

(** [SELECT * FROM tickets WHERE phone = %s ORDER BY created_at DESC] *)
Definition select_tickets (phone : json) (_ : Z) (t : tables)
  : result (list ticket_row * tables) :=
  bind_result (sql_text phone) (fun p =>
  let mine := List.filter (fun r => match p, t_phone r with
                                    | Some s, Some s' => String.eqb s s'
                                    | _, _ => false
                                    end) (tickets t) in
  Return (order_by_desc t_created_at mine, t)).

(** [dict(r)] of a ticket row *)
Definition ticket_dict (r : ticket_row) : row :=
  [("id", JInt (t_id r)); ("phone", cell (t_phone r)); ("issue", cell (t_issue r));
   ("priority", cell (t_priority r)); ("created_at", JInt (t_created_at r))].

(** ** The functions of [database.py] *)

Local Open Scope py_scope.

(** [dict(row) if row else None]: an empty dict is falsy. *)
Definition dict_or_none (r : option row) : option row :=
  match r with
  | Some ((_ :: _) as d) => Some d
  | _ => None
  end.

Definition get_customer (phone : json) : backend -> result (option row) * backend :=
  with_conn (
    r <- execute (select_customer phone) ;;
    ret (dict_or_none r)).

Definition update_customer_status (phone status : json)
  : backend -> result (option row) * backend :=
  with_conn (
    rows <- execute (update_status status phone) ;;
    commit ;;;
    ret (dict_or_none (head rows))).

Definition get_history (phone : string) (limit : Z)
  : backend -> result (list turn) * backend :=
  with_conn (
    rows <- execute (select_history phone limit) ;;
    ret (map c_turn (rev rows))).

Definition save_turn (phone user_msg assistant_msg : string)
  : backend -> result unit * backend :=
  with_conn (
    execute (insert_conversation phone "user" user_msg) ;;;
    execute (insert_conversation phone "assistant" assistant_msg) ;;;
    commit).

Definition create_ticket (phone issue priority : json)
  : backend -> result Z * backend :=
  with_conn (
    id <- execute (insert_ticket phone issue priority) ;;
    commit ;;;
    ret id).

Definition get_tickets (phone : json) : backend -> result (list row) * backend :=
  with_conn (
    rows <- execute (select_tickets phone) ;;
    ret (map ticket_dict rows)).

Local Close Scope py_scope.

(* ===================================================================== *)
(** * 4. Knowledge search: [knowledge_base.py]                           *)
(* ===================================================================== *)

Definition nl : string := String (byte 10) "".

(** [search(query, n=3)]: the passages the index finds, joined by a rule
    line, or a fixed sentence when there is none. *)
Definition search (query : json) : M backend string :=
  fun b =>
    match kb_query b query 3 with
    | Raise e => (Raise e, b)
    | Return docs =>
        match docs with
        | [] => (Return "No relevant information found in knowledge base.", b)
        | _ :: _ => (Return (join (nl +:+ "---" +:+ nl) docs), b)
        end
    end.

(* ===================================================================== *)
(** * 5. The tool registry: [tools.py]                                   *)
(* ===================================================================== *)

(** The tool catalogue [TOOLS]: of each declaration, the name and the
    parameters its schema lists as required (all of them of type string;
    the descriptions are for the model and are left out). *)
Record tool_spec : Type := {
  tool_name : string;
  required : list string
}.

Definition TOOLS : list tool_spec :=
  [{| tool_name := "get_customer_info"; required := ["phone"] |};
   {| tool_name := "search_knowledge_base"; required := ["query"] |};
   {| tool_name := "create_support_ticket"; required := ["phone"; "issue"; "priority"] |};
   {| tool_name := "get_customer_tickets"; required := ["phone"] |};
   {| tool_name := "update_account_status"; required := ["phone"; "status"] |}].

(** [args[key]] on a decoded value *)
Definition subscript (args : json) (key : string) : result json :=
  match args with
  | JObject d =>
      match dict_get key d with
      | Some v => Return v
      | None => Raise (KeyError key)
      end
  | JArray _ => Raise (TypeError "list indices must be integers or slices, not str")
  | JString _ => Raise (TypeError "string indices must be integers")
  | _ => Raise (TypeError "object is not subscriptable")
  end.

Section Tools.

(** Two functions of the Python library stay abstract: the text
    [json.dumps(v, default=str)] writes for a value, and [str(v)] for a
    value that is neither text, nor [None], nor a bool, nor an int. *)
Variable json_dumps : json -> string.
Variable str_other : json -> string.

(** [str(v)], as an f-string formats a value *)
Definition py_str (v : json) : string :=
  match v with
  | JString s => s
  | JNull => "None"
  | JBool true => "True"
  | JBool false => "False"
  | JInt z => pretty z
  | _ => str_other v
  end.

Local Open Scope py_scope.

Definition execute_tool (name arguments : string) : M backend string :=
  args <- lift (json_loads arguments) ;;
  if String.eqb name "get_customer_info" then
    phone <- lift (subscript args "phone") ;;
    result <- get_customer phone ;;
    match result with
    | Some ((_ :: _) as d) => ret (json_dumps (JObject d))
    | _ => ret "Customer not found in database."
    end
  else if String.eqb name "search_knowledge_base" then
    query <- lift (subscript args "query") ;;
    search query
  else if String.eqb name "create_support_ticket" then
    phone <- lift (subscript args "phone") ;;
    issue <- lift (subscript args "issue") ;;
    priority <- lift (subscript args "priority") ;;
    ticket_id <- create_ticket phone issue priority ;;
    ret ("Support ticket created successfully. Ticket ID: " +:+ pretty ticket_id
         +:+ ". The customer will be contacted within 24 hours.")
  else if String.eqb name "get_customer_tickets" then
    phone <- lift (subscript args "phone") ;;
    tickets <- get_tickets phone ;;
    match tickets with
    | _ :: _ => ret (json_dumps (JArray (map JObject tickets)))
    | [] => ret "No previous support tickets found for this customer."
    end
  else if String.eqb name "update_account_status" then
    phone <- lift (subscript args "phone") ;;
    status <- lift (subscript args "status") ;;
    result <- update_customer_status phone status ;;
    match result with
    | Some ((_ :: _) as d) =>
        ret ("Account status successfully updated to '" +:+ py_str status +:+ "' for "
             +:+ py_str (default (JString "customer") (dict_get "name" d)) +:+ ".")
    | _ => ret "Customer not found. Could not update account status."
    end
  else ret ("Unknown tool '" +:+ name +:+ "'. No action taken.").

Local Close Scope py_scope.

End Tools.

(* ===================================================================== *)
(** * 6. The agent loop: [groq_agent.py]                                 *)
(* ===================================================================== *)

(** ** What the model service returns *)

Record tool_call : Type := {
  id : string;                  (* tool_call.id, the correlation id *)
  function_name : string;       (* tool_call.function.name *)
  function_arguments : string   (* tool_call.function.arguments *)
}.

Record response_message : Type := {
  msg_content : option string;            (* message.content, None or a str *)
  tool_calls : option (list tool_call)    (* message.tool_calls, None or a list *)
}.

Record choice : Type := {
  choice_message : response_message;   (* choice.message *)
  finish_reason : string
}.

(** [completion.choices] *)
Definition completion : Type := list choice.

(** ** The working transcript *)

Inductive message : Type :=
| Plain (t : turn)                                   (* a dict with role and content *)
| Response (m : response_message)                    (* the service's message object *)
| ToolResult (tool_call_id : string) (text : string) (* a dict with role tool *).

Definition SYSTEM_PROMPT : string := "
You are a professional and empathetic call center agent. 

IMPORTANT RULES:
- Your responses will be spoken aloud via text-to-speech, so:
  * NO bullet points, NO markdown, NO special characters
  * Use natural, conversational sentences only
  * Keep responses concise but complete (2-4 sentences is ideal)
- ALWAYS use tools to look up customer info and search the knowledge base BEFORE answering
- Be empathetic — the caller may be frustrated
- If you create a ticket, tell the customer their ticket ID
- If you cannot resolve an issue, offer to escalate to a human agent
- Address the customer by their first name once you know it
".

Definition FALLBACK : string :=
  "I'm sorry, I was unable to process that request. Please try again.".

(** ** The interpreter's state

    [heap] holds the Python list objects, by location; [ext] is the world
    outside the process; [invocations] counts the calls made to the model
    service so far; [trace] records, in order, the calls to the
    collaborators. *)
Inductive event : Type :=
| ModelInvoked (transcript : list message)
| ToolExecuted (name arguments : string)
| HistoryLoaded (phone : string)
| TurnSaved (phone user_msg assistant_msg : string).

Abbreviation loc := positive.

Record world : Type := {
  heap : gmap loc (list message);
  ext : backend;
  invocations : nat;
  trace : list event
}.

Definition set_heap (h : gmap loc (list message)) (w : world) : world :=
  {| heap := h; ext := ext w; invocations := invocations w; trace := trace w |}.

Definition set_ext (b : backend) (w : world) : world :=
  {| heap := heap w; ext := b; invocations := invocations w; trace := trace w |}.

Definition log (e : event) (w : world) : world :=
  {| heap := heap w; ext := ext w; invocations := invocations w;
     trace := trace w ++ [e] |}.

(** The content of a list object (a location always holds a list here). *)
Definition contents (l : loc) (w : world) : list message :=
  default [] (heap w !! l).

(** [lst.append(x)]: the object at [l] changes in place. *)
Definition append (l : loc) (x : message) (w : world) : world :=
  set_heap (alter (fun xs : list message => xs ++ [x]) l (heap w)) w.

(** A new list object. *)
Definition alloc (xs : list message) (w : world) : loc * world :=
  let l := fresh (dom (heap w)) in
  (l, set_heap (<[l := xs]> (heap w)) w).

Section Agent.

(** The two module-level collaborators of [groq_agent.py], which a test
    replaces by stubs.  [client n transcript] is what the call
    [client.chat.completions.create(messages=transcript, tools=TOOLS, ...)]
    brings back when it is the [n]-th call made to the service: a
    completion, or an exception.  The service only reads the transcript.
    [execute_tool] is the tool registry. *)
Variable client : nat -> list message -> result completion.
Variable execute_tool : string -> string -> M backend string.

(** [client.chat.completions.create(...)] on the list object [messages] *)
Definition create (messages : loc) (w : world) : result completion * world :=
  let transcript := contents messages w in
  let w' := {| heap := heap w; ext := ext w; invocations := S (invocations w);
               trace := trace w ++ [ModelInvoked transcript] |} in
  (client (invocations w) transcript, w').

(** The [for tool_call in response_msg.tool_calls] loop *)
Fixpoint run_tools (messages : loc) (calls : list tool_call) (w : world)
  : result unit * world :=
  match calls with
  | [] => (Return tt, w)
  | tool_call :: rest =>
      let tool_name := function_name tool_call in
      let tool_args := function_arguments tool_call in
      let w1 := log (ToolExecuted tool_name tool_args) w in
      match execute_tool tool_name tool_args (ext w1) with
      | (Raise e, b) => (Raise e, set_ext b w1)
      | (Return tool_result, b) =>
          run_tools messages rest
            (append messages (ToolResult (id tool_call) tool_result) (set_ext b w1))
      end
  end.

(** The [while True] loop, unfolded at most [rounds] times; [Running]
    when the loop has not left by then. *)
Fixpoint agentic_loop (rounds : nat) (messages : loc) (w : world)
  : outcome string * world :=
  match rounds with
  | O => (Running, w)
  | S rounds' =>
      match create messages w with
      | (Raise e, w1) => (Raised e, w1)
      | (Return [], w1) => (Raised IndexError, w1)
      | (Return (first :: _), w1) =>
          let response_msg := choice_message first in
          if negb (String.eqb (finish_reason first) "tool_calls") then
            match msg_content response_msg with
            | Some ((String _ _) as final_answer) => (Returned final_answer, w1)
            | _ => (Returned FALLBACK, w1)
            end
          else
            let w2 := append messages (Response response_msg) w1 in
            match tool_calls response_msg with
            | None => (Raised (TypeError "'NoneType' object is not iterable"), w2)
            | Some calls =>
                match run_tools messages calls w2 with
                | (Raise e, w3) => (Raised e, w3)
                | (Return _, w3) => agentic_loop rounds' messages w3
                end
            end
      end
  end.

(** [get_response(user_message, history, caller_phone)].  [history] is a
    reference to the caller's list; [messages] is a new list object. *)
Definition get_response (rounds : nat) (user_message : string) (history : loc)
    (caller_phone : string) (w : world) : outcome string * world :=
  let '(messages, w1) :=
    alloc ([Plain {| role := "system"; content := SYSTEM_PROMPT |}]
           ++ contents history w
           ++ [Plain {| role := "user"; content := user_message |}]) w in
  agentic_loop rounds messages w1.

End Agent.

(* ===================================================================== *)
(** * 7. The call turn controller: [app.py]                              *)
(* ===================================================================== *)

Definition AGENT_VOICE : string := "Polly.Joanna".
Definition AGENT_LANGUAGE : string := "en-US".
Definition SPEECH_TIMEOUT : string := "auto".
Definition INPUT_TIMEOUT : Z := 8.

(** ** Voice directives (TwiML)

    [handle_speech] returns [str(response)], the XML text of a
    [VoiceResponse]; the embedding returns the verbs the XML is written
    from. *)
Record gather : Type := {
  input : string;
  action : string;
  method : string;
  timeout : Z;
  speech_timeout : string;
  language : string;
  enhanced : bool
}.

Record say : Type := {
  say_text : string;
  say_voice : option string;
  say_language : option string
}.

Inductive verb : Type :=
| Gather (attrs : gather) (nested : list say)   (* listen, speaking [nested] first *)
| Say (s : say)
| Hangup.

Definition voice_response : Type := list verb.

(** The attributes every [Gather] of [app.py] is built with. *)
Definition listen : gather :=
  {| input := "speech"; action := "/handle-speech"; method := "POST";
     timeout := INPUT_TIMEOUT; speech_timeout := SPEECH_TIMEOUT;
     language := AGENT_LANGUAGE; enhanced := true |}.

Definition REPEAT_PROMPT : string := "I didn't catch that. Could you please repeat?".

Definition TECHNICAL_ISSUE : string :=
  "I'm sorry, I'm having a technical issue. Please hold for a moment.".

(** The directive that asks the caller to repeat. *)
Definition repeat_directive : voice_response :=
  [Gather listen [{| say_text := REPEAT_PROMPT; say_voice := Some AGENT_VOICE;
                     say_language := None |}]].

(** The directive that speaks [reply] and keeps listening. *)
Definition reply_directive (reply : string) : voice_response :=
  [Gather listen [{| say_text := reply; say_voice := Some AGENT_VOICE;
                     say_language := Some AGENT_LANGUAGE |}];
   Gather listen [{| say_text := "Is there anything else I can help you with?";
                     say_voice := Some AGENT_VOICE; say_language := None |}];
   Say {| say_text := "Thank you for calling. Have a great day. Goodbye!";
          say_voice := Some AGENT_VOICE; say_language := None |};
   Hangup].

Section Controller.

Variable client : nat -> list message -> result completion.
Variable execute_tool : string -> string -> M backend string.

(** [handle_speech()], on the form of the request *)
Definition handle_speech (rounds : nat) (form : gmap string string) (w : world)
  : outcome voice_response * world :=
  let user_speech := strip (default "" (form !! "SpeechResult")) in
  let caller_phone := default "unknown" (form !! "From") in
  if negb (truthy user_speech) then (Returned repeat_directive, w)
  else
    let w0 := log (HistoryLoaded caller_phone) w in
    match get_history caller_phone 10 (ext w0) with
    | (Raise e, b) => (Raised e, set_ext b w0)
    | (Return turns, b) =>
        let '(history, w1) := alloc (map Plain turns) (set_ext b w0) in
        match get_response client execute_tool rounds user_speech history caller_phone w1 with
        | (Running, w2) => (Running, w2)
        | (answer, w2) =>
            let reply :=
              match answer with
              | Returned r => r
              | _ => TECHNICAL_ISSUE     (* except Exception *)
              end in
            let w3 := log (TurnSaved caller_phone user_speech reply) w2 in
            (* try: save_turn(...) except Exception: the error is printed *)
            let '(_, b') := save_turn caller_phone user_speech reply (ext w3) in
            (Returned (reply_directive reply), set_ext b' w3)
        end
    end.

End Controller.

(* ===================================================================== *)
(** * 8. Stubs and sample states                                         *)
(* ===================================================================== *)

(** Stand-ins for the two library functions [execute_tool] leaves open. *)
Definition sample_dumps (v : json) : string := "[json text]".
Definition sample_str (v : json) : string := "[value]".

Definition sample_tables : tables :=
  {| customers := [[("phone", JString "+15550100"); ("name", JString "Alice");
                    ("status", JString "active")]];
     conversations := []; tickets := []; next_ticket_id := 1 |}.

(** A server that never fails, with a clock that advances on every round
    trip, and an index that always finds one passage. *)
Definition sample_backend : backend :=
  {| data := sample_tables; ops := 0; fails := fun _ => false;
     now := fun n => Z.of_nat n;
     kb_query := fun _ _ => Return ["To reset your password, open the login page."] |}.

(** The same server, failing at round trip [k] only. *)
Definition failing_at (k : nat) : backend :=
  {| data := sample_tables; ops := 0; fails := fun n => Nat.eqb n k;
     now := fun n => Z.of_nat n;
     kb_query := kb_query sample_backend |}.

Definition conv (phone role content : string) (ts : Z) : conv_row :=
  {| c_phone := phone; c_turn := {| role := role; content := content |};
     c_created_at := ts |}.

(** A server that holds three turns of one caller, not in the order of
    their time stamps, and one turn of another caller. *)
Definition history_backend : backend :=
  {| data := {| customers := [];
                conversations := [conv "+15550100" "user" "first" 10;
                                  conv "+15550199" "user" "other" 15;
                                  conv "+15550100" "user" "third" 30;
                                  conv "+15550100" "assistant" "second" 20];
                tickets := []; next_ticket_id := 1 |};
     ops := 0; fails := fun _ => false; now := fun n => 100 + Z.of_nat n;
     kb_query := fun _ _ => Return [] |}.

(** A world whose only list object, at location 1, is an empty history. *)
Definition sample_world : world :=
  {| heap := {[ 1%positive := [] ]}; ext := sample_backend; invocations := 0;
     trace := [] |}.

Definition search_call : tool_call :=
  {| id := "call_1"; function_name := "search_knowledge_base";
     function_arguments := "{" +:+ quoted "query" +:+ ": " +:+ quoted "password reset" +:+ "}" |}.

Definition ticket_call : tool_call :=
  {| id := "call_2"; function_name := "get_customer_tickets";
     function_arguments := "{" +:+ quoted "phone" +:+ ": " +:+ quoted "+15550100" +:+ "}" |}.

Definition tool_request (calls : list tool_call) : completion :=
  [{| choice_message := {| msg_content := None; tool_calls := Some calls |};
      finish_reason := "tool_calls" |}].

Definition final_answer (text : option string) : completion :=
  [{| choice_message := {| msg_content := text; tool_calls := None |};
      finish_reason := "stop" |}].

(** Model stubs. *)
Definition always_tool_client (_ : nat) (_ : list message) : result completion :=
  Return (tool_request [search_call]).

Definition timeout_client (_ : nat) (_ : list message) : result completion :=
  Raise (APIError "Request timed out.").

Definition empty_reply_client (_ : nat) (_ : list message) : result completion :=
  Return (final_answer None).

(** Asks for two tools when the transcript holds no tool result yet, and
    answers once it does. *)
Definition has_tool_result (transcript : list message) : bool :=
  existsb (fun m => match m with ToolResult _ _ => true | _ => false end) transcript.

Definition two_step_client (_ : nat) (transcript : list message) : result completion :=
  if has_tool_result transcript
  then Return (final_answer (Some "You can reset your password from the login page."))
  else Return (tool_request [search_call; ticket_call]).

(** A tool stub that answers every call with the same text. *)
Definition stub_tool (_ _ : string) : M backend string := ret "passage".

(** The registry of [tools.py], with the stand-ins for the library. *)
Definition sample_registry : string -> string -> M backend string :=
  execute_tool sample_dumps sample_str.


Definition speech_form (speech : string) : gmap string string :=
  {[ "SpeechResult" := speech; "From" := "+15550100" ]}.

(* ===================================================================== *)
(** * 9. Vocabulary of the properties                                    *)
(* ===================================================================== *)

(** A model answer [r] that asks for the tools [calls] in the message [m]. *)
Definition requests_tools (r : result completion) (m : response_message)
    (calls : list tool_call) : Prop :=
  exists first rest,
    r = Return (first :: rest)
    /\ finish_reason first = "tool_calls"
    /\ choice_message first = m
    /\ tool_calls m = Some calls.

(** A model answer that signals completion with the message [m]. *)
Definition signals_completion (r : result completion) (m : response_message) : Prop :=
  exists first rest,
    r = Return (first :: rest)
    /\ finish_reason first <> "tool_calls"
    /\ choice_message first = m.

(** What the registry answers to the calls of one round, run in order
    from the backend [b]. *)
Fixpoint tool_texts (execute_tool : string -> string -> M backend string)
    (calls : list tool_call) (b : backend) : result (list string) * backend :=
  match calls with
  | [] => (Return [], b)
  | tc :: rest =>
      match execute_tool (function_name tc) (function_arguments tc) b with
      | (Raise e, b1) => (Raise e, b1)
      | (Return text, b1) =>
          match tool_texts execute_tool rest b1 with
          | (Return texts, b2) => (Return (text :: texts), b2)
          | (Raise e, b2) => (Raise e, b2)
          end
      end
  end.

(** The tool results of a round, each tagged with the id of its call. *)
Definition tagged_results (calls : list tool_call) (texts : list string) : list message :=
  zip_with (fun tc text => ToolResult (id tc) text) calls texts.

Definition executed (tc : tool_call) : event :=
  ToolExecuted (function_name tc) (function_arguments tc).

(** The correlation id a transcript entry carries, if it is a tool result. *)
Definition result_id (m : message) : option string :=
  match m with
  | ToolResult i _ => Some i
  | _ => None
  end.

(** The transcript [get_response] starts from. *)
Definition initial_transcript (history : list message) (user_message : string)
  : list message :=
  [Plain {| role := "system"; content := SYSTEM_PROMPT |}]
  ++ history ++ [Plain {| role := "user"; content := user_message |}].

(** The required parameters of a declared tool; [None] for a name the
    catalogue does not declare. *)
Definition declared (name : string) : option (list string) :=
  option_map required (List.find (fun t => String.eqb (tool_name t) name) TOOLS).

(** Orders on rows by a time stamp: strictly older before newer, newer
    before older (ties allowed), and older before newer (ties allowed). *)
Definition older_first {A : Type} (key : A -> Z) (x y : A) : Prop := key x < key y.
Definition newer_first {A : Type} (key : A -> Z) (x y : A) : Prop := key y <= key x.
Definition oldest_first {A : Type} (key : A -> Z) (x y : A) : Prop := key x <= key y.

(** The rows the store holds for one caller. *)
Definition stored_turns (phone : string) (b : backend) : list conv_row :=
  List.filter (fun r => String.eqb (c_phone r) phone) (conversations (data b)).

(** The table after the two rows of one exchange were added. *)
Definition with_exchange (phone user_msg assistant_msg : string) (t1 t2 : Z) (t : tables)
  : tables :=
  {| customers := customers t;
     conversations :=
       conversations t
       ++ [{| c_phone := phone; c_turn := {| role := "user"; content := user_msg |};
              c_created_at := t1 |};
           {| c_phone := phone; c_turn := {| role := "assistant"; content := assistant_msg |};
              c_created_at := t2 |}];
     tickets := tickets t;
     next_ticket_id := next_ticket_id t |}.

(** The utterance and the identity [handle_speech] reads from the form. *)
Definition utterance (form : gmap string string) : string :=
  strip (default "" (form !! "SpeechResult")).

Definition identity (form : gmap string string) : string :=
  default "unknown" (form !! "From").

(** Deterministic stubs: a model whose answer depends on the transcript
    only, and a registry whose answer depends on the call only. *)
Definition deterministic_model (client : nat -> list message -> result completion) : Prop :=
  forall n n' transcript, client n transcript = client n' transcript.

Definition deterministic_tools (execute_tool : string -> string -> M backend string) : Prop :=
  forall name arguments b b',
    fst (execute_tool name arguments b) = fst (execute_tool name arguments b').

(** ** Vocabulary of the further properties *)

(** The next [n] round trips to the server succeed. *)
Definition answers (b : backend) (n : nat) : Prop :=
  forall k, (k < n)%nat -> fails b (ops b + k) = false.

(** The tickets the store holds for one caller. *)
Definition tickets_of (phone : string) (t : tables) : list ticket_row :=
  List.filter (fun r => match t_phone r with
                        | Some s => String.eqb phone s
                        | None => false
                        end) (tickets t).

(** Every ticket id is below the next id of the sequence. *)
Definition ids_fresh (t : tables) : Prop :=
  Forall (fun r => t_id r < next_ticket_id t) (tickets t).

(** The text the loop returns for a message that signals completion. *)
Definition spoken (m : response_message) : string :=
  match msg_content m with
  | Some ((String _ _) as final_answer) => final_answer
  | _ => FALLBACK
  end.

(** Rounds of tool use that ran to their end, as the transcript records
    them.  [complete_rounds client execute_tool n b T blocks n' b'] reads:
    starting with the model invocation number [n], the backend [b] and
    the transcript [T], each block of [blocks] is the message of the
    model's answer to the transcript as it stood (an answer that asks for
    tools), followed by what the registry answered to every call of that
    message, in order, each result tagged with the id of its call; [n'] and
    [b'] are the invocation number and the backend after the last block. *)
Inductive complete_rounds (client : nat -> list message -> result completion)
    (execute_tool : string -> string -> M backend string)
  : nat -> backend -> list message -> list (list message) -> nat -> backend -> Prop :=
| rounds_nil (n : nat) (b : backend) (T : list message) :
    complete_rounds client execute_tool n b T [] n b
| rounds_cons (n : nat) (b : backend) (T : list message) (m : response_message)
    (calls : list tool_call) (texts : list string) (b1 : backend)
    (blocks : list (list message)) (n' : nat) (b' : backend) :
    requests_tools (client n T) m calls ->
    tool_texts execute_tool calls b = (Return texts, b1) ->
    complete_rounds client execute_tool (S n) b1
      (T ++ Response m :: tagged_results calls texts) blocks n' b' ->
    complete_rounds client execute_tool n b T
      ((Response m :: tagged_results calls texts) :: blocks) n' b'.

(** A block that holds one model message and exactly one result per call
    of that message, with the ids of the calls in the order of the calls. *)
Definition full_round (block : list message) : Prop :=
  exists m calls results,
    block = Response m :: results
    /\ tool_calls m = Some calls
    /\ map result_id results = map (fun tc => Some (id tc)) calls.

(** A round of tool use that raised [e], as the transcript records it:
    the model's answer to [T] asked for tools; either its message has no
    list of calls, and only the message was appended; or the calls [done]
    were answered, their tagged results were appended after the message,
    and the next call [tc] raised [e].  [b'] is the backend it leaves. *)
Definition broken_round (client : nat -> list message -> result completion)
    (execute_tool : string -> string -> M backend string)
    (n : nat) (b : backend) (T : list message) (e : exn) (last : list message)
    (b' : backend) : Prop :=
  exists first rest,
    client n T = Return (first :: rest)
    /\ finish_reason first = "tool_calls"
    /\ match tool_calls (choice_message first) with
       | None =>
           e = TypeError "'NoneType' object is not iterable"
           /\ last = [Response (choice_message first)]
           /\ b' = b
       | Some calls =>
           exists done tc rest_calls texts b1,
             calls = done ++ tc :: rest_calls
             /\ tool_texts execute_tool done b = (Return texts, b1)
             /\ execute_tool (function_name tc) (function_arguments tc) b1 = (Raise e, b')
             /\ last = Response (choice_message first) :: tagged_results done texts
       end.

(** What the agent loop does to the outside when its transcript started
    as [T]: it invokes the model on a transcript that begins with [T], or
    it calls the registry; it loads no history and saves no turn. *)
Definition agent_event (T : list message) (e : event) : Prop :=
  match e with
  | ModelInvoked T' => T `prefix_of` T'
  | ToolExecuted _ _ => True
  | _ => False
  end.

(** The ways the agent loop raises [e], read off the last call [last] it
    made before it stopped in the world [w']: the model service raised
    [e], or returned no choice, or asked for tools without a list of
    calls; or the registry raised [e]. *)
Definition raised_by (client : nat -> list message -> result completion)
    (execute_tool : string -> string -> M backend string)
    (e : exn) (last : event) (w' : world) : Prop :=
  match last with
  | ModelInvoked T =>
      exists n,
        invocations w' = S n
        /\ (client n T = Raise e
            \/ (client n T = Return [] /\ e = IndexError)
            \/ (exists first rest,
                   client n T = Return (first :: rest)
                   /\ finish_reason first = "tool_calls"
                   /\ tool_calls (choice_message first) = None
                   /\ e = TypeError "'NoneType' object is not iterable"))
  | ToolExecuted name arguments =>
      exists b, execute_tool name arguments b = (Raise e, ext w')
  | _ => False
  end.

(** ** Sample states of the further properties *)

(** A server that holds two tickets of one caller, the older one stored
    last, and one ticket of another caller. *)
Definition ticket_backend : backend :=
  {| data := {| customers := customers sample_tables; conversations := [];
                tickets := [{| t_id := 1; t_phone := Some "+15550100";
                               t_issue := Some "No signal"; t_priority := Some "high";
                               t_created_at := 30 |};
                            {| t_id := 2; t_phone := Some "+15550199";
                               t_issue := Some "Wrong bill"; t_priority := Some "low";
                               t_created_at := 20 |};
                            {| t_id := 3; t_phone := Some "+15550100";
                               t_issue := Some "Slow data"; t_priority := Some "medium";
                               t_created_at := 10 |}];
                next_ticket_id := 4 |};
     ops := 0; fails := fun _ => false; now := fun n => 100 + Z.of_nat n;
     kb_query := fun _ _ => Return [] |}.

(** Arguments of a status update for a phone no customer has. *)
Definition status_arguments : string :=
  "{" +:+ quoted "phone" +:+ ": " +:+ quoted "+15550111" +:+ ", "
  +:+ quoted "status" +:+ ": " +:+ quoted "suspended" +:+ "}".

(** Arguments of a ticket creation. *)
Definition new_ticket_arguments : string :=
  "{" +:+ quoted "phone" +:+ ": " +:+ quoted "+15550100" +:+ ", "
  +:+ quoted "issue" +:+ ": " +:+ quoted "No signal" +:+ ", "
  +:+ quoted "priority" +:+ ": " +:+ quoted "high" +:+ "}".

(** The sample world with a store that fails at its first round trip. *)
Definition offline_world : world := set_ext (failing_at 0) sample_world.

(* ===================================================================== *)
(** * 10. The agent loop: lemmas                                         *)
(* ===================================================================== *)

Lemma truthy_false (s : string) : truthy s = false <-> s = "".
Proof. destruct s; cbn; split; intros H; congruence. Qed.

Lemma truthy_true (s : string) : truthy s = true <-> s <> "".
Proof. destruct s; cbn; split; intros H; congruence. Qed.

(** ** The heap *)

Lemma heap_append_eq (l : loc) (x : message) (w : world) (T : list message) :
  heap w !! l = Some T -> heap (append l x w) !! l = Some (T ++ [x]).
Proof. intros H. cbn. rewrite lookup_alter_eq, H. reflexivity. Qed.

Lemma heap_append_ne (l l' : loc) (x : message) (w : world) :
  l <> l' -> heap (append l x w) !! l' = heap w !! l'.
Proof. intros H. cbn. apply lookup_alter_ne. exact H. Qed.

Lemma heap_alloc_eq (xs : list message) (w : world) :
  heap (snd (alloc xs w)) !! fst (alloc xs w) = Some xs.
Proof. cbn. apply lookup_insert_eq. Qed.

Lemma heap_alloc_old (xs : list message) (w : world) (l : loc) :
  is_Some (heap w !! l) -> heap (snd (alloc xs w)) !! l = heap w !! l.
Proof.
  intros Hl. cbn. apply lookup_insert_ne. intros <-.
  apply elem_of_dom in Hl. exact (is_fresh _ Hl).
Qed.

Lemma contents_lookup (l : loc) (w : world) (T : list message) :
  heap w !! l = Some T -> contents l w = T.
Proof. unfold contents. intros ->. reflexivity. Qed.

Section AgentProperties.

Variable client : nat -> list message -> result completion.
Variable execute_tool : string -> string -> M backend string.

Abbreviation loop := (agentic_loop client execute_tool).
Abbreviation tools := (run_tools execute_tool).

(** ** The tool loop of one round *)

Lemma run_tools_returns (calls : list tool_call) :
  forall (messages : loc) (w : world) (T : list message) texts b',
    heap w !! messages = Some T ->
    tool_texts execute_tool calls (ext w) = (Return texts, b') ->
    exists w',
      tools messages calls w = (Return tt, w')
      /\ heap w' !! messages = Some (T ++ tagged_results calls texts)
      /\ ext w' = b'
      /\ invocations w' = invocations w
      /\ trace w' = trace w ++ map executed calls.
Proof.
  induction calls as [|tc rest IH]; intros messages w T texts b' HT Htexts.
  - cbn in Htexts. injection Htexts as <- <-. exists w. cbn.
    rewrite !app_nil_r. auto.
  - cbn in Htexts. cbn [run_tools]. cbn [log ext].
    destruct (execute_tool (function_name tc) (function_arguments tc) (ext w))
      as [[text|e] b1]; [|discriminate].
    destruct (tool_texts execute_tool rest b1) as [[texts'|e] b2] eqn:Hrest;
      [|discriminate].
    injection Htexts as <- <-.
    edestruct (IH messages
                 (append messages (ToolResult (id tc) text)
                    (set_ext b1 (log (executed tc) w)))
                 (T ++ [ToolResult (id tc) text]) texts' b2)
      as (w' & Hrun & Hheap & Hext & Hinv & Htrace).
    + apply heap_append_eq. exact HT.
    + exact Hrest.
    + exists w'. split; [exact Hrun|].
      repeat split; [| exact Hext | exact Hinv |].
      * rewrite Hheap, <- app_assoc. reflexivity.
      * rewrite Htrace. cbn. rewrite <- app_assoc. reflexivity.
Qed.


Lemma tool_texts_length (calls : list tool_call) :
  forall b texts b',
    tool_texts execute_tool calls b = (Return texts, b') ->
    length texts = length calls.
Proof.
  induction calls as [|tc rest IH]; intros b texts b' H; cbn in H.
  - injection H as <- <-. reflexivity.
  - destruct (execute_tool _ _ b) as [[text|e] b1]; [|discriminate].
    destruct (tool_texts execute_tool rest b1) as [[texts'|e] b2] eqn:Hrest;
      [|discriminate].
    injection H as <- <-. cbn. f_equal. eapply IH. exact Hrest.
Qed.

(** The tool loop leaves every other list object alone. *)
Lemma run_tools_frame (calls : list tool_call) :
  forall (messages l : loc) (w : world),
    messages <> l -> heap (snd (tools messages calls w)) !! l = heap w !! l.
Proof.
  induction calls as [|tc rest IH]; intros messages l w Hne; cbn [run_tools].
  - reflexivity.
  - destruct (execute_tool _ _ _) as [[text|e] b1]; [|reflexivity].
    rewrite IH by exact Hne. rewrite heap_append_ne by exact Hne. reflexivity.
Qed.

(** ** One round of the agent loop *)

Lemma loop_final (rounds : nat) (messages : loc) (w : world) m :
  signals_completion (client (invocations w) (contents messages w)) m ->
  fst (loop (S rounds) messages w)
  = Returned (match msg_content m with
              | Some ((String _ _) as final_answer) => final_answer
              | _ => FALLBACK
              end).
Proof.
  intros (first & rest & Hc & Hf & <-). cbn [agentic_loop create]. rewrite Hc.
  apply String.eqb_neq in Hf. rewrite Hf. cbn [negb].
  destruct (msg_content (choice_message first)) as [[|c s]|]; reflexivity.
Qed.

Lemma loop_model_error (rounds : nat) (messages : loc) (w : world) (e : exn) :
  client (invocations w) (contents messages w) = Raise e ->
  fst (loop (S rounds) messages w) = Raised e.
Proof. intros Hc. cbn [agentic_loop create]. rewrite Hc. reflexivity. Qed.

(** A round in which the model asks for tools and every tool returns. *)
Lemma loop_tool_round (rounds : nat) (messages : loc) (w : world) T m calls texts b' :
  heap w !! messages = Some T ->
  requests_tools (client (invocations w) T) m calls ->
  tool_texts execute_tool calls (ext w) = (Return texts, b') ->
  exists w',
    loop (S rounds) messages w = loop rounds messages w'
    /\ heap w' !! messages = Some (T ++ [Response m] ++ tagged_results calls texts)
    /\ ext w' = b'
    /\ invocations w' = S (invocations w)
    /\ trace w' = trace w ++ [ModelInvoked T] ++ map executed calls.
Proof.
  intros HT (first & rest & Hc & Hf & <- & Hcalls) Htexts.
  cbn [agentic_loop create]. rewrite (contents_lookup _ _ _ HT), Hc, Hf.
  rewrite String.eqb_refl. cbn [negb]. rewrite Hcalls.
  match goal with |- context [tools messages calls ?w2] =>
    destruct (run_tools_returns calls messages w2
                (T ++ [Response (choice_message first)]) texts b')
      as (w' & Hrun & Hheap & Hext & Hinv & Htrace)
  end.
  - apply heap_append_eq. exact HT.
  - exact Htexts.
  - rewrite Hrun. exists w'. split; [reflexivity|].
    repeat split; [| exact Hext | exact Hinv |].
    + rewrite Hheap, <- app_assoc. reflexivity.
    + rewrite Htrace. cbn. rewrite <- app_assoc. reflexivity.
Qed.


(** Whatever the loop returns is a non-empty text. *)
Lemma loop_returns_text (rounds : nat) (messages : loc) (w : world) (r : string) :
  fst (loop rounds messages w) = Returned r -> r <> "".
Proof.
  revert w. induction rounds as [|n IH]; intros w; cbn [agentic_loop create].
  - discriminate.
  - destruct (client (invocations w) (contents messages w)) as [[|first rest]|e];
      cbn [fst]; try discriminate.
    destruct (negb (String.eqb (finish_reason first) "tool_calls")).
    + destruct (msg_content (choice_message first)) as [[|c s]|]; cbn [fst];
        intros [= <-]; discriminate.
    + destruct (tool_calls (choice_message first)) as [calls|]; cbn [fst];
        try discriminate.
      destruct (tools messages calls _) as [[[]|e] w3]; cbn [fst];
        try discriminate.
      apply IH.
Qed.

(** The loop leaves every list object but its transcript alone, however
    many rounds it has made. *)
Lemma loop_frame (rounds : nat) (messages l : loc) :
  messages <> l ->
  forall w, heap (snd (loop rounds messages w)) !! l = heap w !! l.
Proof.
  intros Hne. induction rounds as [|n IH]; intros w; cbn [agentic_loop create].
  - reflexivity.
  - destruct (client (invocations w) (contents messages w)) as [[|first rest]|e];
      cbn [snd heap]; try reflexivity.
    destruct (negb (String.eqb (finish_reason first) "tool_calls")).
    + destruct (msg_content (choice_message first)) as [[|c s]|]; reflexivity.
    + destruct (tool_calls (choice_message first)) as [calls|].
      * destruct (tools messages calls _) as [[[]|e] w3] eqn:Hrun.
        -- rewrite IH. change w3 with (snd (Return tt, w3)). rewrite <- Hrun.
           rewrite run_tools_frame by exact Hne.
           rewrite heap_append_ne by exact Hne. reflexivity.
        -- cbn [snd]. change w3 with (snd (@Raise unit e, w3)). rewrite <- Hrun.
           rewrite run_tools_frame by exact Hne.
           rewrite heap_append_ne by exact Hne. reflexivity.
      * cbn [snd]. rewrite heap_append_ne by exact Hne. reflexivity.
Qed.

(** The trace only grows. *)
Lemma run_tools_trace (calls : list tool_call) :
  forall (messages : loc) (w : world),
    exists later, trace (snd (tools messages calls w)) = trace w ++ later.
Proof.
  induction calls as [|tc rest IH]; intros messages w; cbn [run_tools].
  - exists []. cbn. rewrite app_nil_r. reflexivity.
  - destruct (execute_tool _ _ _) as [[text|e] b1].
    + edestruct IH as (later & ->). cbn. rewrite <- app_assoc. eauto.
    + cbn. eauto.
Qed.

Lemma loop_trace (rounds : nat) (messages : loc) :
  forall w, exists later, trace (snd (loop rounds messages w)) = trace w ++ later.
Proof.
  induction rounds as [|n IH]; intros w; cbn [agentic_loop create].
  - exists []. cbn. rewrite app_nil_r. reflexivity.
  - destruct (client (invocations w) (contents messages w)) as [[|first rest]|e];
      cbn [snd trace]; eauto.
    destruct (negb (String.eqb (finish_reason first) "tool_calls")).
    + destruct (msg_content (choice_message first)) as [[|c s]|]; cbn; eauto.
    + destruct (tool_calls (choice_message first)) as [calls|]; [|cbn; eauto].
      match goal with |- context [tools messages calls ?w2] =>
        destruct (run_tools_trace calls messages w2) as (l1 & H1);
        destruct (tools messages calls w2) as [[[]|e] w3]
      end; cbn [snd] in *.
      * destruct (IH w3) as (l2 & ->). rewrite H1. cbn.
        rewrite <- !app_assoc. eauto.
      * rewrite H1. cbn. rewrite <- app_assoc. eauto.
Qed.


(** Against a model that asks for tools on every invocation, with tools
    that return, the loop is still going after any number of rounds. *)
Lemma loop_keeps_running :
  (forall n T, exists m calls, requests_tools (client n T) m calls) ->
  (forall name arguments b, exists text b',
      execute_tool name arguments b = (Return text, b')) ->
  forall rounds messages w T,
    heap w !! messages = Some T ->
    fst (loop rounds messages w) = Running
    /\ invocations (snd (loop rounds messages w)) = (invocations w + rounds)%nat.
Proof.
  intros Hmodel Htools.
  assert (Hall : forall calls b, exists texts b',
             tool_texts execute_tool calls b = (Return texts, b')).
  { induction calls as [|tc rest IH]; intros b; cbn.
    - eauto.
    - destruct (Htools (function_name tc) (function_arguments tc) b)
        as (text & b1 & ->).
      destruct (IH b1) as (texts & b2 & ->). eauto. }
  induction rounds as [|n IH]; intros messages w T HT.
  - cbn. split; [reflexivity | lia].
  - destruct (Hmodel (invocations w) T) as (m & calls & Hreq).
    destruct (Hall calls (ext w)) as (texts & b' & Htexts).
    destruct (loop_tool_round n messages w T m calls texts b' HT Hreq Htexts)
      as (w' & -> & Hheap & _ & Hinv & _).
    destruct (IH messages w' _ Hheap) as [-> ->]. split; [reflexivity | lia].
Qed.

(** ** Two runs against deterministic stubs *)

Lemma run_tools_two_runs (Htools : deterministic_tools execute_tool)
    (calls : list tool_call) :
  forall m1 w1 m2 w2 T,
    heap w1 !! m1 = Some T -> heap w2 !! m2 = Some T ->
    fst (tools m1 calls w1) = fst (tools m2 calls w2)
    /\ exists T', heap (snd (tools m1 calls w1)) !! m1 = Some T'
                /\ heap (snd (tools m2 calls w2)) !! m2 = Some T'.
Proof.
  induction calls as [|tc rest IH]; intros m1 w1 m2 w2 T H1 H2; cbn [run_tools].
  - cbn. eauto.
  - cbn [log ext].
    pose proof (Htools (function_name tc) (function_arguments tc) (ext w1) (ext w2)) as He.
    destruct (execute_tool _ _ (ext w1)) as [[t1|e1] b1];
      destruct (execute_tool _ _ (ext w2)) as [[t2|e2] b2];
      cbn in He; try discriminate.
    + injection He as <-.
      apply (IH m1 _ m2 _ (T ++ [ToolResult (id tc) t1]));
        apply heap_append_eq; assumption.
    + injection He as <-. cbn. eauto.
Qed.

Lemma loop_two_runs (Hmodel : deterministic_model client)
    (Htools : deterministic_tools execute_tool) (rounds : nat) :
  forall m1 w1 m2 w2 T,
    heap w1 !! m1 = Some T -> heap w2 !! m2 = Some T ->
    fst (loop rounds m1 w1) = fst (loop rounds m2 w2).
Proof.
  induction rounds as [|n IH]; intros m1 w1 m2 w2 T H1 H2;
    cbn [agentic_loop create]; [reflexivity|].
  rewrite (contents_lookup _ _ _ H1), (contents_lookup _ _ _ H2).
  rewrite (Hmodel (invocations w2) (invocations w1) T).
  destruct (client (invocations w1) T) as [[|first rest]|e]; try reflexivity.
  destruct (negb (String.eqb (finish_reason first) "tool_calls")).
  - destruct (msg_content (choice_message first)) as [[|c s]|]; reflexivity.
  - destruct (tool_calls (choice_message first)) as [calls|]; [|reflexivity].
    match goal with
    | |- context [tools m1 calls ?a] =>
        match goal with
        | |- context [tools m2 calls ?b] =>
            destruct (run_tools_two_runs Htools calls m1 a m2 b
                        (T ++ [Response (choice_message first)]))
              as (Hfst & T' & Ha & Hb);
            [apply heap_append_eq; exact H1 | apply heap_append_eq; exact H2 |];
            destruct (tools m1 calls a) as [[[]|ea] wa];
            destruct (tools m2 calls b) as [[[]|eb] wb]
        end
    end; cbn [fst snd] in *; try discriminate.
    + eapply IH; eassumption.
    + injection Hfst as <-. reflexivity.
Qed.

(** ** [get_response] *)

Lemma get_response_unfold (rounds : nat) (user_message : string) (history : loc)
    (caller_phone : string) (w : world) :
  get_response client execute_tool rounds user_message history caller_phone w
  = loop rounds (fst (alloc (initial_transcript (contents history w) user_message) w))
      (snd (alloc (initial_transcript (contents history w) user_message) w)).
Proof. reflexivity. Qed.

Lemma get_response_frame (rounds : nat) (user_message : string) (history : loc)
    (caller_phone : string) (w : world) (l : loc) :
  is_Some (heap w !! l) ->
  heap (snd (get_response client execute_tool rounds user_message history caller_phone w)) !! l
  = heap w !! l.
Proof.
  intros Hl. rewrite get_response_unfold, loop_frame.
  - apply heap_alloc_old. exact Hl.
  - cbn. intros Heq. apply elem_of_dom in Hl. rewrite <- Heq in Hl.
    exact (is_fresh _ Hl).
Qed.

End AgentProperties.

(* ===================================================================== *)
(** * 11. The agent loop: the claims                                     *)
(* ===================================================================== *)

Section AgentClaims.

Variable client : nat -> list message -> result completion.
Variable execute_tool : string -> string -> M backend string.

(** C1, as amended.  [get_response] has no round cap.  Against a model
    that asks for tools on every invocation, with tools that return, the
    loop never stops: whatever number of rounds is observed, the loop has
    invoked the model once per round and is still running; it returns
    neither the fallback apology nor anything else. *)
Theorem agent_loop_has_no_round_cap :
  (forall n T, exists m calls, requests_tools (client n T) m calls) ->
  (forall name arguments b, exists text b',
      execute_tool name arguments b = (Return text, b')) ->
  forall rounds user_message history caller_phone w,
    fst (get_response client execute_tool rounds user_message history caller_phone w)
    = Running
    /\ invocations
         (snd (get_response client execute_tool rounds user_message history caller_phone w))
       = (invocations w + rounds)%nat.
Proof.
  intros Hmodel Htools rounds user_message history caller_phone w.
  rewrite get_response_unfold.
  apply (loop_keeps_running client execute_tool Hmodel Htools rounds _ _ _
           (heap_alloc_eq _ w)).
Qed.

(** C4.  When the model signals completion (a finish reason other than
    [tool_calls]) with a content that is [None] or the empty string, the
    loop returns the fallback apology, in the first round of
    [get_response] and in any later round of the loop; and whatever
    [get_response] returns, for any input and any stubs, is not the empty
    string. *)
Theorem empty_reply_guard :
  (forall rounds user_message history caller_phone w m,
      signals_completion
        (client (invocations w) (initial_transcript (contents history w) user_message)) m ->
      msg_content m = None \/ msg_content m = Some "" ->
      fst (get_response client execute_tool (S rounds) user_message history caller_phone w)
      = Returned FALLBACK)
  /\ (forall rounds messages w m,
      signals_completion (client (invocations w) (contents messages w)) m ->
      msg_content m = None \/ msg_content m = Some "" ->
      fst (agentic_loop client execute_tool (S rounds) messages w) = Returned FALLBACK)
  /\ (forall rounds user_message history caller_phone w r,
      fst (get_response client execute_tool rounds user_message history caller_phone w)
      = Returned r ->
      r <> "").
Proof.
  assert (Hround : forall rounds messages w m,
             signals_completion (client (invocations w) (contents messages w)) m ->
             msg_content m = None \/ msg_content m = Some "" ->
             fst (agentic_loop client execute_tool (S rounds) messages w)
             = Returned FALLBACK).
  { intros rounds messages w m Hdone Hempty.
    rewrite (loop_final _ _ _ _ _ _ Hdone). destruct Hempty as [-> | ->]; reflexivity. }
  split; [|split].
  - intros rounds user_message history caller_phone w m Hdone Hempty.
    rewrite get_response_unfold. apply (Hround _ _ _ m); [|exact Hempty].
    rewrite (contents_lookup _ _ _ (heap_alloc_eq _ w)). exact Hdone.
  - exact Hround.
  - intros rounds user_message history caller_phone w r.
    rewrite get_response_unfold. apply loop_returns_text.
Qed.

(** C8.  Against a deterministic model stub (its answer depends on the
    transcript only) and deterministic tool stubs (their answer depends
    on the call only), [get_response] gives the same result for the same
    utterance, identity and history content, whatever the state of the
    world it starts from; in particular a second invocation, made in the
    world the first one left, repeats the reply of the first. *)
Theorem get_response_deterministic :
  deterministic_model client ->
  deterministic_tools execute_tool ->
  (forall rounds user_message caller_phone history1 w1 history2 w2,
      contents history1 w1 = contents history2 w2 ->
      fst (get_response client execute_tool rounds user_message history1 caller_phone w1)
      = fst (get_response client execute_tool rounds user_message history2 caller_phone w2))
  /\ (forall rounds user_message caller_phone history w,
      is_Some (heap w !! history) ->
      let first := get_response client execute_tool rounds user_message history caller_phone w in
      fst (get_response client execute_tool rounds user_message history caller_phone (snd first))
      = fst first).
Proof.
  intros Hmodel Htools.
  assert (Htwo : forall rounds user_message caller_phone history1 w1 history2 w2,
             contents history1 w1 = contents history2 w2 ->
             fst (get_response client execute_tool rounds user_message history1 caller_phone w1)
             = fst (get_response client execute_tool rounds user_message history2 caller_phone w2)).
  { intros rounds user_message caller_phone history1 w1 history2 w2 Hsame.
    rewrite !get_response_unfold, Hsame.
    eapply (loop_two_runs client execute_tool Hmodel Htools); apply heap_alloc_eq. }
  split; [exact Htwo|].
  intros rounds user_message caller_phone history w Hlive first.
  apply Htwo. unfold contents, first.
  rewrite get_response_frame by exact Hlive. reflexivity.
Qed.


(** C10.  [get_response] never changes the list it is given as history:
    after the call, however it ends and after any number of rounds, the
    object at [history] (and every other list object that existed before
    the call) holds the same elements in the same order.  The working
    transcript is a new object and all appends go to it. *)
Theorem get_response_preserves_history rounds user_message history caller_phone w :
  is_Some (heap w !! history) ->
  let w' := snd (get_response client execute_tool rounds user_message history caller_phone w) in
  heap w' !! history = heap w !! history
  /\ contents history w' = contents history w
  /\ (forall l, is_Some (heap w !! l) -> heap w' !! l = heap w !! l)
  /\ fst (alloc (initial_transcript (contents history w) user_message) w) <> history.
Proof.
  intros Hlive w'. unfold w', contents.
  rewrite get_response_frame by exact Hlive.
  repeat split.
  - intros l Hl. apply get_response_frame. exact Hl.
  - cbn. intros Heq. apply elem_of_dom in Hlive. rewrite <- Heq in Hlive.
    exact (is_fresh _ Hlive).
Qed.

End AgentClaims.

(** ** The claims at sample inputs *)

Example two_step_run :
  fst (get_response two_step_client sample_registry 5 "I forgot my password" 1%positive
         "+15550100" sample_world)
  = Returned "You can reset your password from the login page.".
Proof. vm_compute. reflexivity. Qed.

Lemma always_tool_client_requests n T :
  exists m calls, requests_tools (always_tool_client n T) m calls.
Proof.
  exists {| msg_content := None; tool_calls := Some [search_call] |}, [search_call].
  eexists _, _. repeat split; reflexivity.
Defined.

Lemma stub_tool_returns name arguments b :
  exists text b', stub_tool name arguments b = (Return text, b').
Proof. exists "passage", b. reflexivity. Defined.

(** C1, counterexample.  With a model stub that asks for a tool on every
    invocation there is no round count at which [get_response] has
    stopped, so none at which it has returned the fallback apology. *)
Lemma tool_cycle_never_stops :
  ~ (exists cap : nat,
        fst (get_response always_tool_client stub_tool cap "hello" 1%positive "+15550100"
               sample_world) <> Running).
Proof.
  intros (cap & Hstop). apply Hstop. rewrite get_response_unfold.
  apply (loop_keeps_running always_tool_client stub_tool
           always_tool_client_requests stub_tool_returns cap _ _ _
           (heap_alloc_eq _ sample_world)).
Qed.

Lemma agent_loop_has_no_round_cap_witness :
  fst (get_response always_tool_client stub_tool 25 "hello" 1%positive "+15550100"
         sample_world) = Running
  /\ invocations
       (snd (get_response always_tool_client stub_tool 25 "hello" 1%positive "+15550100"
               sample_world))
     = (invocations sample_world + 25)%nat.
Proof.
  apply (agent_loop_has_no_round_cap always_tool_client stub_tool
           always_tool_client_requests stub_tool_returns).
Defined.

Lemma empty_reply_guard_witness :
  fst (get_response empty_reply_client stub_tool 1 "hello" 1%positive "+15550100"
         sample_world) = Returned FALLBACK.
Proof.
  apply (proj1 (empty_reply_guard empty_reply_client stub_tool) 0%nat "hello" 1%positive
           "+15550100" sample_world {| msg_content := None; tool_calls := None |}).
  - eexists _, _. repeat split. discriminate.
  - left. reflexivity.
Defined.

Lemma two_step_client_deterministic : deterministic_model two_step_client.
Proof. intros n n' T. reflexivity. Defined.

Lemma stub_tool_deterministic : deterministic_tools stub_tool.
Proof. intros name arguments b b'. reflexivity. Defined.

Lemma get_response_deterministic_witness :
  fst (get_response two_step_client stub_tool 4 "hello" 1%positive "+15550100"
         (snd (get_response two_step_client stub_tool 4 "hello" 1%positive "+15550100"
                 sample_world)))
  = fst (get_response two_step_client stub_tool 4 "hello" 1%positive "+15550100" sample_world).
Proof.
  apply (proj2 (get_response_deterministic two_step_client stub_tool
                  two_step_client_deterministic stub_tool_deterministic)
           4%nat "hello" "+15550100" 1%positive sample_world).
  exists []. reflexivity.
Defined.


Lemma get_response_preserves_history_witness :
  heap (snd (get_response two_step_client sample_registry 3 "hello" 1%positive "+15550100"
               sample_world)) !! 1%positive
  = heap sample_world !! 1%positive.
Proof.
  assert (Hlive : is_Some (heap sample_world !! 1%positive)) by (exists []; reflexivity).
  exact (proj1 (get_response_preserves_history two_step_client sample_registry 3 "hello"
                  1%positive "+15550100" sample_world Hlive)).
Defined.

(* ===================================================================== *)
(** * 12. The call turn controller: the claims                           *)
(* ===================================================================== *)

Section ControllerClaims.

Variable client : nat -> list message -> result completion.
Variable execute_tool : string -> string -> M backend string.

(** A non-empty utterance does reach the memory adapter: the load is the
    first event of the turn. *)
Lemma handle_speech_loads_history (rounds : nat) (form : gmap string string) (w : world) :
  utterance form <> "" ->
  exists later,
    trace (snd (handle_speech client execute_tool rounds form w))
    = trace w ++ [HistoryLoaded (identity form)] ++ later.
Proof.
  intros Hsome. unfold handle_speech. fold (utterance form) (identity form).
  apply truthy_true in Hsome. rewrite Hsome. cbn [negb].
  destruct (get_history _ _ _) as [[turns|e] b]; [|exists []; reflexivity].
  match goal with |- context [alloc ?xs ?w0] =>
    destruct (alloc xs w0) as [history w1] eqn:Halloc;
    assert (Htr : trace w1 = trace w ++ [HistoryLoaded (identity form)])
      by (injection Halloc as _ <-; reflexivity)
  end.
  rewrite get_response_unfold.
  match goal with |- context [agentic_loop client execute_tool rounds ?m ?w2] =>
    destruct (loop_trace client execute_tool rounds m w2) as (l1 & H1);
    destruct (agentic_loop client execute_tool rounds m w2) as [[r|e|] w3]
  end; cbn [snd] in H1.
  - destruct (save_turn _ _ _ _) as [? b']. cbn. rewrite H1. cbn. rewrite Htr.
    rewrite <- !app_assoc. eauto.
  - destruct (save_turn _ _ _ _) as [? b']. cbn. rewrite H1. cbn. rewrite Htr.
    rewrite <- !app_assoc. eauto.
  - cbn. rewrite H1. cbn. rewrite Htr. rewrite <- !app_assoc. eauto.
Qed.

(** C6.  When the transcribed utterance is empty (absent, empty, or
    white space only), [handle_speech] returns the directive that asks
    the caller to repeat and leaves the world as it was: no history
    load, no model invocation, no tool call and no [save_turn] appear in
    the trace, and no conversation row is written. *)
Theorem empty_utterance_asks_to_repeat (rounds : nat) (form : gmap string string) (w : world) :
  utterance form = "" ->
  let r := handle_speech client execute_tool rounds form w in
  fst r = Returned repeat_directive
  /\ snd r = w
  /\ trace (snd r) = trace w
  /\ invocations (snd r) = invocations w
  /\ conversations (data (ext (snd r))) = conversations (data (ext w)).
Proof.
  intros Hempty. unfold handle_speech. fold (utterance form).
  rewrite Hempty. cbn. auto.
Qed.

(** C3, as amended.  An error raised by the model invocation is not
    caught inside [get_response]: it leaves [get_response] as an
    exception, in the first round and in any later round.  The call turn
    controller catches it: whenever [get_response] raises, [handle_speech]
    speaks the fixed technical-issue apology and hands that apology to
    [save_turn] as the agent's turn. *)
Theorem model_error_is_caught_by_the_controller :
  (forall rounds user_message history caller_phone w e,
      client (invocations w) (initial_transcript (contents history w) user_message)
      = Raise e ->
      fst (get_response client execute_tool (S rounds) user_message history caller_phone w)
      = Raised e)
  /\ (forall rounds messages w e,
      client (invocations w) (contents messages w) = Raise e ->
      fst (agentic_loop client execute_tool (S rounds) messages w) = Raised e)
  /\ (forall rounds form w turns b e,
      utterance form <> "" ->
      get_history (identity form) 10 (ext w) = (Return turns, b) ->
      fst (get_response client execute_tool rounds (utterance form)
             (fst (alloc (map Plain turns)
                     (set_ext b (log (HistoryLoaded (identity form)) w))))
             (identity form)
             (snd (alloc (map Plain turns)
                     (set_ext b (log (HistoryLoaded (identity form)) w)))))
      = Raised e ->
      let r := handle_speech client execute_tool rounds form w in
      fst r = Returned (reply_directive TECHNICAL_ISSUE)
      /\ In (TurnSaved (identity form) (utterance form) TECHNICAL_ISSUE) (trace (snd r))).
Proof.
  split; [|split].
  - intros rounds user_message history caller_phone w e Hc.
    rewrite get_response_unfold. apply loop_model_error.
    rewrite (contents_lookup _ _ _ (heap_alloc_eq _ w)). exact Hc.
  - intros rounds messages w e. apply loop_model_error.
  - intros rounds form w turns b e Hsome Hload Hraise.
    unfold handle_speech. fold (utterance form) (identity form).
    apply truthy_true in Hsome. rewrite Hsome. cbn [negb].
    change (ext (log (HistoryLoaded (identity form)) w)) with (ext w).
    rewrite Hload.
    destruct (alloc (map Plain turns) (set_ext b (log (HistoryLoaded (identity form)) w)))
      as [history w1].
    cbn [fst snd] in Hraise.
    destruct (get_response client execute_tool rounds (utterance form) history
                (identity form) w1) as [[r|e'|] w2]; cbn [fst] in Hraise;
      try discriminate.
    destruct (save_turn _ _ _ _) as [? b']. cbn. split; [reflexivity|].
    apply in_or_app. right. left. reflexivity.
Qed.

End ControllerClaims.

(** C3, counterexample.  A model stub that times out: [get_response]
    does not return the fallback apology, it raises the error of the
    model invocation to its caller. *)
Lemma model_timeout_escapes_get_response :
  fst (get_response timeout_client stub_tool 1 "hello" 1%positive "+15550100" sample_world)
  = Raised (APIError "Request timed out.").
Proof. vm_compute. reflexivity. Qed.

Lemma model_error_is_caught_by_the_controller_witness :
  fst (handle_speech timeout_client sample_registry 1 (speech_form "hello") sample_world)
  = Returned (reply_directive TECHNICAL_ISSUE).
Proof.
  refine (proj1 (proj2 (proj2 (model_error_is_caught_by_the_controller timeout_client
                   sample_registry)) 1%nat (speech_form "hello") sample_world []
                   (tick (tick (tick sample_backend)))
                   (APIError "Request timed out.") _ _ _)).
  - vm_compute. discriminate.
  - vm_compute. reflexivity.
  - vm_compute. reflexivity.
Defined.

Lemma empty_utterance_asks_to_repeat_witness :
  fst (handle_speech two_step_client sample_registry 3 (speech_form "   ") sample_world)
  = Returned repeat_directive
  /\ snd (handle_speech two_step_client sample_registry 3 (speech_form "   ") sample_world)
     = sample_world.
Proof.
  assert (Hempty : utterance (speech_form "   ") = "") by (vm_compute; reflexivity).
  destruct (empty_utterance_asks_to_repeat two_step_client sample_registry 3
              (speech_form "   ") sample_world Hempty) as (H1 & H2 & _).
  split; [exact H1 | exact H2].
Defined.

(* ===================================================================== *)
(** * 13. The memory adapter: the claims                                 *)
(* ===================================================================== *)

Section OrderBy.

Context {A : Type} (key : A -> Z).

Lemma insert_desc_perm (x : A) (l : list A) : Permutation (insert_desc key x l) (x :: l).
Proof.
  induction l as [|y l IH]; cbn.
  - reflexivity.
  - destruct (key y <? key x); [reflexivity|].
    rewrite IH. apply perm_swap.
Qed.

Lemma order_by_desc_perm (l : list A) : Permutation (order_by_desc key l) l.
Proof.
  induction l as [|x l IH]; cbn.
  - reflexivity.
  - rewrite insert_desc_perm. apply perm_skip. exact IH.
Qed.

Lemma insert_desc_sorted (x : A) (l : list A) :
  StronglySorted (newer_first key) l ->
  StronglySorted (newer_first key) (insert_desc key x l).
Proof.
  induction 1 as [|y l Hl IH Hy]; cbn.
  - repeat constructor.
  - destruct (key y <? key x) eqn:Hcmp.
    + apply Z.ltb_lt in Hcmp. constructor; [constructor; assumption|].
      constructor; [unfold newer_first; lia|].
      eapply Forall_impl; [exact Hy|]. unfold newer_first. intros z Hz. lia.
    + apply Z.ltb_ge in Hcmp. constructor; [exact IH|].
      rewrite insert_desc_perm. constructor; [exact Hcmp | exact Hy].
Qed.

Lemma order_by_desc_sorted (l : list A) :
  StronglySorted (newer_first key) (order_by_desc key l).
Proof.
  induction l as [|x l IH]; cbn.
  - constructor.
  - apply insert_desc_sorted. exact IH.
Qed.

Lemma older_first_rev (l : list A) :
  StronglySorted (older_first key) l -> StronglySorted (newer_first key) (rev l).
Proof.
  induction 1 as [|x l Hl IH Hx]; cbn.
  - constructor.
  - apply StronglySorted_app_2; [| exact IH | repeat constructor].
    intros y z Hy Hz. apply list_elem_of_singleton in Hz as ->.
    apply list_elem_of_In, in_rev, list_elem_of_In in Hy. rewrite Forall_forall in Hx.
    specialize (Hx y Hy). unfold older_first, newer_first in *. lia.
Qed.

Lemma newer_first_rev (l : list A) :
  StronglySorted (newer_first key) l -> StronglySorted (oldest_first key) (rev l).
Proof.
  induction 1 as [|x l Hl IH Hx]; cbn.
  - constructor.
  - apply StronglySorted_app_2; [| exact IH | repeat constructor].
    intros y z Hy Hz. apply list_elem_of_singleton in Hz as ->.
    apply list_elem_of_In, in_rev, list_elem_of_In in Hy. rewrite Forall_forall in Hx.
    specialize (Hx y Hy). unfold oldest_first, newer_first in *. lia.
Qed.

Lemma older_first_key_inj (l : list A) :
  StronglySorted (older_first key) l ->
  forall x y, x ∈ l -> y ∈ l -> key x = key y -> x = y.
Proof.
  induction 1 as [|a l Hl IH Ha]; intros x y Hx Hy Hk.
  - inversion Hx.
  - rewrite Forall_forall in Ha. unfold older_first in Ha.
    apply elem_of_cons in Hx as [-> | Hx]; apply elem_of_cons in Hy as [-> | Hy].
    + reflexivity.
    + specialize (Ha y Hy). lia.
    + specialize (Ha x Hx). lia.
    + apply IH; assumption.
Qed.

(** On rows whose time stamps differ, [ORDER BY ... DESC] yields the
    chronological listing read backwards. *)
Lemma order_by_desc_chron (l chron : list A) :
  Permutation chron l ->
  StronglySorted (older_first key) chron ->
  order_by_desc key l = rev chron.
Proof.
  intros Hperm Hsorted.
  apply (StronglySorted_unique_strong (newer_first key)).
  - intros x1 x2 H1 H2 R1 R2. apply (older_first_key_inj chron Hsorted).
    + rewrite Hperm, <- (order_by_desc_perm l). exact H1.
    + apply list_elem_of_In, in_rev, list_elem_of_In in H2. exact H2.
    + unfold newer_first in *. lia.
  - apply order_by_desc_sorted.
  - apply older_first_rev. exact Hsorted.
  - rewrite order_by_desc_perm, <- Hperm. apply Permutation_rev.
Qed.

End OrderBy.

(** [get_history] when the three round trips it makes succeed. *)
Lemma get_history_run (phone : string) (limit : Z) (b : backend) :
  fails b (ops b) = false ->
  fails b (S (ops b)) = false ->
  fails b (S (S (ops b))) = false ->
  0 <= limit ->
  get_history phone limit b
  = (Return (map c_turn
               (rev (firstn (Z.to_nat limit)
                       (order_by_desc c_created_at (stored_turns phone b))))),
     set_data (data b) (tick (tick (tick b)))).
Proof.
  intros H0 H1 H2 Hlimit.
  unfold get_history, with_conn, bind, execute, commit, ret, select_history.
  rewrite H0. cbn. rewrite H1.
  destruct (limit <? 0) eqn:Hneg; [apply Z.ltb_lt in Hneg; lia|].
  cbn. rewrite H2. reflexivity.
Qed.

(** C5.  When the store answers, [get_history] returns the persisted
    turns of the caller oldest first and capped at [limit], whatever the
    time stamps are.  There is a listing [chron] of the rows stored for
    the caller by increasing [created_at] (rows with equal time stamps in
    some order) such that the result is the turns of the last [limit] rows
    of [chron], in the order of [chron]: all of them when at most [limit]
    are stored, the most recent [limit] otherwise; never more than
    [limit]; and the load changes nothing in the store.  When the time
    stamps of the caller's rows differ, [chron] is the one chronological
    listing. *)
Theorem get_history_oldest_first_capped (phone : string) (limit : Z) (b : backend) :
  0 <= limit ->
  (forall k, (k < 3)%nat -> fails b (ops b + k) = false) ->
  exists chron,
    Permutation chron (stored_turns phone b)
    /\ StronglySorted (oldest_first c_created_at) chron
    /\ fst (get_history phone limit b)
       = Return (map c_turn (skipn (length chron - Z.to_nat limit) chron))
    /\ (Z.of_nat (length chron) <= limit ->
        fst (get_history phone limit b) = Return (map c_turn chron))
    /\ (forall turns, fst (get_history phone limit b) = Return turns ->
        Z.of_nat (length turns) <= limit)
    /\ data (snd (get_history phone limit b)) = data b
    /\ (forall chron',
          Permutation chron' (stored_turns phone b) ->
          StronglySorted (older_first c_created_at) chron' ->
          chron = chron').
Proof.
  intros Hlimit Hup.
  pose proof (Hup 0%nat ltac:(lia)) as H0. pose proof (Hup 1%nat ltac:(lia)) as H1.
  pose proof (Hup 2%nat ltac:(lia)) as H2.
  rewrite Nat.add_0_r in H0. rewrite Nat.add_1_r in H1.
  replace (ops b + 2)%nat with (S (S (ops b))) in H2 by lia.
  rewrite (get_history_run phone limit b H0 H1 H2 Hlimit). cbn [fst snd].
  exists (rev (order_by_desc c_created_at (stored_turns phone b))).
  split; [|split; [|split; [|split; [|split; [|split]]]]].
  - rewrite <- Permutation_rev. apply order_by_desc_perm.
  - apply newer_first_rev, order_by_desc_sorted.
  - rewrite skipn_rev, length_rev.
    replace (length (order_by_desc c_created_at (stored_turns phone b))
             - (length (order_by_desc c_created_at (stored_turns phone b))
                - Z.to_nat limit))%nat
      with (Nat.min (Z.to_nat limit)
              (length (order_by_desc c_created_at (stored_turns phone b)))) by lia.
    rewrite <- firstn_firstn, firstn_all. reflexivity.
  - rewrite length_rev. intros Hfew. rewrite firstn_all2 by lia. reflexivity.
  - intros turns [= <-]. rewrite length_map, length_rev, length_firstn. lia.
  - reflexivity.
  - intros chron' Hperm Hsorted.
    rewrite (order_by_desc_chron c_created_at _ chron' Hperm Hsorted).
    apply rev_involutive.
Qed.

(** C7.  [save_turn] is atomic.  For every identity, every pair of
    messages and every schedule of failures of the store, one of two
    things holds when it ends.  Either it returned, and the committed
    tables are the old ones with the two rows of the exchange added at the
    end, the caller's turn first and the agent's turn second.  Or it
    raised, at whatever point, and the committed tables are exactly the
    old ones, so that no later load sees either turn.  It returns exactly
    when none of its four round trips (connect, two inserts, commit)
    fails. *)
Theorem save_turn_is_atomic (phone user_msg assistant_msg : string) (b : backend) :
  let r := save_turn phone user_msg assistant_msg b in
  ((fst r = Return tt
    /\ data (snd r)
       = with_exchange phone user_msg assistant_msg
           (now b (S (ops b))) (now b (S (S (ops b)))) (data b)
    /\ stored_turns phone (snd r)
       = stored_turns phone b
         ++ [{| c_phone := phone; c_turn := {| role := "user"; content := user_msg |};
                c_created_at := now b (S (ops b)) |};
             {| c_phone := phone;
                c_turn := {| role := "assistant"; content := assistant_msg |};
                c_created_at := now b (S (S (ops b))) |}])
   \/ (exists e, fst r = Raise e
       /\ data (snd r) = data b
       /\ forall phone', stored_turns phone' (snd r) = stored_turns phone' b))
  /\ (fst r = Return tt <-> forall k, (k < 4)%nat -> fails b (ops b + k) = false).
Proof.
  cbv zeta. unfold save_turn, with_conn, bind, execute, commit, ret, insert_conversation.
  destruct (fails b (ops b)) eqn:H0; cbn.
  { split; [right; eauto|]. split; [discriminate|].
    intros H. specialize (H 0%nat ltac:(lia)). rewrite Nat.add_0_r in H. congruence. }
  destruct (fails b (S (ops b))) eqn:H1; cbn.
  { split; [right; eauto|]. split; [discriminate|].
    intros H. specialize (H 1%nat ltac:(lia)). rewrite Nat.add_1_r in H. congruence. }
  destruct (fails b (S (S (ops b)))) eqn:H2; cbn.
  { split; [right; eauto|]. split; [discriminate|].
    intros H. specialize (H 2%nat ltac:(lia)).
    replace (ops b + 2)%nat with (S (S (ops b))) in H by lia. congruence. }
  destruct (fails b (S (S (S (ops b))))) eqn:H3; cbn.
  { split; [right; eauto|]. split; [discriminate|].
    intros H. specialize (H 3%nat ltac:(lia)).
    replace (ops b + 3)%nat with (S (S (S (ops b)))) in H by lia. congruence. }
  split.
  - left. split; [reflexivity|]. split.
    + unfold with_exchange. rewrite <- app_assoc. reflexivity.
    + unfold stored_turns. cbn. rewrite <- app_assoc, List.filter_app. cbn.
      rewrite String.eqb_refl. reflexivity.
  - split; [|reflexivity]. intros _ k Hk.
    destruct k as [|[|[|[|k]]]]; try lia.
    + rewrite Nat.add_0_r. exact H0.
    + rewrite Nat.add_1_r. exact H1.
    + replace (ops b + 2)%nat with (S (S (ops b))) by lia. exact H2.
    + replace (ops b + 3)%nat with (S (S (S (ops b)))) by lia. exact H3.
Qed.

(** ** The claims at sample inputs *)

(** A failure at any of the four round trips of [save_turn] leaves the
    conversation table empty; without a failure both rows are there. *)
Example save_turn_at_each_failure_point :
  map (fun k => let r := save_turn "+15550100" "hello" "hi there" (failing_at k) in
                (fst r, map c_turn (conversations (data (snd r))))) (seq 0 5)
  = [(Raise (DatabaseError "connection failed"), []);
     (Raise (DatabaseError "statement failed"), []);
     (Raise (DatabaseError "statement failed"), []);
     (Raise (DatabaseError "commit failed"), []);
     (Return tt, [{| role := "user"; content := "hello" |};
                  {| role := "assistant"; content := "hi there" |}])].
Proof. vm_compute. reflexivity. Qed.

Lemma get_history_oldest_first_capped_witness :
  fst (get_history "+15550100" 2 history_backend)
  = Return [{| role := "assistant"; content := "second" |};
            {| role := "user"; content := "third" |}].
Proof.
  destruct (get_history_oldest_first_capped "+15550100" 2 history_backend)
    as (chron & _ & _ & Hturns & _ & _ & _ & Hchron).
  - lia.
  - intros k Hk. reflexivity.
  - rewrite Hturns.
    rewrite (Hchron [conv "+15550100" "user" "first" 10;
                     conv "+15550100" "assistant" "second" 20;
                     conv "+15550100" "user" "third" 30]).
    + reflexivity.
    + vm_compute. apply perm_skip. apply perm_swap.
    + repeat constructor.
Defined.

(* ===================================================================== *)
(** * 14. The tool registry: the claims                                  *)
(* ===================================================================== *)

(** ** The decoder's fuel *)

Module JsonFuel.
Import JsonDecoder.

Abbreviation len := String.length.

Ltac break_hyp H :=
  repeat match type of H with
         | context [match ?x with _ => _ end] => destruct x eqn:?; try discriminate
         | context [if ?x then _ else _] => destruct x eqn:?; try discriminate
         end.

Lemma skip_ws_length (s : string) : (len (skip_ws s) <= len s)%nat.
Proof.
  induction s as [|c s IH]; cbn; [lia|]. destruct (is_ws c); cbn; lia.
Qed.

Lemma skip_ws_cons (s : string) c r : skip_ws s = String c r -> (len r < len s)%nat.
Proof.
  intros H. pose proof (skip_ws_length s) as L. rewrite H in L. cbn in L. lia.
Qed.

Lemma hex4_length s u r : hex4 s = Some (u, r) -> (len r <= len s)%nat.
Proof.
  unfold hex4. intros H. break_hyp H. injection H as <- <-. cbn. lia.
Qed.

Lemma scan_escape_length s b r : scan_escape s = Some (b, r) -> (len r < len s)%nat.
Proof.
  unfold scan_escape. intros H. destruct s as [|e s]; [discriminate|].
  destruct (code e) as [|p]; [discriminate|].
  cbn [len].
  repeat (destruct p as [p|p|]; try discriminate);
    try (injection H as <- <-; lia).
  destruct (hex4 s) as [[u r1]|] eqn:H4; [|discriminate].
  apply hex4_length in H4.
  destruct (high_surrogate u).
  - destruct r1 as [|b0 [|v r2]]; try (injection H as <- <-; cbn in *; lia).
    destruct ((code b0 =? 92)%N && (code v =? 117)%N).
    + destruct (hex4 r2) as [[u2 r3]|] eqn:H5; [|discriminate].
      apply hex4_length in H5.
      destruct (low_surrogate u2); injection H as <- <-; cbn in *; lia.
    + injection H as <- <-; cbn in *; lia.
  - injection H as <- <-; lia.
Qed.

Lemma scanstring_length fuel : forall s acc str r,
  scanstring fuel s acc = Some (str, r) -> (len r < len s)%nat.
Proof.
  induction fuel as [|f IH]; intros s acc str r H; cbn in H; [discriminate|].
  destruct s as [|c s]; [discriminate|].
  destruct (code c =? 34)%N.
  - injection H as <- <-. cbn. lia.
  - destruct (code c =? 92)%N.
    + destruct (scan_escape s) as [[b r']|] eqn:He; [|discriminate].
      apply scan_escape_length in He. apply IH in H. cbn. lia.
    + destruct (code c <? 32)%N; [discriminate|]. apply IH in H. cbn. lia.
Qed.

Lemma drop_prefix_length p : forall s r, drop_prefix p s = Some r -> (len r <= len s)%nat.
Proof.
  induction p as [|a p IH]; intros s r H; cbn in H.
  - injection H as <-. lia.
  - destruct s as [|b s]; [discriminate|].
    destruct (Ascii.eqb a b); [|discriminate]. apply IH in H. cbn. lia.
Qed.

Lemma span_digits_length s : (len (snd (span_digits s)) <= len s)%nat.
Proof.
  induction s as [|c s IH]; cbn; [lia|].
  destruct (is_digit c); cbn; [|lia]. destruct (span_digits s). cbn in *. lia.
Qed.

Lemma scan_int_part_length s d r : scan_int_part s = Some (d, r) -> (len r <= len s)%nat.
Proof.
  unfold scan_int_part. intros H. destruct s as [|c s]; [discriminate|].
  destruct (code c =? 48)%N; [injection H as <- <-; cbn; lia|].
  destruct (is_digit c); [|discriminate].
  pose proof (span_digits_length s) as L. destruct (span_digits s).
  injection H as <- <-. cbn in *. lia.
Qed.

Lemma scan_frac_length s : (len (snd (scan_frac s)) <= len s)%nat.
Proof.
  unfold scan_frac. destruct s as [|c s]; cbn; [lia|].
  destruct (code c =? 46)%N; cbn; [|lia].
  pose proof (span_digits_length s) as L. destruct (span_digits s) as [[|d0 d] r];
    cbn in *; lia.
Qed.

Lemma scan_exp_length s : (len (snd (scan_exp s)) <= len s)%nat.
Proof.
  unfold scan_exp. destruct s as [|c s]; cbn; [lia|].
  destruct ((code c =? 101)%N || (code c =? 69)%N); cbn; [|lia].
  destruct s as [|g s]; cbn; [lia|].
  destruct ((code g =? 43)%N || (code g =? 45)%N).
  - pose proof (span_digits_length s) as L. destruct (span_digits s) as [[|d0 d] r];
      cbn in *; lia.
  - pose proof (span_digits_length (String g s)) as L.
    destruct (span_digits (String g s)) as [[|d0 d] r]; cbn in *; lia.
Qed.

Lemma scan_number_length s v r : scan_number s = Some (v, r) -> (len r <= len s)%nat.
Proof.
  unfold scan_number. intros H.
  destruct s as [|c s]; [discriminate|].
  destruct (code c =? 45)%N.
  - destruct (scan_int_part s) as [[ip r1]|] eqn:Hi; [|discriminate].
    apply scan_int_part_length in Hi.
    pose proof (scan_frac_length r1). destruct (scan_frac r1) as [fp r2].
    pose proof (scan_exp_length r2). destruct (scan_exp r2) as [ep r3].
    cbn in *. destruct fp, ep; injection H as <- <-; lia.
  - destruct (scan_int_part (String c s)) as [[ip r1]|] eqn:Hi; [|discriminate].
    apply scan_int_part_length in Hi.
    pose proof (scan_frac_length r1). destruct (scan_frac r1) as [fp r2].
    pose proof (scan_exp_length r2). destruct (scan_exp r2) as [ep r3].
    cbn in *. destruct fp, ep; injection H as <- <-; lia.
Qed.

Lemma scan_literal_length s v r : scan_literal s = Some (v, r) -> (len r <= len s)%nat.
Proof.
  unfold scan_literal. intros H.
  repeat match type of H with
         | match drop_prefix ?p s with _ => _ end = _ =>
             let E := fresh "E" in
             destruct (drop_prefix p s) eqn:E;
             [ apply drop_prefix_length in E; injection H as <- <-; exact E | clear E ]
         | match scan_number s with _ => _ end = _ =>
             let E := fresh "E" in
             destruct (scan_number s) as [[? ?]|] eqn:E;
             [ apply scan_number_length in E; injection H as <- <-; exact E | clear E ]
         end.
  discriminate.
Qed.

(** The rest a scanner leaves is never longer than its input. *)
Lemma scan_length fuel :
  (forall s v r, scan_once fuel s = Some (v, r) -> (len r <= len s)%nat)
  /\ (forall s acc v r, scan_pairs fuel s acc = Some (v, r) -> (len r <= len s)%nat)
  /\ (forall s acc v r, scan_items fuel s acc = Some (v, r) -> (len r <= len s)%nat).
Proof.
  induction fuel as [|f (IHo & IHp & IHi)].
  { repeat split; intros; discriminate. }
  split; [|split].
  - intros s v r H. cbn [scan_once] in H.
    destruct s as [|c s]; [discriminate|]. cbn [len].
    destruct (code c =? 34)%N.
    { destruct (scanstring _ s "") as [[str r']|] eqn:Hs; [|discriminate].
      apply scanstring_length in Hs. injection H as <- <-. lia. }
    destruct (code c =? 123)%N.
    { destruct (skip_ws s) as [|c1 r1] eqn:Hw; [discriminate|].
      pose proof (skip_ws_length s) as L. rewrite Hw in L.
      destruct (code c1 =? 125)%N.
      - injection H as <- <-. cbn in L. lia.
      - apply IHp in H. lia. }
    destruct (code c =? 91)%N.
    { destruct (skip_ws s) as [|c1 r1] eqn:Hw; [discriminate|].
      pose proof (skip_ws_length s) as L. rewrite Hw in L.
      destruct (code c1 =? 93)%N.
      - injection H as <- <-. cbn in L. lia.
      - apply IHi in H. lia. }
    apply scan_literal_length in H. exact H.
  - intros s acc v r H. cbn [scan_pairs] in H.
    destruct s as [|q s]; [discriminate|]. cbn [len].
    destruct (code q =? 34)%N; [|discriminate].
    destruct (scanstring _ s "") as [[k r1]|] eqn:Hs; [|discriminate].
    apply scanstring_length in Hs.
    destruct (skip_ws r1) as [|colon r2] eqn:Hw1; [discriminate|].
    apply skip_ws_cons in Hw1.
    destruct (code colon =? 58)%N; [|discriminate].
    destruct (scan_once f (skip_ws r2)) as [[v1 r3]|] eqn:Ho; [|discriminate].
    apply IHo in Ho. pose proof (skip_ws_length r2).
    destruct (skip_ws r3) as [|d r4] eqn:Hw3; [discriminate|].
    apply skip_ws_cons in Hw3.
    destruct (code d =? 125)%N; [injection H as <- <-; lia|].
    destruct (code d =? 44)%N; [|discriminate].
    apply IHp in H. pose proof (skip_ws_length r4). lia.
  - intros s acc v r H. cbn [scan_items] in H.
    destruct (scan_once f s) as [[v1 r1]|] eqn:Ho; [|discriminate].
    apply IHo in Ho.
    destruct (skip_ws r1) as [|d r2] eqn:Hw; [discriminate|].
    apply skip_ws_cons in Hw.
    destruct (code d =? 93)%N; [injection H as <- <-; lia|].
    destruct (code d =? 44)%N; [|discriminate].
    apply IHi in H. pose proof (skip_ws_length r2). lia.
Qed.

(** The fuel [scan_once] hands to [scanstring] is never used up. *)
Lemma scanstring_stable fuel : forall s acc,
  (len s + 1 <= fuel)%nat -> scanstring (S fuel) s acc = scanstring fuel s acc.
Proof.
  induction fuel as [|f IH]; intros s acc Hf; [lia|].
  change (scanstring (S (S f)) s acc) with
    (match s with
     | EmptyString => None
     | String c r =>
         if (code c =? 34)%N then Some (acc, r)
         else if (code c =? 92)%N then
           match scan_escape r with
           | Some (bytes, r') => scanstring (S f) r' (acc +:+ bytes)
           | None => None
           end
         else if (code c <? 32)%N then None
         else scanstring (S f) r (acc +:+ String c "")
     end).
  cbn [scanstring].
  destruct s as [|c s]; [reflexivity|]. cbn [len] in Hf.
  destruct (code c =? 34)%N; [reflexivity|].
  destruct (code c =? 92)%N.
  - destruct (scan_escape s) as [[b r']|] eqn:He; [|reflexivity].
    apply scan_escape_length in He. apply IH. lia.
  - destruct (code c <? 32)%N; [reflexivity|]. apply IH. lia.
Qed.

(** Once the fuel is above twice the length of the text, one more unit
    of fuel changes nothing. *)
Lemma scan_stable fuel :
  (forall s, (2 * len s + 1 <= fuel)%nat -> scan_once (S fuel) s = scan_once fuel s)
  /\ (forall s acc, (2 * len s + 2 <= fuel)%nat ->
      scan_pairs (S fuel) s acc = scan_pairs fuel s acc)
  /\ (forall s acc, (2 * len s + 2 <= fuel)%nat ->
      scan_items (S fuel) s acc = scan_items fuel s acc).
Proof.
  induction fuel as [|f (IHo & IHp & IHi)].
  { repeat split; intros; lia. }
  split; [|split].
  - intros s Hf.
    change (scan_once (S (S f)) s) with
      (match s with
       | EmptyString => None
       | String c r =>
           if (code c =? 34)%N then
             match scanstring (S (String.length r)) r "" with
             | Some (str, r') => Some (JString str, r')
             | None => None
             end
           else if (code c =? 123)%N then
             match skip_ws r with
             | String c1 r1 =>
                 if (code c1 =? 125)%N then Some (JObject [], r1)
                 else scan_pairs (S f) (String c1 r1) []
             | EmptyString => None
             end
           else if (code c =? 91)%N then
             match skip_ws r with
             | String c1 r1 =>
                 if (code c1 =? 93)%N then Some (JArray [], r1)
                 else scan_items (S f) (String c1 r1) []
             | EmptyString => None
             end
           else scan_literal s
       end).
    cbn [scan_once].
    destruct s as [|c s]; [reflexivity|]. cbn [len] in Hf.
    destruct (code c =? 34)%N; [reflexivity|].
    destruct (code c =? 123)%N.
    { destruct (skip_ws s) as [|c1 r1] eqn:Hw; [reflexivity|].
      pose proof (skip_ws_length s) as L. rewrite Hw in L. cbn [len] in L.
      destruct (code c1 =? 125)%N; [reflexivity|]. apply IHp. cbn [len]. lia. }
    destruct (code c =? 91)%N; [|reflexivity].
    destruct (skip_ws s) as [|c1 r1] eqn:Hw; [reflexivity|].
    pose proof (skip_ws_length s) as L. rewrite Hw in L. cbn [len] in L.
    destruct (code c1 =? 93)%N; [reflexivity|]. apply IHi. cbn [len]. lia.
  - intros s acc Hf.
    change (scan_pairs (S (S f)) s acc) with
      (match s with
       | String q r =>
           if (code q =? 34)%N then
             match scanstring (S (String.length r)) r "" with
             | None => None
             | Some (k, r1) =>
                 match skip_ws r1 with
                 | String colon r2 =>
                     if (code colon =? 58)%N then
                       match scan_once (S f) (skip_ws r2) with
                       | None => None
                       | Some (v, r3) =>
                           match skip_ws r3 with
                           | String d r4 =>
                               if (code d =? 125)%N then Some (JObject (dict_set k v acc), r4)
                               else if (code d =? 44)%N
                                    then scan_pairs (S f) (skip_ws r4) (dict_set k v acc)
                                    else None
                           | EmptyString => None
                           end
                       end
                     else None
                 | EmptyString => None
                 end
             end
           else None
       | EmptyString => None
       end).
    cbn [scan_pairs].
    destruct s as [|q s]; [reflexivity|]. cbn [len] in Hf.
    destruct (code q =? 34)%N; [|reflexivity].
    destruct (scanstring _ s "") as [[k r1]|] eqn:Hs; [|reflexivity].
    apply scanstring_length in Hs.
    destruct (skip_ws r1) as [|colon r2] eqn:Hw1; [reflexivity|].
    apply skip_ws_cons in Hw1.
    destruct (code colon =? 58)%N; [|reflexivity].
    pose proof (skip_ws_length r2) as L2.
    rewrite IHo by lia.
    destruct (scan_once f (skip_ws r2)) as [[v1 r3]|] eqn:Ho; [|reflexivity].
    apply (proj1 (scan_length f)) in Ho.
    destruct (skip_ws r3) as [|d r4] eqn:Hw3; [reflexivity|].
    apply skip_ws_cons in Hw3.
    destruct (code d =? 125)%N; [reflexivity|].
    destruct (code d =? 44)%N; [|reflexivity].
    pose proof (skip_ws_length r4). apply IHp. lia.
  - intros s acc Hf.
    change (scan_items (S (S f)) s acc) with
      (match scan_once (S f) s with
       | None => None
       | Some (v, r1) =>
           match skip_ws r1 with
           | String d r2 =>
               if (code d =? 93)%N then Some (JArray (acc ++ [v]), r2)
               else if (code d =? 44)%N then scan_items (S f) (skip_ws r2) (acc ++ [v])
               else None
           | EmptyString => None
           end
       end).
    cbn [scan_items].
    rewrite IHo by lia.
    destruct (scan_once f s) as [[v1 r1]|] eqn:Ho; [|reflexivity].
    apply (proj1 (scan_length f)) in Ho.
    destruct (skip_ws r1) as [|d r2] eqn:Hw; [reflexivity|].
    apply skip_ws_cons in Hw.
    destruct (code d =? 93)%N; [reflexivity|].
    destruct (code d =? 44)%N; [|reflexivity].
    pose proof (skip_ws_length r2). apply IHi. lia.
Qed.

(** [decode] never runs out of fuel: with any amount of fuel above the
    one it takes, [scan_once] gives the answer [decode] works with, so a
    [None] of [decode] is a syntax error of the text. *)
Lemma decode_fuel (s : string) (extra : nat) :
  scan_once (2 * len s + 2 + extra) (skip_ws s) = scan_once (2 * len s + 2) (skip_ws s).
Proof.
  induction extra as [|n IH]; [f_equal; lia|].
  replace (2 * len s + 2 + S n)%nat with (S (2 * len s + 2 + n)) by lia.
  rewrite (proj1 (scan_stable _)); [exact IH|].
  pose proof (skip_ws_length s). lia.
Qed.

End JsonFuel.

Example json_loads_object :
  json_loads ("{" +:+ quoted "phone" +:+ ": " +:+ quoted "+1234567890" +:+ ", "
              +:+ quoted "n" +:+ ": [1, -2.5e3, null, " +:+ quoted "a\u00e9\n" +:+ "]}")
  = Return (JObject [("phone", JString "+1234567890");
                     ("n", JArray [JInt 1; JFloat "-2.5e3"; JNull;
                                   JString (String "a" (String (byte 195) (String (byte 169)
                                              (String (byte 10) ""))))])]).
Proof. vm_compute. reflexivity. Qed.

Example json_loads_rejects :
  map json_loads ["not json"; "{"; "[1,]"; "01"; "{'a': 1}"; ""; "1 2"]
  = repeat (Raise JSONDecodeError) 7.
Proof. vm_compute. reflexivity. Qed.

Lemma json_loads_raises (text : string) (e : exn) :
  json_loads text = Raise e -> e = JSONDecodeError.
Proof. unfold json_loads. destruct (JsonDecoder.decode text); congruence. Qed.

Lemma subscript_present (d : list (string * json)) (k : string) (v : json) :
  dict_get k d = Some v -> subscript (JObject d) k = Return v.
Proof. intros H. cbn. rewrite H. reflexivity. Qed.

Lemma subscript_missing (d : list (string * json)) (k : string) :
  dict_get k d = None -> subscript (JObject d) k = Raise (KeyError k).
Proof. intros H. cbn. rewrite H. reflexivity. Qed.

(** Case analysis on the tool name, in the order of the tests of
    [execute_tool]; [tac] runs in the branch of each declared tool. *)
Ltac by_tool name tac :=
  destruct (String.eqb "get_customer_info" name);
  [ tac
  | destruct (String.eqb "search_knowledge_base" name);
    [ tac
    | destruct (String.eqb "create_support_ticket" name);
      [ tac
      | destruct (String.eqb "get_customer_tickets" name);
        [ tac
        | destruct (String.eqb "update_account_status" name); [ tac | ] ] ] ] ].

(** In the branch of a tool of which the required key [k] is missing:
    the first missing key raises. *)
Ltac missing_key d k :=
  idtac;
  match goal with
  | Hdecl : _ = Some _ |- _ =>
      cbn [option_map required] in Hdecl; injection Hdecl as <-
  end;
  repeat match goal with
         | H : In _ (_ :: _) |- _ => destruct H as [<- | H]
         | H : In _ [] |- _ => destruct H
         end;
  repeat match goal with
         | Hmiss : dict_get ?key d = None |- context [subscript (JObject d) ?key] =>
             rewrite (subscript_missing d key Hmiss)
         | |- context [subscript (JObject d) ?key] =>
             destruct (dict_get key d) eqn:?;
             [ erewrite (subscript_present d key) by eassumption
             | rewrite (subscript_missing d key) by assumption ]
         end;
  eexists; (split; [|reflexivity]); cbn; tauto.

(** In the branch of a tool of which every required key is present. *)
Ltac present_keys d :=
  idtac;
  match goal with
  | Hdecl : _ = Some _ |- _ =>
      cbn [option_map required] in Hdecl; injection Hdecl as <-;
      repeat match goal with
             | H : Forall _ (_ :: _) |- _ =>
                 apply Forall_cons in H; destruct H as [(? & ?) H]
             end;
      repeat match goal with
             | Hk : dict_get ?key d = Some _ |- _ =>
                 rewrite (subscript_present d key _ Hk); clear Hk
             end
  end.

Section ToolClaims.

Variable json_dumps : json -> string.
Variable str_other : json -> string.

Abbreviation registry := (execute_tool json_dumps str_other).

(** C2, as amended.  [execute_tool] has no error handling of its own.
    (1) When the raw argument string is not JSON it raises the decoding
    error to its caller, whatever the tool name, known or not.
    (2) When the arguments are JSON and the name is not a declared tool
    it returns the text that names the unknown tool.
    (3) When the arguments are a JSON object that lacks a required
    parameter of the declared tool it raises a [KeyError] for a required
    parameter.
    (4) When the arguments are a JSON object that gives every required
    parameter of the declared tool as text, and the store and the index
    answer, it returns a text. *)
Theorem execute_tool_outcomes (name arguments : string) (b : backend) :
  (forall e, json_loads arguments = Raise e ->
      registry name arguments b = (Raise JSONDecodeError, b))
  /\ (forall args, json_loads arguments = Return args -> declared name = None ->
      registry name arguments b
      = (Return ("Unknown tool '" +:+ name +:+ "'. No action taken."), b))
  /\ (forall d keys k, json_loads arguments = Return (JObject d) ->
      declared name = Some keys -> In k keys -> dict_get k d = None ->
      exists k', In k' keys /\ registry name arguments b = (Raise (KeyError k'), b))
  /\ (forall d keys, json_loads arguments = Return (JObject d) ->
      declared name = Some keys ->
      Forall (fun k => exists s, dict_get k d = Some (JString s)) keys ->
      (forall n, fails b n = false) ->
      (forall q n, exists docs, kb_query b q n = Return docs) ->
      exists text, fst (registry name arguments b) = Return text).
Proof.
  unfold declared, TOOLS, execute_tool, bind, lift. cbn [List.find tool_name option_map].
  split; [|split; [|split]].
  - intros e He. rewrite He, (json_loads_raises _ _ He). reflexivity.
  - intros args Hargs. rewrite Hargs, !(String.eqb_sym name).
    by_tool name discriminate. reflexivity.
  - intros d keys k Hargs Hdecl Hin Hmiss. rewrite Hargs, !(String.eqb_sym name).
    by_tool name ltac:(missing_key d k).
    discriminate.
  - intros d keys Hargs Hdecl Hkeys Hup Hkb. rewrite Hargs, !(String.eqb_sym name).
    by_tool name ltac:(present_keys d); [ | | | | | discriminate].
    + unfold get_customer, with_conn, bind, execute, commit, ret, select_customer.
      repeat (progress (cbn; rewrite ?Hup)).
      destruct (dict_or_none _) as [[|]|]; cbn; eauto.
    + unfold search. destruct (Hkb (JString x) 3) as (docs & ->).
      destruct docs; cbn; eauto.
    + unfold create_ticket, with_conn, bind, execute, commit, ret, insert_ticket.
      repeat (progress (cbn; rewrite ?Hup)). eauto.
    + unfold get_tickets, with_conn, bind, execute, commit, ret, select_tickets.
      repeat (progress (cbn; rewrite ?Hup)).
      destruct (map ticket_dict _); cbn; eauto.
    + unfold update_customer_status, with_conn, bind, execute, commit, ret, update_status.
      repeat (progress (cbn; rewrite ?Hup)).
      destruct (dict_or_none _) as [[|]|]; cbn; eauto.
Qed.

End ToolClaims.

(** ** The claims at sample inputs *)

(** C2, counterexample.  [execute_tool] raises to its caller: on
    arguments that are not JSON, for a declared tool and for an unknown
    name alike, and on a JSON object that lacks a required parameter. *)
Lemma execute_tool_raises_on_malformed_arguments :
  fst (sample_registry "get_customer_info" "not json" sample_backend)
  = Raise JSONDecodeError
  /\ fst (sample_registry "no_such_tool" "not json" sample_backend)
     = Raise JSONDecodeError
  /\ fst (sample_registry "get_customer_info" "{}" sample_backend)
     = Raise (KeyError "phone").
Proof. vm_compute. repeat split; reflexivity. Qed.

Lemma execute_tool_outcomes_witness :
  exists text,
    fst (sample_registry "get_customer_info" (function_arguments ticket_call) sample_backend)
    = Return text.
Proof.
  refine (proj2 (proj2 (proj2 (execute_tool_outcomes sample_dumps sample_str
                   "get_customer_info" (function_arguments ticket_call) sample_backend)))
            [("phone", JString "+15550100")] ["phone"] _ _ _ _ _).
  - vm_compute. reflexivity.
  - reflexivity.
  - constructor; [exists "+15550100"; reflexivity | constructor].
  - intros n. reflexivity.
  - intros q n. eexists. reflexivity.
Defined.

Example execute_tool_unknown_name :
  fst (sample_registry "no_such_tool" "{}" sample_backend)
  = Return "Unknown tool 'no_such_tool'. No action taken.".
Proof. vm_compute. reflexivity. Qed.

Example execute_tool_account_lookup :
  fst (sample_registry "update_account_status"
         ("{" +:+ quoted "phone" +:+ ": " +:+ quoted "+15550100" +:+ ", "
          +:+ quoted "status" +:+ ": " +:+ quoted "suspended" +:+ "}") sample_backend)
  = Return "Account status successfully updated to 'suspended' for Alice.".
Proof. vm_compute. reflexivity. Qed.

(* ===================================================================== *)
(** * 15. Further properties of the store                                *)
(* ===================================================================== *)

Ltac db_unfold :=
  unfold get_history, get_customer, get_tickets, update_customer_status, save_turn,
    create_ticket, with_conn, bind, execute, commit, ret.

Ltac db_cases :=
  repeat match goal with
         | |- context [if fails ?b ?n then _ else _] => destruct (fails b n) eqn:?; cbn
         end.

Lemma answers_0 b n : answers b (S n) -> fails b (ops b) = false.
Proof. intros H. specialize (H 0%nat ltac:(lia)). rewrite Nat.add_0_r in H. exact H. Qed.

Lemma answers_tick b n : answers b (S n) -> answers (tick b) n.
Proof.
  intros H k Hk. specialize (H (S k) ltac:(lia)).
  unfold tick; cbn [fails ops].
  replace (S (ops b) + k)%nat with (ops b + S k)%nat by lia. exact H.
Qed.

Lemma get_history_data (phone : string) (limit : Z) (b : backend) :
  data (snd (get_history phone limit b)) = data b.
Proof.
  db_unfold. unfold select_history. cbn. db_cases; try reflexivity.
  all: destruct (limit <? 0); cbn; db_cases; reflexivity.
Qed.

Lemma get_customer_data (phone : json) (b : backend) :
  data (snd (get_customer phone b)) = data b.
Proof.
  db_unfold. unfold select_customer. cbn. db_cases; try reflexivity.
  all: destruct (sql_text phone); cbn; db_cases; reflexivity.
Qed.

Lemma get_tickets_data (phone : json) (b : backend) :
  data (snd (get_tickets phone b)) = data b.
Proof.
  db_unfold. unfold select_tickets. cbn. db_cases; try reflexivity.
  all: destruct (sql_text phone); cbn; db_cases; reflexivity.
Qed.

(** X1.  The three reading functions never write: whatever the
    arguments and whatever round trip fails, the committed tables after
    [get_history], [get_customer] and [get_tickets] are the ones before. *)
Theorem reads_never_write (b : backend) :
  (forall phone limit, data (snd (get_history phone limit b)) = data b)
  /\ (forall phone, data (snd (get_customer phone b)) = data b)
  /\ (forall phone, data (snd (get_tickets phone b)) = data b).
Proof.
  split; [|split].
  - intros phone limit. apply get_history_data.
  - intros phone. apply get_customer_data.
  - intros phone. apply get_tickets_data.
Qed.

Lemma answers_S b n : answers b (S n) -> fails b (ops b) = false /\ answers (tick b) n.
Proof. intros H. split; [exact (answers_0 b n H) | exact (answers_tick b n H)]. Qed.

Lemma in_order_by_desc {A : Type} (key : A -> Z) (l : list A) (x : A) :
  In x (order_by_desc key l) <-> In x l.
Proof.
  split; apply Permutation_in; [|symmetry]; apply order_by_desc_perm.
Qed.

Lemma in_firstn {A : Type} (n : nat) (l : list A) (x : A) : In x (firstn n l) -> In x l.
Proof. intros H. rewrite <- (firstn_skipn n l). apply in_or_app. left. exact H. Qed.

(** [get_history] when it returns. *)
Lemma get_history_returned (phone : string) (limit : Z) (b : backend)
    (turns : list turn) :
  fst (get_history phone limit b) = Return turns ->
  0 <= limit
  /\ turns = map c_turn
               (rev (firstn (Z.to_nat limit)
                       (order_by_desc c_created_at (stored_turns phone b)))).
Proof.
  db_unfold. unfold select_history. cbn. db_cases; try discriminate.
  all: destruct (limit <? 0) eqn:Hneg; cbn; db_cases; try discriminate.
  apply Z.ltb_ge in Hneg. intros [= <-]. split; [exact Hneg | reflexivity].
Qed.

Lemma get_history_capped (phone : string) (limit : Z) (b : backend) (turns : list turn) :
  fst (get_history phone limit b) = Return turns ->
  Z.of_nat (length turns) <= limit
  /\ forall t, In t turns -> In t (map c_turn (stored_turns phone b)).
Proof.
  intros Hturns. apply get_history_returned in Hturns as (Hlimit & ->). split.
  - rewrite length_map, length_rev, length_firstn. lia.
  - intros t Ht. apply in_map_iff in Ht as (r & <- & Hr). apply in_map.
    apply in_rev, in_firstn, in_order_by_desc in Hr. exact Hr.
Qed.

(** X2.  [get_history] without any assumption on the time stamps: what
    it returns has at most [limit] turns, each of them a stored turn of
    that caller, and it returns only for a non-negative [limit]; a
    negative [limit] is refused by the server with an exception; a
    [limit] of zero gives the empty history. *)
Theorem get_history_bounds (phone : string) (limit : Z) (b : backend) :
  (forall turns, fst (get_history phone limit b) = Return turns ->
      0 <= limit
      /\ Z.of_nat (length turns) <= limit
      /\ forall t, In t turns -> In t (map c_turn (stored_turns phone b)))
  /\ (limit < 0 -> answers b 2 ->
      fst (get_history phone limit b) = Raise (DatabaseError "LIMIT must not be negative"))
  /\ (limit = 0 -> answers b 3 -> fst (get_history phone limit b) = Return []).
Proof.
  split; [|split].
  - intros turns Hturns. split.
    + apply (get_history_returned phone limit b turns Hturns).
    + apply (get_history_capped phone limit b turns Hturns).
  - intros Hneg Hup. apply answers_S in Hup as (H0 & Hup). apply answers_S in Hup as (H1 & _).
    cbn in H1. db_unfold. unfold select_history. cbn. rewrite H0. cbn. rewrite H1.
    apply Z.ltb_lt in Hneg. rewrite Hneg. reflexivity.
  - intros -> Hup. apply answers_S in Hup as (H0 & Hup). apply answers_S in Hup as (H1 & Hup).
    apply answers_S in Hup as (H2 & _). cbn in H1, H2.
    rewrite (get_history_run phone 0 b H0 H1 H2 ltac:(lia)). reflexivity.
Qed.




(** What [save_turn] leaves in the conversation table: nothing, or the
    two rows of the exchange. *)
Lemma save_turn_rows (phone user_msg assistant_msg : string) (b : backend) :
  data (snd (save_turn phone user_msg assistant_msg b)) = data b
  \/ exists t1 t2,
       data (snd (save_turn phone user_msg assistant_msg b))
       = with_exchange phone user_msg assistant_msg t1 t2 (data b).
Proof.
  db_unfold. unfold insert_conversation. cbn. db_cases; try (left; reflexivity).
  right. eexists _, _. unfold with_exchange. cbn. rewrite <- app_assoc. reflexivity.
Qed.

(** X4.  [save_turn] only appends, and only for its caller: whatever
    round trip fails, the conversation table after the call is the table
    before followed by rows of that caller (none or the two of the
    exchange); the other tables are untouched, and so are the stored turns
    of every other caller. *)
Theorem save_turn_appends_for_one_caller (phone user_msg assistant_msg : string)
    (b : backend) :
  let b' := snd (save_turn phone user_msg assistant_msg b) in
  (exists added,
      conversations (data b') = conversations (data b) ++ added
      /\ (added = [] \/ length added = 2%nat)
      /\ Forall (fun r => c_phone r = phone) added)
  /\ customers (data b') = customers (data b)
  /\ tickets (data b') = tickets (data b)
  /\ next_ticket_id (data b') = next_ticket_id (data b)
  /\ forall phone', phone' <> phone -> stored_turns phone' b' = stored_turns phone' b.
Proof.
  cbv zeta. db_unfold. unfold insert_conversation, stored_turns. cbn.
  db_cases;
    try (split; [exists []; rewrite app_nil_r; repeat split; auto |]; repeat split; reflexivity).
  split; [|repeat split].
  - eexists. rewrite <- app_assoc. split; [reflexivity|]. split; [right; reflexivity|].
    repeat constructor.
  - intros phone' Hne. rewrite <- app_assoc, List.filter_app. cbn.
    apply String.eqb_neq in Hne. rewrite String.eqb_sym in Hne. rewrite Hne.
    apply app_nil_r.
Qed.

(** ** Customers *)

Lemma dict_get_set_eq {V : Type} (k : string) (v : V) (d : list (string * V)) :
  dict_get k (dict_set k v d) = Some v.
Proof.
  induction d as [|[k' v'] d IH]; cbn.
  - rewrite String.eqb_refl. reflexivity.
  - destruct (String.eqb k k') eqn:E; cbn.
    + rewrite String.eqb_refl. reflexivity.
    + rewrite E. exact IH.
Qed.

Lemma dict_get_set_ne {V : Type} (k k' : string) (v : V) (d : list (string * V)) :
  k' <> k -> dict_get k' (dict_set k v d) = dict_get k' d.
Proof.
  intros Hne. apply String.eqb_neq in Hne.
  induction d as [|[k0 v0] d IH]; cbn.
  - rewrite Hne. reflexivity.
  - destruct (String.eqb k k0) eqn:E; cbn.
    + apply String.eqb_eq in E as <-. rewrite Hne. reflexivity.
    + destruct (String.eqb k' k0); [reflexivity | exact IH].
Qed.

Lemma has_phone_set_status (p : option string) (v : json) (r : row) :
  customer_has_phone p (dict_set "status" v r) = customer_has_phone p r.
Proof.
  unfold customer_has_phone. rewrite dict_get_set_ne by discriminate. reflexivity.
Qed.

Lemma has_phone_inv (p : option string) (r : row) :
  customer_has_phone p r = true ->
  exists s, p = Some s /\ dict_get "phone" r = Some (JString s) /\ r <> [].
Proof.
  unfold customer_has_phone. destruct p as [s|]; [|discriminate].
  destruct (dict_get "phone" r) as [[| | | |s'| |]|] eqn:E; try discriminate.
  intros H. apply String.eqb_eq in H as <-. exists s. repeat split.
  intros ->. discriminate.
Qed.

Lemma find_has_phone (p : option string) (l : list row) :
  dict_or_none (List.find (customer_has_phone p) l) = List.find (customer_has_phone p) l.
Proof.
  destruct (List.find (customer_has_phone p) l) as [d|] eqn:E; [|reflexivity].
  apply find_some in E as (_ & Hd). apply has_phone_inv in Hd as (s & _ & _ & Hne).
  destruct d; [contradiction|reflexivity].
Qed.

(** X5.  [get_customer] finds a customer by phone.  A row it returns is
    a row of the table whose [phone] is the text asked for; it returns
    [None] only when no row has that phone; when the store answers, a
    stored phone is found, and a NULL phone finds nothing. *)
Theorem get_customer_lookup (phone : json) (b : backend) :
  (forall d, fst (get_customer phone b) = Return (Some d) ->
      In d (customers (data b))
      /\ exists p, phone = JString p /\ dict_get "phone" d = Some (JString p))
  /\ (fst (get_customer phone b) = Return None ->
      forall d p, In d (customers (data b)) -> phone = JString p ->
                  dict_get "phone" d <> Some (JString p))
  /\ (answers b 3 ->
      forall d p, phone = JString p -> In d (customers (data b)) ->
                  dict_get "phone" d = Some (JString p) ->
                  exists d', fst (get_customer phone b) = Return (Some d'))
  /\ (answers b 3 -> phone = JNull -> fst (get_customer phone b) = Return None).
Proof.
  split; [|split; [|split]].
  - intros d. db_unfold. unfold select_customer. cbn. db_cases; try discriminate.
    all: destruct (sql_text phone) as [p|e] eqn:Hp; cbn; db_cases; try discriminate.
    rewrite find_has_phone. intros [= Hfind]. apply find_some in Hfind as (Hin & Hd).
    split; [exact Hin|]. apply has_phone_inv in Hd as (s & -> & Hs & _).
    exists s. split; [|exact Hs].
    destruct phone; cbn in Hp; try discriminate. congruence.
  - db_unfold. unfold select_customer. cbn. db_cases; try discriminate.
    all: destruct (sql_text phone) as [p|e] eqn:Hp; cbn; db_cases; try discriminate.
    rewrite find_has_phone. intros [= Hfind] d s Hin -> Hd. cbn in Hp. injection Hp as <-.
    pose proof (find_none _ _ Hfind d Hin) as Hno. unfold customer_has_phone in Hno.
    rewrite Hd, String.eqb_refl in Hno. discriminate.
  - intros Hup d p -> Hin Hd.
    apply answers_S in Hup as (H0 & Hup). apply answers_S in Hup as (H1 & Hup).
    apply answers_S in Hup as (H2 & _). cbn in H1, H2.
    db_unfold. unfold select_customer. cbn. rewrite H0. cbn. rewrite H1. cbn. rewrite H2. cbn.
    rewrite find_has_phone.
    destruct (List.find _ _) as [d'|] eqn:Hfind; [eauto|].
    pose proof (find_none _ _ Hfind d Hin) as Hno. unfold customer_has_phone in Hno.
    rewrite Hd, String.eqb_refl in Hno. discriminate.
  - intros Hup ->.
    apply answers_S in Hup as (H0 & Hup). apply answers_S in Hup as (H1 & Hup).
    apply answers_S in Hup as (H2 & _). cbn in H1, H2.
    db_unfold. unfold select_customer. cbn. rewrite H0. cbn. rewrite H1. cbn. rewrite H2. cbn.
    replace (List.find (customer_has_phone None) (customers (data b))) with (@None row);
      [reflexivity|].
    symmetry. induction (customers (data b)) as [|r l IH]; [reflexivity|]. cbn. exact IH.
Qed.

(** [update_customer_status] when it returns: its three round trips
    succeeded and both parameters are text or NULL. *)
Lemma update_customer_status_run (phone status : json) (b : backend) res :
  fst (update_customer_status phone status b) = Return res ->
  exists p st,
    sql_text phone = Return p /\ sql_text status = Return st
    /\ update_customer_status phone status b
       = (Return (dict_or_none
                    (head (map (fun r => if customer_has_phone p r
                                         then dict_set "status" (cell st) r else r)
                             (List.filter (customer_has_phone p) (customers (data b)))))),
          set_data {| customers := map (fun r => if customer_has_phone p r
                                                 then dict_set "status" (cell st) r else r)
                                     (customers (data b));
                      conversations := conversations (data b);
                      tickets := tickets (data b);
                      next_ticket_id := next_ticket_id (data b) |}
            (tick (tick (tick b)))).
Proof.
  db_unfold. unfold update_status. cbn. db_cases; try discriminate.
  all: destruct (sql_text status) as [st|e1]; cbn; db_cases; try discriminate.
  all: destruct (sql_text phone) as [p|e2]; cbn; db_cases; try discriminate.
  intros _. exists p, st. repeat split.
Qed.

Lemma update_customer_status_frame (phone status : json) (b : backend) :
  conversations (data (snd (update_customer_status phone status b)))
  = conversations (data b)
  /\ tickets (data (snd (update_customer_status phone status b))) = tickets (data b)
  /\ next_ticket_id (data (snd (update_customer_status phone status b)))
     = next_ticket_id (data b).
Proof.
  db_unfold. unfold update_status. cbn. db_cases; try (repeat split; reflexivity).
  all: destruct (sql_text status) as [st|e1]; cbn; db_cases; try (repeat split; reflexivity).
  all: destruct (sql_text phone) as [p|e2]; cbn; db_cases; repeat split; reflexivity.
Qed.

(** X6.  [update_customer_status] is all or nothing and changes one
    column only.  When it raises, the committed tables are unchanged.  It
    never touches conversations or tickets.  When it returns, every
    customer with another phone is unchanged, every customer with that
    phone has the new [status] and all its other columns as before, and
    the result is [None] exactly when no customer has that phone. *)
Theorem update_customer_status_effect (phone status : json) (b : backend) :
  let r := update_customer_status phone status b in
  (forall e, fst r = Raise e -> data (snd r) = data b)
  /\ conversations (data (snd r)) = conversations (data b)
  /\ tickets (data (snd r)) = tickets (data b)
  /\ next_ticket_id (data (snd r)) = next_ticket_id (data b)
  /\ (forall res, fst r = Return res ->
      exists p st,
        sql_text phone = Return p /\ sql_text status = Return st
        /\ Forall2 (fun old new =>
                      if customer_has_phone p old
                      then dict_get "status" new = Some (cell st)
                           /\ forall k, k <> "status" -> dict_get k new = dict_get k old
                      else new = old)
             (customers (data b)) (customers (data (snd r)))
        /\ (res = None <->
            forall d, In d (customers (data b)) -> customer_has_phone p d = false)).
Proof.
  cbv zeta. split; [|split; [|split; [|split]]].
  - intros e. db_unfold. unfold update_status. cbn. db_cases; try reflexivity; try discriminate.
    all: destruct (sql_text status) as [st|e1]; cbn; db_cases; try reflexivity;
      try discriminate.
    all: destruct (sql_text phone) as [p|e2]; cbn; db_cases; try reflexivity;
      try discriminate.
  - apply update_customer_status_frame.
  - apply update_customer_status_frame.
  - apply update_customer_status_frame.
  - intros res Hres.
    destruct (update_customer_status_run phone status b res Hres) as (p & st & Hp & Hst & Hrun).
    rewrite Hrun in Hres |- *. clear Hrun. cbn [fst snd] in *. exists p, st.
    split; [exact Hp|]. split; [exact Hst|]. split.
    + clear Hres. cbn. induction (customers (data b)) as [|r l IH]; cbn; constructor; [|exact IH].
      destruct (customer_has_phone p r); [|reflexivity]. split.
      * apply dict_get_set_eq.
      * intros k Hk. apply dict_get_set_ne. exact Hk.
    + injection Hres as <-.
      induction (customers (data b)) as [|r l IH]; cbn.
      * split; [intros _ d []|reflexivity].
      * destruct (customer_has_phone p r) eqn:Hr; cbn.
        -- rewrite ?Hr. split.
           ++ apply has_phone_inv in Hr as (s & _ & _ & Hne).
              destruct r as [|[k v] r]; [contradiction|]. cbn [dict_set].
              destruct (String.eqb "status" k); discriminate.
           ++ intros Hall. specialize (Hall r (or_introl eq_refl)). congruence.
        -- rewrite IH. split.
           ++ intros Hall d [<- | Hd]; [exact Hr | exact (Hall d Hd)].
           ++ intros Hall d Hd. apply Hall. right. exact Hd.
Qed.

Lemma find_map_status (p : option string) (v : json) (l : list row) :
  List.find (customer_has_phone p)
    (map (fun r => if customer_has_phone p r then dict_set "status" v r else r) l)
  = head (map (fun r => if customer_has_phone p r then dict_set "status" v r else r)
            (List.filter (customer_has_phone p) l)).
Proof.
  induction l as [|r l IH]; cbn; [reflexivity|].
  destruct (customer_has_phone p r) eqn:Hr; cbn.
  - rewrite Hr, has_phone_set_status, Hr. reflexivity.
  - rewrite Hr. exact IH.
Qed.

Lemma head_updated (p : option string) (v : json) (l : list row) (d0 : row) :
  head (map (fun r => if customer_has_phone p r then dict_set "status" v r else r)
          (List.filter (customer_has_phone p) l)) = Some d0 ->
  customer_has_phone p d0 = true /\ dict_get "status" d0 = Some v.
Proof.
  induction l as [|r l IH]; cbn [List.filter map head]; [discriminate|].
  destruct (customer_has_phone p r) eqn:Hr; cbn [List.filter map head]; [|exact IH].
  rewrite Hr. intros [= <-]. rewrite has_phone_set_status, Hr.
  split; [reflexivity | apply dict_get_set_eq].
Qed.

(** X7.  What [update_customer_status] writes, [get_customer] reads.
    When the update returns a customer and the store then answers, a
    lookup of the same phone returns that same row, and the row carries
    the new status and the phone asked for. *)
Theorem update_then_get_customer (p s : string) (b : backend) (d : row) :
  fst (update_customer_status (JString p) (JString s) b) = Return (Some d) ->
  answers (snd (update_customer_status (JString p) (JString s) b)) 3 ->
  fst (get_customer (JString p) (snd (update_customer_status (JString p) (JString s) b)))
  = Return (Some d)
  /\ dict_get "status" d = Some (JString s)
  /\ dict_get "phone" d = Some (JString p).
Proof.
  intros Hres Hup.
  destruct (update_customer_status_run _ _ b _ Hres) as (p' & st & Hp & Hst & Hrun).
  cbn in Hp, Hst. injection Hp as <-. injection Hst as <-.
  rewrite Hrun in Hres, Hup |- *. clear Hrun. cbn [fst snd] in *.
  apply answers_S in Hup as (H0 & Hup). apply answers_S in Hup as (H1 & Hup).
  apply answers_S in Hup as (H2 & _). cbn in H0, H1, H2.
  db_unfold. unfold select_customer. cbn. rewrite H0. cbn. rewrite H1. cbn. rewrite H2. cbn.
  rewrite find_has_phone, find_map_status.
  injection Hres as Hres.
  destruct (head _) as [d0|] eqn:Hhead; [|discriminate].
  apply (head_updated (Some p) (JString s)) in Hhead.
  destruct Hhead as (Hhas & Hstatus).
  apply has_phone_inv in Hhas as (s' & [= <-] & Hphone & Hne).
  destruct d0 as [|kv d0]; [contradiction|]. cbn in Hres. injection Hres as <-.
  repeat split; assumption.
Qed.

(** ** Tickets *)

(** [create_ticket] when it returns: its three round trips succeeded and
    the parameters are text or NULL. *)
Lemma create_ticket_run (phone issue priority : json) (b : backend) (id : Z) :
  fst (create_ticket phone issue priority b) = Return id ->
  exists p i pr,
    sql_text phone = Return p /\ sql_text issue = Return i /\ sql_text priority = Return pr
    /\ create_ticket phone issue priority b
       = (Return (next_ticket_id (data b)),
          set_data {| customers := customers (data b);
                      conversations := conversations (data b);
                      tickets := tickets (data b)
                                 ++ [{| t_id := next_ticket_id (data b); t_phone := p;
                                        t_issue := i; t_priority := pr;
                                        t_created_at := now b (S (ops b)) |}];
                      next_ticket_id := next_ticket_id (data b) + 1 |}
            (tick (tick (tick b)))).
Proof.
  db_unfold. unfold insert_ticket. cbn. db_cases; try discriminate.
  all: destruct (sql_text phone) as [p|e1]; cbn; db_cases; try discriminate.
  all: destruct (sql_text issue) as [i|e2]; cbn; db_cases; try discriminate.
  all: destruct (sql_text priority) as [pr|e3]; cbn; db_cases; try discriminate.
  intros _. exists p, i, pr. repeat split.
Qed.

Lemma create_ticket_raises (phone issue priority : json) (b : backend) (e : exn) :
  fst (create_ticket phone issue priority b) = Raise e ->
  data (snd (create_ticket phone issue priority b)) = data b.
Proof.
  db_unfold. unfold insert_ticket. cbn. db_cases; try reflexivity; try discriminate.
  all: destruct (sql_text phone) as [p|e1]; cbn; db_cases; try reflexivity; try discriminate.
  all: destruct (sql_text issue) as [i|e2]; cbn; db_cases; try reflexivity; try discriminate.
  all: destruct (sql_text priority) as [pr|e3]; cbn; db_cases; try reflexivity;
    try discriminate.
Qed.

Lemma create_ticket_frame (phone issue priority : json) (b : backend) :
  customers (data (snd (create_ticket phone issue priority b))) = customers (data b)
  /\ conversations (data (snd (create_ticket phone issue priority b)))
     = conversations (data b).
Proof.
  destruct (fst (create_ticket phone issue priority b)) as [id|e] eqn:Hres.
  - destruct (create_ticket_run _ _ _ b id Hres) as (p & i & pr & _ & _ & _ & ->).
    split; reflexivity.
  - rewrite (create_ticket_raises _ _ _ b e Hres). split; reflexivity.
Qed.

(** X8.  [create_ticket] is all or nothing and hands out fresh ids.
    When it raises, the committed tables are unchanged.  When it returns,
    the id is the next one of the sequence, the sequence has advanced by
    one, and exactly one ticket, with that id and the given phone, issue
    and priority, was added at the end of the table; customers and
    conversations are untouched.  If every stored id was below the
    sequence before, this still holds after, and the returned id is the id
    of no older ticket. *)
Theorem create_ticket_effect (phone issue priority : json) (b : backend) :
  let r := create_ticket phone issue priority b in
  (forall e, fst r = Raise e -> data (snd r) = data b)
  /\ (forall id, fst r = Return id ->
      id = next_ticket_id (data b)
      /\ next_ticket_id (data (snd r)) = id + 1
      /\ customers (data (snd r)) = customers (data b)
      /\ conversations (data (snd r)) = conversations (data b)
      /\ exists p i pr,
          sql_text phone = Return p /\ sql_text issue = Return i
          /\ sql_text priority = Return pr
          /\ tickets (data (snd r))
             = tickets (data b)
               ++ [{| t_id := id; t_phone := p; t_issue := i; t_priority := pr;
                      t_created_at := now b (S (ops b)) |}])
  /\ (ids_fresh (data b) ->
      ids_fresh (data (snd r))
      /\ forall id, fst r = Return id ->
                    Forall (fun t => t_id t <> id) (tickets (data b))).
Proof.
  cbv zeta. split; [|split].
  - intros e. apply create_ticket_raises.
  - intros id Hid.
    destruct (create_ticket_run _ _ _ b id Hid) as (p & i & pr & Hp & Hi & Hpr & Hrun).
    rewrite Hrun in Hid |- *. cbn [fst snd] in *. injection Hid as <-.
    repeat split. exists p, i, pr. repeat split; assumption.
  - intros Hfresh.
    destruct (fst (create_ticket phone issue priority b)) as [id|e] eqn:Hres.
    + destruct (create_ticket_run _ _ _ b id Hres) as (p & i & pr & _ & _ & _ & Hrun).
      rewrite Hrun in Hres |- *. cbn [fst snd] in *. injection Hres as <-. split.
      * unfold ids_fresh in *. cbn. apply Forall_app. split.
        -- eapply Forall_impl; [exact Hfresh|]. cbn. intros t Ht. lia.
        -- repeat constructor. cbn. lia.
      * intros id [= <-]. eapply Forall_impl; [exact Hfresh|]. cbn. intros t Ht. lia.
    + rewrite (create_ticket_raises _ _ _ b e Hres). split; [exact Hfresh|].
      intros id Hid. discriminate.
Qed.

(** [get_tickets] when it returns. *)
Lemma get_tickets_run (phone : json) (b : backend) (rows : list row) :
  fst (get_tickets phone b) = Return rows ->
  exists p,
    sql_text phone = Return p
    /\ rows = map ticket_dict
                (order_by_desc t_created_at
                   (List.filter (fun r => match p, t_phone r with
                                          | Some s, Some s' => String.eqb s s'
                                          | _, _ => false
                                          end) (tickets (data b)))).
Proof.
  db_unfold. unfold select_tickets. cbn. db_cases; try discriminate.
  all: destruct (sql_text phone) as [p|e1]; cbn; db_cases; try discriminate.
  intros [= <-]. exists p. split; reflexivity.
Qed.

(** X9.  [get_tickets] lists the tickets of one caller, newest first:
    what it returns are the dicts of exactly the stored tickets with that
    phone (each once), ordered by decreasing [created_at]; a NULL phone
    lists nothing. *)
Theorem get_tickets_lists_the_callers_tickets (phone : json) (b : backend)
    (rows : list row) :
  fst (get_tickets phone b) = Return rows ->
  (forall p, phone = JString p ->
      exists sorted,
        rows = map ticket_dict sorted
        /\ Permutation sorted (tickets_of p (data b))
        /\ StronglySorted (newer_first t_created_at) sorted)
  /\ (phone = JNull -> rows = []).
Proof.
  intros Hrows. destruct (get_tickets_run phone b rows Hrows) as (p & Hp & ->). split.
  - intros s ->. cbn in Hp. injection Hp as <-. eexists. split; [reflexivity|]. split.
    + apply order_by_desc_perm.
    + apply order_by_desc_sorted.
  - intros ->. cbn in Hp. injection Hp as <-. clear Hrows.
    replace (List.filter _ (tickets (data b))) with (@nil ticket_row); [reflexivity|].
    symmetry. induction (tickets (data b)) as [|t l IH]; [reflexivity|]. cbn. exact IH.
Qed.

(** X10.  A ticket [create_ticket] has created is listed by
    [get_tickets].  When the creation returns an id and the store then
    answers, the list for that phone has one ticket more than before and
    holds the new ticket, with its id, issue and priority. *)
Theorem create_ticket_then_get_tickets (p : string) (issue priority : json)
    (b : backend) (id : Z) :
  fst (create_ticket (JString p) issue priority b) = Return id ->
  answers (snd (create_ticket (JString p) issue priority b)) 3 ->
  exists i pr rows,
    sql_text issue = Return i /\ sql_text priority = Return pr
    /\ fst (get_tickets (JString p) (snd (create_ticket (JString p) issue priority b)))
       = Return rows
    /\ In (ticket_dict {| t_id := id; t_phone := Some p; t_issue := i; t_priority := pr;
                          t_created_at := now b (S (ops b)) |}) rows
    /\ length rows = S (length (tickets_of p (data b))).
Proof.
  intros Hid Hup.
  destruct (create_ticket_run _ _ _ b id Hid) as (p' & i & pr & Hp & Hi & Hpr & Hrun).
  cbn in Hp. injection Hp as <-.
  rewrite Hrun in Hid, Hup |- *. clear Hrun. cbn [fst snd] in *. injection Hid as <-.
  apply answers_S in Hup as (H0 & Hup). apply answers_S in Hup as (H1 & Hup).
  apply answers_S in Hup as (H2 & _). cbn in H0, H1, H2.
  exists i, pr. eexists. split; [exact Hi|]. split; [exact Hpr|]. split.
  - db_unfold. unfold select_tickets. cbn. rewrite H0. cbn. rewrite H1. cbn. rewrite H2.
    cbn. reflexivity.
  - split.
    + apply in_map. apply in_order_by_desc. rewrite List.filter_app. apply in_or_app. right.
      cbn. rewrite String.eqb_refl. left. reflexivity.
    + rewrite length_map.
      match goal with |- context [foldr (insert_desc t_created_at) [] ?l] =>
        change (foldr (insert_desc t_created_at) [] l) with (order_by_desc t_created_at l)
      end.
      rewrite (Permutation_length (order_by_desc_perm _ _)).
      rewrite List.filter_app, length_app. cbn. rewrite String.eqb_refl. cbn.
      unfold tickets_of. lia.
Qed.

(* ===================================================================== *)
(** * 16. Further properties of knowledge search and the tool registry  *)
(* ===================================================================== *)

Lemma join_two_or_more (sep p q : string) (rest : list string) :
  sep <> "" -> join sep (p :: q :: rest) <> "".
Proof.
  intros Hsep. cbn [join]. destruct p as [|c p]; [|discriminate]. cbn.
  destruct sep as [|c sep]; [contradiction|]. discriminate.
Qed.

Lemma search_backend (query : json) (b : backend) : snd (search query b) = b.
Proof.
  unfold search. destruct (kb_query b query 3) as [[|d docs]|e]; reflexivity.
Qed.

(** X11.  What [search] returns.  It never changes the world.  It
    raises exactly when the index raises, and then the same exception.
    No passage gives the fixed sentence; otherwise the text is the
    passages joined by the rule line.  The text is empty in one case only:
    the index returns a single passage and that passage is empty. *)
Theorem search_results (query : json) (b : backend) :
  snd (search query b) = b
  /\ (forall e, fst (search query b) = Raise e <-> kb_query b query 3 = Raise e)
  /\ (kb_query b query 3 = Return [] ->
      fst (search query b) = Return "No relevant information found in knowledge base.")
  /\ (fst (search query b) = Return "" <-> kb_query b query 3 = Return [""]).
Proof.
  split; [apply search_backend|]. unfold search.
  destruct (kb_query b query 3) as [[|p [|q rest]]|e0]; cbn [fst].
  - split; [split; discriminate|]. split; [reflexivity|]. split; discriminate.
  - split; [split; discriminate|]. split; [discriminate|]. cbn [join].
    split; intros [= ->]; reflexivity.
  - split; [split; discriminate|]. split; [discriminate|]. split; [|discriminate].
    intros [= H]. exfalso. revert H. apply join_two_or_more. discriminate.
  - split; [split; intros [= ->]; reflexivity|].
    split; [discriminate | split; discriminate].
Qed.

Section ToolExtras.

Variable json_dumps : json -> string.
Variable str_other : json -> string.

Abbreviation registry' := (execute_tool json_dumps str_other).

(** Case analysis on the keys a branch of [execute_tool] reads. *)
Ltac read_keys :=
  repeat match goal with
         | |- context [match subscript ?a ?k with _ => _ end] =>
             destruct (subscript a k); cbn [fst snd]
         end.

(** No tool writes to the conversation table. *)
Lemma execute_tool_conversations (name arguments : string) (b : backend) :
  conversations (data (snd (registry' name arguments b))) = conversations (data b).
Proof.
  unfold execute_tool, bind, lift, ret.
  destruct (json_loads arguments) as [args|e]; [|reflexivity].
  destruct (String.eqb name "get_customer_info").
  { read_keys; [|reflexivity].
    match goal with |- context [get_customer ?j b] =>
      pose proof (get_customer_data j b) as Hd;
      destruct (get_customer j b) as [[[[|kv d]|]|e] b1]
    end; cbn [fst snd] in *; rewrite Hd; reflexivity. }
  destruct (String.eqb name "search_knowledge_base").
  { read_keys; [|reflexivity]. rewrite search_backend. reflexivity. }
  destruct (String.eqb name "create_support_ticket").
  { read_keys; try reflexivity.
    match goal with |- context [create_ticket ?j ?j0 ?j1 b] =>
      pose proof (create_ticket_frame j j0 j1 b) as (_ & Hc);
      destruct (create_ticket j j0 j1 b) as [[id|e] b1]
    end; cbn [fst snd] in *; exact Hc. }
  destruct (String.eqb name "get_customer_tickets").
  { read_keys; [|reflexivity].
    match goal with |- context [get_tickets ?j b] =>
      pose proof (get_tickets_data j b) as Hd;
      destruct (get_tickets j b) as [[[|t ts]|e] b1]
    end; cbn [fst snd] in *; rewrite Hd; reflexivity. }
  destruct (String.eqb name "update_account_status"); [|reflexivity].
  read_keys; try reflexivity.
  match goal with |- context [update_customer_status ?j ?j0 b] =>
    pose proof (update_customer_status_frame j j0 b) as (Hc & _);
    destruct (update_customer_status j j0 b) as [[[[|kv d]|]|e] b1]
  end; cbn [fst snd] in *; exact Hc.
Qed.

(** X12.  Which tool writes what.  No tool ever changes the conversation
    table.  Only [create_support_ticket] can change the tickets and the
    ticket sequence, only [update_account_status] can change the
    customers.  So the lookups, the knowledge search and an unknown tool
    name leave the committed tables exactly as they were, for every
    argument string and whatever fails. *)
Theorem execute_tool_writes (name arguments : string) (b : backend) :
  let b' := snd (registry' name arguments b) in
  conversations (data b') = conversations (data b)
  /\ (name <> "create_support_ticket" ->
      tickets (data b') = tickets (data b)
      /\ next_ticket_id (data b') = next_ticket_id (data b))
  /\ (name <> "update_account_status" -> customers (data b') = customers (data b))
  /\ (name <> "create_support_ticket" -> name <> "update_account_status" ->
      data b' = data b).
Proof.
  cbv zeta. split; [apply execute_tool_conversations|].
  unfold execute_tool, bind, lift, ret.
  destruct (json_loads arguments) as [args|e]; [|cbn; repeat split; reflexivity].
  destruct (String.eqb name "get_customer_info") eqn:E1.
  { read_keys; [|repeat split; reflexivity].
    match goal with |- context [get_customer ?j b] =>
      pose proof (get_customer_data j b) as Hd;
      destruct (get_customer j b) as [[[[|kv d]|]|e] b1]
    end; cbn [fst snd] in *; rewrite Hd; repeat split; reflexivity. }
  destruct (String.eqb name "search_knowledge_base") eqn:E2.
  { read_keys; [|repeat split; reflexivity].
    rewrite search_backend. repeat split; reflexivity. }
  destruct (String.eqb name "create_support_ticket") eqn:E3.
  { apply String.eqb_eq in E3 as ->.
    read_keys; try (repeat split; first [reflexivity | intros; congruence]).
    match goal with |- context [create_ticket ?j ?j0 ?j1 b] =>
      pose proof (create_ticket_frame j j0 j1 b) as (Hc & Hv);
      destruct (create_ticket j j0 j1 b) as [[id|e] b1]
    end; cbn [fst snd] in *; repeat split; first [assumption | intros; congruence]. }
  destruct (String.eqb name "get_customer_tickets") eqn:E4.
  { read_keys; [|repeat split; reflexivity].
    match goal with |- context [get_tickets ?j b] =>
      pose proof (get_tickets_data j b) as Hd;
      destruct (get_tickets j b) as [[[|t ts]|e] b1]
    end; cbn [fst snd] in *; rewrite Hd; repeat split; reflexivity. }
  destruct (String.eqb name "update_account_status") eqn:E5.
  { apply String.eqb_eq in E5 as ->.
    read_keys; try (repeat split; first [reflexivity | intros; congruence]).
    match goal with |- context [update_customer_status ?j ?j0 b] =>
      pose proof (update_customer_status_frame j j0 b) as (Hc & Ht & Hn);
      destruct (update_customer_status j j0 b) as [[[[|kv d]|]|e] b1]
    end; cbn [fst snd] in *; repeat split; first [assumption | intros; congruence]. }
  cbn. repeat split; reflexivity.
Qed.

End ToolExtras.

Lemma no_customer_find (p : string) (l : list row) :
  (forall c, In c l -> dict_get "phone" c <> Some (JString p)) ->
  List.find (customer_has_phone (Some p)) l = None
  /\ List.filter (customer_has_phone (Some p)) l = [].
Proof.
  intros Hno.
  assert (Hall : forall c, In c l -> customer_has_phone (Some p) c = false).
  { intros c Hc. destruct (customer_has_phone (Some p) c) eqn:E; [|reflexivity].
    apply has_phone_inv in E as (s & [= <-] & Hs & _). destruct (Hno c Hc Hs). }
  clear Hno. induction l as [|c l IH]; [split; reflexivity|].
  destruct IH as (IH1 & IH2); [intros c' Hc'; apply Hall; right; exact Hc'|].
  cbn [List.find List.filter]. rewrite (Hall c (or_introl eq_refl)).
  split; assumption.
Qed.

Lemma status_map_id (p : string) (v : json) (l : list row) :
  (forall c, In c l -> dict_get "phone" c <> Some (JString p)) ->
  map (fun r => if customer_has_phone (Some p) r then dict_set "status" v r else r) l = l.
Proof.
  intros Hno. induction l as [|c l IH]; [reflexivity|]. cbn [map].
  rewrite IH by (intros c' Hc'; apply Hno; right; exact Hc').
  destruct (customer_has_phone (Some p) c) eqn:E; [|reflexivity].
  apply has_phone_inv in E as (s & [= <-] & Hs & _).
  destruct (Hno c (or_introl eq_refl) Hs).
Qed.

Lemma tables_eta (t : tables) :
  {| customers := customers t; conversations := conversations t; tickets := tickets t;
     next_ticket_id := next_ticket_id t |} = t.
Proof. destruct t. reflexivity. Qed.

Section ToolExtras2.

Variable json_dumps : json -> string.
Variable str_other : json -> string.

Abbreviation registry2 := (execute_tool json_dumps str_other).

(** X13.  Arguments that are JSON but not an object.  For a declared
    tool, a JSON array, string, number, boolean or null as arguments makes
    [execute_tool] raise a [TypeError] to its caller, before any
    collaborator is called: the backend is untouched. *)
Theorem execute_tool_rejects_non_object (name arguments : string) (b : backend)
    (args : json) (keys : list string) :
  json_loads arguments = Return args ->
  declared name = Some keys ->
  (forall d, args <> JObject d) ->
  exists what, registry2 name arguments b = (Raise (TypeError what), b).
Proof.
  intros Hargs Hdecl Hno. revert Hdecl.
  unfold declared, TOOLS, execute_tool, bind, lift. cbn [List.find tool_name option_map].
  rewrite Hargs, !(String.eqb_sym name).
  by_tool name ltac:(idtac; intros _; destruct args; cbn;
                     first [ eexists; reflexivity
                           | exfalso; eapply Hno; reflexivity ]).
  discriminate.
Qed.

(** X14.  Ticket creation through the registry happens exactly once per
    successful call.  When [execute_tool] returns for
    [create_support_ticket], the arguments were a JSON object giving
    phone, issue and priority, exactly one ticket with these values and
    the next id of the sequence was added, and the text names that id.
    When it raises, for whatever reason, the committed tables are
    unchanged. *)
Theorem create_support_ticket_once (arguments : string) (b : backend) :
  let r := registry2 "create_support_ticket" arguments b in
  (forall text, fst r = Return text ->
      exists d phone issue priority p i pr,
        json_loads arguments = Return (JObject d)
        /\ dict_get "phone" d = Some phone /\ dict_get "issue" d = Some issue
        /\ dict_get "priority" d = Some priority
        /\ sql_text phone = Return p /\ sql_text issue = Return i
        /\ sql_text priority = Return pr
        /\ text = "Support ticket created successfully. Ticket ID: "
                  +:+ pretty (next_ticket_id (data b))
                  +:+ ". The customer will be contacted within 24 hours."
        /\ tickets (data (snd r))
           = tickets (data b)
             ++ [{| t_id := next_ticket_id (data b); t_phone := p; t_issue := i;
                    t_priority := pr; t_created_at := now b (S (ops b)) |}])
  /\ (forall e, fst r = Raise e -> data (snd r) = data b).
Proof.
  cbv zeta. unfold execute_tool, bind, lift, ret.
  change (String.eqb "create_support_ticket" "get_customer_info") with false.
  change (String.eqb "create_support_ticket" "search_knowledge_base") with false.
  change (String.eqb "create_support_ticket" "create_support_ticket") with true.
  cbv iota.
  destruct (json_loads arguments) as [args|e0] eqn:Hl; [|split; [discriminate | reflexivity]].
  destruct args as [| | | | | |d]; try (cbn; split; [discriminate | reflexivity]).
  cbn [subscript].
  destruct (dict_get "phone" d) as [phone|] eqn:Hphone; [|split; [discriminate | reflexivity]].
  destruct (dict_get "issue" d) as [issue|] eqn:Hissue; [|split; [discriminate | reflexivity]].
  destruct (dict_get "priority" d) as [priority|] eqn:Hpriority; [|split; [discriminate | reflexivity]].
  destruct (create_ticket phone issue priority b) as [[id|e1] b1] eqn:Hc.
  - pose proof (create_ticket_run phone issue priority b id) as Hrun.
    rewrite Hc in Hrun. specialize (Hrun eq_refl).
    destruct Hrun as (p & i & pr & Hp & Hi & Hpr & [= -> ->]).
    cbn [fst snd]. split; [|discriminate]. intros text [= <-].
    exists d, phone, issue, priority, p, i, pr.
    repeat split; first [assumption | reflexivity].
  - pose proof (create_ticket_raises phone issue priority b e1) as Hr.
    rewrite Hc in Hr. cbn [fst snd] in *. split; [discriminate|]. intros e _.
    apply Hr. reflexivity.
Qed.

(** X15.  An unknown caller.  When no customer has the phone of the
    arguments, no ticket is stored for it and the store answers, the three
    account tools return their not-found sentence, and none of them
    changes the committed tables: in particular a status update for an
    unknown phone updates nothing. *)
Theorem unknown_caller_is_not_found (arguments p s : string) (d : list (string * json))
    (b : backend) :
  json_loads arguments = Return (JObject d) ->
  dict_get "phone" d = Some (JString p) ->
  dict_get "status" d = Some (JString s) ->
  (forall c, In c (customers (data b)) -> dict_get "phone" c <> Some (JString p)) ->
  tickets_of p (data b) = [] ->
  answers b 3 ->
  (fst (registry2 "get_customer_info" arguments b) = Return "Customer not found in database."
   /\ data (snd (registry2 "get_customer_info" arguments b)) = data b)
  /\ (fst (registry2 "get_customer_tickets" arguments b)
      = Return "No previous support tickets found for this customer."
      /\ data (snd (registry2 "get_customer_tickets" arguments b)) = data b)
  /\ (fst (registry2 "update_account_status" arguments b)
      = Return "Customer not found. Could not update account status."
      /\ data (snd (registry2 "update_account_status" arguments b)) = data b).
Proof.
  intros Hargs Hphone Hstatus Hno Hnot Hup.
  apply answers_S in Hup as (H0 & Hup). apply answers_S in Hup as (H1 & Hup).
  apply answers_S in Hup as (H2 & _). cbn in H1, H2.
  destruct (no_customer_find p _ Hno) as (Hfind & Hfilter).
  unfold execute_tool, bind, lift, ret. rewrite Hargs. cbn [subscript].
  rewrite Hphone, Hstatus. split; [|split].
  - change (String.eqb "get_customer_info" "get_customer_info") with true. cbv iota.
    db_unfold. unfold select_customer. cbn [sql_text bind_result].
    rewrite H0. cbn. rewrite H1. cbn. rewrite H2. cbn [fst snd].
    rewrite Hfind. cbn. split; reflexivity.
  - change (String.eqb "get_customer_tickets" "get_customer_info") with false.
    change (String.eqb "get_customer_tickets" "search_knowledge_base") with false.
    change (String.eqb "get_customer_tickets" "create_support_ticket") with false.
    change (String.eqb "get_customer_tickets" "get_customer_tickets") with true.
    cbv iota.
    db_unfold. unfold select_tickets. cbn [sql_text bind_result].
    rewrite H0. cbn. rewrite H1. cbn. rewrite H2. cbn [fst snd].
    unfold tickets_of in Hnot. rewrite Hnot. cbn. split; reflexivity.
  - change (String.eqb "update_account_status" "get_customer_info") with false.
    change (String.eqb "update_account_status" "search_knowledge_base") with false.
    change (String.eqb "update_account_status" "create_support_ticket") with false.
    change (String.eqb "update_account_status" "get_customer_tickets") with false.
    change (String.eqb "update_account_status" "update_account_status") with true.
    cbv iota.
    db_unfold. unfold update_status. cbn [sql_text bind_result cell].
    rewrite H0. cbn. rewrite H1. cbn. rewrite H2. cbn [fst snd].
    rewrite Hfilter, (status_map_id p _ _ Hno). cbn. split; [reflexivity|].
    apply tables_eta.
Qed.

End ToolExtras2.

(* ===================================================================== *)
(** * 17. Further properties of the agent loop                          *)
(* ===================================================================== *)

Lemma tagged_results_nil (calls : list tool_call) : tagged_results calls [] = [].
Proof. destruct calls; reflexivity. Qed.

Lemma agent_event_shorter (T more : list message) (e : event) :
  agent_event (T ++ more) e -> agent_event T e.
Proof.
  destruct e as [T'| | |]; cbn; auto. intros (k & ->). exists (more ++ k).
  rewrite app_assoc. reflexivity.
Qed.

Lemma agent_event_executed (T : list message) (calls : list tool_call) :
  Forall (agent_event T) (map executed calls).
Proof. induction calls; constructor; [exact I | assumption]. Qed.

Lemma tagged_results_ids (calls : list tool_call) :
  forall texts : list string,
    length texts = length calls ->
    map result_id (tagged_results calls texts) = map (fun tc => Some (id tc)) calls.
Proof.
  induction calls as [|tc calls IH]; intros [|text texts] Hlen; try discriminate.
  - reflexivity.
  - cbn. f_equal. apply IH. cbn in Hlen. lia.
Qed.

(** Every completed round holds one result per call. *)
Lemma complete_rounds_full (client : nat -> list message -> result completion)
    (execute_tool : string -> string -> M backend string)
    (n : nat) (b : backend) (T : list message) (blocks : list (list message))
    (n' : nat) (b' : backend) :
  complete_rounds client execute_tool n b T blocks n' b' -> Forall full_round blocks.
Proof.
  induction 1 as [|n b T m calls texts b1 blocks n' b' Hreq Htexts _ IH]; constructor;
    [|exact IH].
  destruct Hreq as (first & rest & _ & _ & _ & Hcalls).
  exists m, calls, (tagged_results calls texts). split; [reflexivity|].
  split; [exact Hcalls|]. apply tagged_results_ids.
  exact (tool_texts_length execute_tool calls b texts b1 Htexts).
Qed.

Section AgentExtras.

Variable client : nat -> list message -> result completion.
Variable execute_tool : string -> string -> M backend string.

Abbreviation loop := (agentic_loop client execute_tool).
Abbreviation tools := (run_tools execute_tool).

(** The tool loop of one round, however it ends: it appends tagged
    results, invokes no model, and calls the registry for the first calls
    of the round. *)
Lemma run_tools_shape (calls : list tool_call) :
  forall (messages : loc) (w : world) (T : list message),
    heap w !! messages = Some T ->
    exists texts k,
      heap (snd (tools messages calls w)) !! messages
      = Some (T ++ tagged_results calls texts)
      /\ invocations (snd (tools messages calls w)) = invocations w
      /\ trace (snd (tools messages calls w)) = trace w ++ map executed (firstn k calls).
Proof.
  induction calls as [|tc rest IH]; intros messages w T HT; cbn [run_tools].
  - exists [], 0%nat. cbn. rewrite !app_nil_r. auto.
  - cbn [log ext].
    destruct (execute_tool (function_name tc) (function_arguments tc) (ext w))
      as [[text|e] b1].
    + edestruct (IH messages
                   (append messages (ToolResult (id tc) text)
                      (set_ext b1 (log (executed tc) w)))
                   (T ++ [ToolResult (id tc) text]))
        as (texts & k & Hheap & Hinv & Htrace).
      { apply heap_append_eq. exact HT. }
      exists (text :: texts), (S k). split; [|split].
      * etransitivity; [exact Hheap|]. rewrite <- app_assoc. reflexivity.
      * exact Hinv.
      * etransitivity; [exact Htrace|]. cbn. rewrite <- app_assoc. reflexivity.
    + exists [], 1%nat. cbn [snd]. split; [|split].
      * rewrite tagged_results_nil, app_nil_r. exact HT.
      * reflexivity.
      * reflexivity.
Qed.

(** The tool loop raises what a call to the registry raised, and that
    call is the last thing it did. *)
Lemma run_tools_raised (calls : list tool_call) :
  forall (messages : loc) (w : world) (e : exn),
    fst (tools messages calls w) = Raise e ->
    exists earlier name arguments b,
      trace (snd (tools messages calls w))
      = trace w ++ earlier ++ [ToolExecuted name arguments]
      /\ execute_tool name arguments b = (Raise e, ext (snd (tools messages calls w))).
Proof.
  induction calls as [|tc rest IH]; intros messages w e; cbn [run_tools].
  - discriminate.
  - cbn [log ext].
    destruct (execute_tool (function_name tc) (function_arguments tc) (ext w))
      as [[text|e1] b1] eqn:Hcall.
    + intros Hraise.
      destruct (IH _ _ _ Hraise) as (earlier & name & arguments & b & Htrace & Hb).
      exists (executed tc :: earlier), name, arguments, b. split; [|exact Hb].
      etransitivity; [exact Htrace|]. cbn. rewrite <- app_assoc. reflexivity.
    + cbn [fst snd]. intros [= ->].
      exists [], (function_name tc), (function_arguments tc), (ext w).
      split; [reflexivity | exact Hcall].
Qed.

(** The tool loop of one round when a call raises: the calls before it
    were answered and their results appended, and nothing after it ran. *)
Lemma run_tools_broken (calls : list tool_call) :
  forall (messages : loc) (w : world) (T : list message) (e : exn) (b' : backend),
    heap w !! messages = Some T ->
    tool_texts execute_tool calls (ext w) = (Raise e, b') ->
    exists done tc rest_calls texts b1 w',
      calls = done ++ tc :: rest_calls
      /\ tool_texts execute_tool done (ext w) = (Return texts, b1)
      /\ execute_tool (function_name tc) (function_arguments tc) b1 = (Raise e, b')
      /\ tools messages calls w = (Raise e, w')
      /\ heap w' !! messages = Some (T ++ tagged_results done texts)
      /\ ext w' = b'
      /\ invocations w' = invocations w
      /\ trace w' = trace w ++ map executed (done ++ [tc]).
Proof.
  induction calls as [|tc rest IH]; intros messages w T e b' HT Htexts;
    [discriminate|].
  cbn [tool_texts] in Htexts. cbn [run_tools]. cbn [log ext].
  destruct (execute_tool (function_name tc) (function_arguments tc) (ext w))
    as [[text|e1] b1] eqn:Hcall.
  - destruct (tool_texts execute_tool rest b1) as [[texts'|e2] b2] eqn:Hrest;
      [discriminate|].
    injection Htexts as <- <-.
    destruct (IH messages
                (append messages (ToolResult (id tc) text)
                   (set_ext b1 (log (executed tc) w)))
                (T ++ [ToolResult (id tc) text]) e2 b2)
      as (done & tc' & rest' & texts & b3 & w' & Hsplit & Hdone & Hraise & Hrun & Hheap
          & Hext & Hinv & Htrace).
    { apply heap_append_eq. exact HT. }
    { exact Hrest. }
    exists (tc :: done), tc', rest', (text :: texts), b3, w'.
    split; [rewrite Hsplit; reflexivity|]. split.
    { cbn [tool_texts]. rewrite Hcall. cbn [ext set_ext append set_heap log] in Hdone.
      rewrite Hdone. reflexivity. }
    split; [exact Hraise|]. split; [exact Hrun|]. split.
    { rewrite Hheap, <- app_assoc. reflexivity. }
    split; [exact Hext|]. split; [exact Hinv|].
    rewrite Htrace. cbn. rewrite <- app_assoc. reflexivity.
  - injection Htexts as <- <-.
    exists [], tc, rest, [], (ext w). eexists. split; [reflexivity|].
    split; [reflexivity|]. split; [exact Hcall|]. split; [reflexivity|]. cbn.
    rewrite app_nil_r. repeat split; assumption.
Qed.

(** The shape of the transcript and of the trace after any number of
    rounds. *)
Lemma loop_shape (rounds : nat) (messages : loc) :
  forall (w : world) (T : list message),
    heap w !! messages = Some T ->
    exists blocks last later n' b',
      complete_rounds client execute_tool (invocations w) (ext w) T blocks n' b'
      /\ heap (snd (loop rounds messages w)) !! messages = Some (T ++ concat blocks ++ last)
      /\ ((last = [] /\ ext (snd (loop rounds messages w)) = b')
          \/ exists e,
               fst (loop rounds messages w) = Raised e
               /\ broken_round client execute_tool n' b' (T ++ concat blocks) e last
                    (ext (snd (loop rounds messages w))))
      /\ trace (snd (loop rounds messages w)) = trace w ++ later
      /\ Forall (agent_event T) later
      /\ n' = (invocations w + length blocks)%nat
      /\ (n' <= invocations (snd (loop rounds messages w)))%nat
      /\ (invocations (snd (loop rounds messages w)) <= S n')%nat
      /\ (invocations (snd (loop rounds messages w)) <= invocations w + rounds)%nat.
Proof.
  induction rounds as [|n IH]; intros w T HT.
  { exists [], [], [], (invocations w), (ext w). cbn. rewrite !app_nil_r.
    split; [constructor|]. repeat split; auto; lia. }
  assert (Hfirst : agent_event T (ModelInvoked T))
    by (exists []; rewrite app_nil_r; reflexivity).
  assert (Hstop : forall (o : outcome string),
             let w1 := {| heap := heap w; ext := ext w; invocations := S (invocations w);
                          trace := trace w ++ [ModelInvoked T] |} in
             exists blocks last later n' b',
               complete_rounds client execute_tool (invocations w) (ext w) T blocks n' b'
               /\ heap (snd (o, w1)) !! messages = Some (T ++ concat blocks ++ last)
               /\ ((last = [] /\ ext (snd (o, w1)) = b')
                   \/ exists e,
                        fst (o, w1) = Raised e
                        /\ broken_round client execute_tool n' b' (T ++ concat blocks) e last
                             (ext (snd (o, w1))))
               /\ trace (snd (o, w1)) = trace w ++ later
               /\ Forall (agent_event T) later
               /\ n' = (invocations w + length blocks)%nat
               /\ (n' <= invocations (snd (o, w1)))%nat
               /\ (invocations (snd (o, w1)) <= S n')%nat
               /\ (invocations (snd (o, w1)) <= invocations w + S n)%nat).
  { intros o w1. exists [], [], [ModelInvoked T], (invocations w), (ext w). cbn.
    rewrite !app_nil_r. split; [constructor|]. split; [exact HT|].
    split; [left; split; reflexivity|]. split; [reflexivity|].
    split; [repeat constructor; exact Hfirst|]. repeat split; lia. }
  destruct (client (invocations w) T) as [[|first rest]|e0] eqn:Hc.
  - cbn [agentic_loop create]. rewrite (contents_lookup _ _ _ HT), Hc. apply Hstop.
  - destruct (String.eqb (finish_reason first) "tool_calls") eqn:Hf.
    2:{ cbn [agentic_loop create]. rewrite (contents_lookup _ _ _ HT), Hc, Hf. cbn [negb].
        destruct (msg_content (choice_message first)) as [[|c s]|]; apply Hstop. }
    clear Hstop. apply String.eqb_eq in Hf. set (m := choice_message first).
    destruct (tool_calls m) as [calls|] eqn:Hcalls.
    + assert (Hreq : requests_tools (client (invocations w) T) m calls).
      { exists first, rest. repeat split; assumption. }
      destruct (tool_texts execute_tool calls (ext w)) as [[texts|e] b1] eqn:Htexts.
      * destruct (loop_tool_round client execute_tool n messages w T m calls texts b1
                    HT Hreq Htexts) as (w' & Hloop & Hheap & Hext & Hinv & Htrace).
        rewrite Hloop.
        destruct (IH w' _ Hheap)
          as (blocks & last & later & n' & b' & Hrounds & Hh & Hend & Ht & Hev & Hn
              & Hlo & Hup & Hhi).
        rewrite Hinv, Hext in Hrounds.
        assert (Happ : (T ++ [Response m] ++ tagged_results calls texts) ++ concat blocks
                       = T ++ concat ((Response m :: tagged_results calls texts) :: blocks)).
        { cbn [concat]. rewrite <- !app_assoc. reflexivity. }
        exists ((Response m :: tagged_results calls texts) :: blocks), last,
          ([ModelInvoked T] ++ map executed calls ++ later), n', b'.
        split; [exact (rounds_cons client execute_tool _ _ _ _ _ _ _ _ _ _
                         Hreq Htexts Hrounds)|].
        split.
        { rewrite Hh. cbn [concat]. rewrite <- !app_assoc. reflexivity. }
        split.
        { destruct Hend as [Hend | (e & He & Hbroken)]; [left; exact Hend|].
          right. exists e. split; [exact He|]. rewrite <- Happ. exact Hbroken. }
        split.
        { rewrite Ht, Htrace, <- !app_assoc. reflexivity. }
        split.
        { constructor; [exact Hfirst|]. apply Forall_app. split.
          - apply agent_event_executed.
          - eapply Forall_impl; [exact Hev|]. intros ev.
            apply agent_event_shorter. }
        cbn [length]. repeat split; lia.
      * cbn [agentic_loop create]. rewrite (contents_lookup _ _ _ HT), Hc, Hf.
        rewrite String.eqb_refl. cbn [negb]. fold m. rewrite Hcalls.
        match goal with |- context [tools messages calls ?w2] =>
          destruct (run_tools_broken calls messages w2 (T ++ [Response m]) e b1)
            as (done & tc & rest_calls & texts & b2 & w3 & Hsplit & Hdone & Hraise
                & Hrun & Hheap & Hext & Hinv & Htrace);
            [apply heap_append_eq; exact HT | exact Htexts |]
        end.
        rewrite Hrun. cbn [fst snd].
        exists [], (Response m :: tagged_results done texts),
          ([ModelInvoked T] ++ map executed (done ++ [tc])), (invocations w), (ext w).
        split; [constructor|]. split.
        { rewrite Hheap. cbn [concat]. rewrite <- app_assoc. reflexivity. }
        split.
        { right. exists e. split; [reflexivity|]. cbn [concat]. rewrite app_nil_r.
          exists first, rest. split; [exact Hc|]. split; [exact Hf|]. fold m.
          rewrite Hcalls. exists done, tc, rest_calls, texts, b2.
          rewrite Hext. repeat split; assumption. }
        split.
        { rewrite Htrace. cbn. rewrite <- !app_assoc. reflexivity. }
        split.
        { constructor; [exact Hfirst|]. apply agent_event_executed. }
        rewrite Hinv. cbn. repeat split; lia.
    + cbn [agentic_loop create]. rewrite (contents_lookup _ _ _ HT), Hc, Hf.
      rewrite String.eqb_refl. cbn [negb]. fold m. rewrite Hcalls. cbn [fst snd].
      exists [], [Response m], [ModelInvoked T], (invocations w), (ext w).
      split; [constructor|]. split.
      { cbn [concat]. apply heap_append_eq. exact HT. }
      split.
      { right. eexists. split; [reflexivity|]. cbn [concat]. rewrite app_nil_r.
        exists first, rest. split; [exact Hc|]. split; [exact Hf|]. fold m.
        rewrite Hcalls. repeat split. }
      split; [reflexivity|]. split; [repeat constructor; exact Hfirst|].
      cbn. repeat split; lia.
  - cbn [agentic_loop create]. rewrite (contents_lookup _ _ _ HT), Hc. apply Hstop.
Qed.

(** A reply of the loop comes from the last answer of the model. *)
Lemma loop_returned (rounds : nat) (messages : loc) :
  forall (w : world) (T : list message) (r : string),
    heap w !! messages = Some T ->
    fst (loop rounds messages w) = Returned r ->
    exists T' m n earlier,
      trace (snd (loop rounds messages w)) = trace w ++ earlier ++ [ModelInvoked T']
      /\ invocations (snd (loop rounds messages w)) = S n
      /\ signals_completion (client n T') m
      /\ r = spoken m
      /\ heap (snd (loop rounds messages w)) !! messages = Some T'
      /\ T `prefix_of` T'.
Proof.
  induction rounds as [|n IH]; intros w T r HT; [discriminate|].
  cbn [agentic_loop create]. rewrite (contents_lookup _ _ _ HT).
  destruct (client (invocations w) T) as [[|first rest]|e] eqn:Hc; try discriminate.
  destruct (negb (String.eqb (finish_reason first) "tool_calls")) eqn:Hf.
  - assert (Hdone : signals_completion (client (invocations w) T) (choice_message first)).
    { exists first, rest. split; [exact Hc|]. split; [|reflexivity].
      apply String.eqb_neq. apply negb_true_iff. exact Hf. }
    intros Hr. exists T, (choice_message first), (invocations w), [].
    assert (Hspoken : r = spoken (choice_message first)).
    { unfold spoken.
      destruct (msg_content (choice_message first)) as [[|c s]|]; cbn in Hr;
        injection Hr as <-; reflexivity. }
    destruct (msg_content (choice_message first)) as [[|c s]|]; cbn [fst snd];
      (split; [reflexivity|]); (split; [reflexivity|]); (split; [exact Hdone|]);
      (split; [exact Hspoken|]); (split; [exact HT|]); reflexivity.
  - set (m := choice_message first).
    set (w1 := {| heap := heap w; ext := ext w; invocations := S (invocations w);
                  trace := trace w ++ [ModelInvoked T] |}).
    assert (HT2 : heap (append messages (Response m) w1) !! messages
                  = Some (T ++ [Response m])) by (apply heap_append_eq; exact HT).
    destruct (tool_calls m) as [calls|]; [|discriminate].
    destruct (run_tools_shape calls messages _ _ HT2) as (texts & k & Hheap & _ & Htrace).
    destruct (tools messages calls (append messages (Response m) w1)) as [[[]|e] w3];
      cbn [fst snd] in *; [|discriminate].
    intros Hr.
    destruct (IH w3 _ r Hheap Hr) as (T' & m' & n' & earlier & Ht & Hi & Hs & Hrm & Hh & Hp).
    exists T', m', n', ([ModelInvoked T] ++ map executed (firstn k calls) ++ earlier).
    split.
    { rewrite Ht, Htrace. cbn. rewrite <- !app_assoc. reflexivity. }
    repeat (split; [assumption|]).
    destruct Hp as (more & ->). eexists. rewrite <- !app_assoc. reflexivity.
Qed.

(** An exception of the loop is the exception of its last call. *)
Lemma loop_raised (rounds : nat) (messages : loc) :
  forall (w : world) (T : list message) (e : exn),
    heap w !! messages = Some T ->
    fst (loop rounds messages w) = Raised e ->
    exists earlier last,
      trace (snd (loop rounds messages w)) = trace w ++ earlier ++ [last]
      /\ raised_by client execute_tool e last (snd (loop rounds messages w)).
Proof.
  induction rounds as [|n IH]; intros w T e HT; [discriminate|].
  cbn [agentic_loop create]. rewrite (contents_lookup _ _ _ HT).
  destruct (client (invocations w) T) as [[|first rest]|e0] eqn:Hc.
  - cbn [fst snd]. intros [= <-]. exists [], (ModelInvoked T). split; [reflexivity|].
    exists (invocations w). split; [reflexivity|]. right. left. split; [exact Hc|reflexivity].
  - destruct (negb (String.eqb (finish_reason first) "tool_calls")) eqn:Hf.
    { destruct (msg_content (choice_message first)) as [[|c s]|]; discriminate. }
    apply negb_false_iff, String.eqb_eq in Hf.
    set (m := choice_message first).
    set (w1 := {| heap := heap w; ext := ext w; invocations := S (invocations w);
                  trace := trace w ++ [ModelInvoked T] |}).
    assert (HT2 : heap (append messages (Response m) w1) !! messages
                  = Some (T ++ [Response m])) by (apply heap_append_eq; exact HT).
    destruct (tool_calls m) as [calls|] eqn:Hcalls.
    + destruct (run_tools_shape calls messages _ _ HT2) as (texts & k & Hheap & _ & Htrace).
      pose proof (run_tools_raised calls messages (append messages (Response m) w1)) as Hraised.
      destruct (tools messages calls (append messages (Response m) w1)) as [[[]|e1] w3];
        cbn [fst snd] in *.
      * intros Hr. destruct (IH w3 _ e Hheap Hr) as (earlier & last & Ht & Hby).
        exists ([ModelInvoked T] ++ map executed (firstn k calls) ++ earlier), last.
        split; [|exact Hby].
        rewrite Ht, Htrace. cbn. rewrite <- !app_assoc. reflexivity.
      * intros [= <-].
        destruct (Hraised e1 eq_refl) as (earlier & name & arguments & b & Ht & Hb).
        exists ([ModelInvoked T] ++ earlier), (ToolExecuted name arguments). split.
        { rewrite Ht. cbn. rewrite <- !app_assoc. reflexivity. }
        exists b. exact Hb.
    + cbn [fst snd]. intros [= <-]. exists [], (ModelInvoked T). split; [reflexivity|].
      exists (invocations w). split; [reflexivity|]. right. right.
      exists first, rest. repeat split; assumption.
  - cbn [fst snd]. intros [= <-]. exists [], (ModelInvoked T). split; [reflexivity|].
    exists (invocations w). split; [reflexivity|]. left. exact Hc.
Qed.

(** The loop keeps every property of the backend that the registry
    keeps. *)
Lemma run_tools_ext (P : backend -> Prop)
    (Hkeep : forall name arguments b, P b -> P (snd (execute_tool name arguments b)))
    (calls : list tool_call) :
  forall (messages : loc) (w : world),
    P (ext w) -> P (ext (snd (tools messages calls w))).
Proof.
  induction calls as [|tc rest IH]; intros messages w Hw; cbn [run_tools]; [exact Hw|].
  cbn [log ext].
  pose proof (Hkeep (function_name tc) (function_arguments tc) (ext w) Hw) as Hb.
  destruct (execute_tool (function_name tc) (function_arguments tc) (ext w))
    as [[text|e] b1]; cbn [snd] in *.
  - apply IH. exact Hb.
  - exact Hb.
Qed.

Lemma loop_ext (P : backend -> Prop)
    (Hkeep : forall name arguments b, P b -> P (snd (execute_tool name arguments b)))
    (rounds : nat) (messages : loc) :
  forall w : world, P (ext w) -> P (ext (snd (loop rounds messages w))).
Proof.
  induction rounds as [|n IH]; intros w Hw; [exact Hw|].
  cbn [agentic_loop create].
  destruct (client (invocations w) (contents messages w)) as [[|first rest]|e];
    try exact Hw.
  destruct (negb (String.eqb (finish_reason first) "tool_calls")).
  { destruct (msg_content (choice_message first)) as [[|c s]|]; exact Hw. }
  destruct (tool_calls (choice_message first)) as [calls|]; [|exact Hw].
  match goal with |- context [tools messages calls ?w2] =>
    pose proof (run_tools_ext P Hkeep calls messages w2 Hw) as H3;
    destruct (tools messages calls w2) as [[[]|e] w3]
  end; cbn [snd] in *.
  - apply IH. exact H3.
  - exact H3.
Qed.

Lemma get_response_ext (P : backend -> Prop)
    (Hkeep : forall name arguments b, P b -> P (snd (execute_tool name arguments b)))
    (rounds : nat) (user_message : string) (history : loc) (caller_phone : string)
    (w : world) :
  P (ext w) ->
  P (ext (snd (get_response client execute_tool rounds user_message history caller_phone w))).
Proof. intros Hw. rewrite get_response_unfold. apply loop_ext; assumption. Qed.

(** X16.  The working transcript records every round of tool use in
    full.  After any number of rounds and however [get_response] ends,
    its transcript is the system prompt, the history and the utterance,
    followed by one block per completed round: the message of the model's
    answer to the transcript as it stood, then what the registry answered
    to every call of that message, in order and tagged with the id of the
    call, so one result per call.  Nothing else follows, unless [get_response] raised inside a
    round of tool use: then the model's message of that round follows,
    with the results of the calls that were answered before the one that
    raised.  Every model invocation received a transcript that begins with
    the system prompt, the history and the utterance; besides model
    invocations [get_response] only called the registry; it made one
    invocation per completed round, at most one more, and at most one per
    round of the loop. *)
Theorem get_response_transcript_shape (rounds : nat) (user_message : string)
    (history : loc) (caller_phone : string) (w : world) :
  let T := initial_transcript (contents history w) user_message in
  let r := get_response client execute_tool rounds user_message history caller_phone w in
  exists blocks last later n' b',
    complete_rounds client execute_tool (invocations w) (ext w) T blocks n' b'
    /\ Forall full_round blocks
    /\ heap (snd r) !! fst (alloc T w) = Some (T ++ concat blocks ++ last)
    /\ ((last = [] /\ ext (snd r) = b')
        \/ exists e,
             fst r = Raised e
             /\ broken_round client execute_tool n' b' (T ++ concat blocks) e last
                  (ext (snd r)))
    /\ trace (snd r) = trace w ++ later
    /\ Forall (agent_event T) later
    /\ n' = (invocations w + length blocks)%nat
    /\ (n' <= invocations (snd r) <= S n')%nat
    /\ (invocations (snd r) <= invocations w + rounds)%nat.
Proof.
  cbv zeta. rewrite get_response_unfold.
  destruct (loop_shape rounds _ _ _
              (heap_alloc_eq (initial_transcript (contents history w) user_message) w))
    as (blocks & last & later & n' & b' & Hrounds & Hheap & Hend & Htrace & Hev & Hn
        & Hlo & Hup & Hhi).
  exists blocks, last, later, n', b'. split; [exact Hrounds|].
  split; [exact (complete_rounds_full _ _ _ _ _ _ _ _ Hrounds)|].
  repeat split; assumption.
Qed.

(** X17.  Where a reply comes from.  Whenever [get_response] returns a
    text, the last thing it did was a model invocation whose answer
    signalled completion, and the text is the content of that answer, or
    the fallback apology when the content is missing or empty.  The
    transcript of that invocation begins with the system prompt, the
    history and the utterance, and the answer itself is not appended to
    it. *)
Theorem reply_comes_from_the_last_model_answer (rounds : nat) (user_message : string)
    (history : loc) (caller_phone : string) (w : world) (r : string) :
  fst (get_response client execute_tool rounds user_message history caller_phone w)
  = Returned r ->
  let T := initial_transcript (contents history w) user_message in
  let w' := snd (get_response client execute_tool rounds user_message history caller_phone w) in
  exists T' m n earlier,
    trace w' = trace w ++ earlier ++ [ModelInvoked T']
    /\ invocations w' = S n
    /\ signals_completion (client n T') m
    /\ r = spoken m
    /\ heap w' !! fst (alloc T w) = Some T'
    /\ T `prefix_of` T'.
Proof.
  cbv zeta. rewrite get_response_unfold. intros Hr.
  apply (loop_returned rounds _ _ _ r (heap_alloc_eq _ w) Hr).
Qed.

(** X18.  Where an exception comes from.  [get_response] catches
    nothing and raises nothing of its own: whenever it raises [e], the
    last call it made is the one that failed.  Either that call is a model
    invocation, and the service raised [e], or returned no choice
    ([IndexError]), or asked for tools without a list of calls
    ([TypeError]); or it is a call to the registry, which raised [e]. *)
Theorem exception_comes_from_the_last_call (rounds : nat) (user_message : string)
    (history : loc) (caller_phone : string) (w : world) (e : exn) :
  fst (get_response client execute_tool rounds user_message history caller_phone w)
  = Raised e ->
  let w' := snd (get_response client execute_tool rounds user_message history caller_phone w) in
  exists earlier last,
    trace w' = trace w ++ earlier ++ [last]
    /\ raised_by client execute_tool e last w'.
Proof.
  cbv zeta. rewrite get_response_unfold. intros Hr.
  apply (loop_raised rounds _ _ _ e (heap_alloc_eq _ w) Hr).
Qed.

End AgentExtras.

(* ===================================================================== *)
(** * 18. Further properties of the call turn controller                *)
(* ===================================================================== *)

Section ControllerExtras.

Variable client : nat -> list message -> result completion.
Variable execute_tool : string -> string -> M backend string.

(** X19.  The only exception [handle_speech] lets through.  It raises
    exactly when the utterance is not empty and the history load raises,
    and then it raises that exception: errors of the model, of the tools
    and of [save_turn] never leave it.  In that case the store did not
    answer one of the three round trips of the load, the model was not
    invoked, nothing was saved and the committed tables are unchanged. *)
Theorem handle_speech_raises_only_on_history_load (rounds : nat)
    (form : gmap string string) (w : world) (e : exn) :
  let r := handle_speech client execute_tool rounds form w in
  (fst r = Raised e
   <-> utterance form <> ""
       /\ fst (get_history (identity form) 10 (ext w)) = Raise e)
  /\ (fst r = Raised e ->
      ~ answers (ext w) 3
      /\ invocations (snd r) = invocations w
      /\ heap (snd r) = heap w
      /\ trace (snd r) = trace w ++ [HistoryLoaded (identity form)]
      /\ data (ext (snd r)) = data (ext w)).
Proof.
  cbv zeta. unfold handle_speech. fold (utterance form) (identity form).
  destruct (truthy (utterance form)) eqn:Hsome; cbn [negb].
  - change (ext (log (HistoryLoaded (identity form)) w)) with (ext w).
    pose proof (get_history_data (identity form) 10 (ext w)) as Hdata.
    assert (Hrun : answers (ext w) 3 ->
                   exists turns, fst (get_history (identity form) 10 (ext w)) = Return turns).
    { intros Hup. apply answers_S in Hup as (H0 & Hup). apply answers_S in Hup as (H1 & Hup).
      apply answers_S in Hup as (H2 & _). cbn in H1, H2.
      rewrite (get_history_run _ 10 _ H0 H1 H2 ltac:(lia)). eauto. }
    apply truthy_true in Hsome.
    destruct (get_history (identity form) 10 (ext w)) as [[turns|e0] b]; cbn [fst snd] in *.
    + destruct (alloc _ _) as [history w1].
      destruct (get_response _ _ _ _ _ _ _) as [[r|e'|] w2];
        try destruct (save_turn _ _ _ _) as [? b'];
        (split; [split; [discriminate | intros [_ [=]]] | discriminate]).
    + split.
      * split; [intros [= ->]; split; [exact Hsome | reflexivity]
               | intros [_ [= ->]]; reflexivity].
      * intros _. split; [|repeat split; exact Hdata].
        intros Hup. destruct (Hrun Hup) as (turns & [=]).
  - apply truthy_false in Hsome. cbn [fst snd]. split; [|discriminate].
    split; [discriminate | intros [Hne _]; contradiction].
Qed.


End ControllerExtras.

Section StoredExchange.

Variable client : nat -> list message -> result completion.
Variable json_dumps : json -> string.
Variable str_other : json -> string.

(** X21.  What a turn leaves in the conversation table, with the
    registry of [tools.py].  However [handle_speech] ends and whatever
    the model asks for, the conversation table afterwards is the table
    before, or the table before followed by the two rows of this exchange:
    the caller's utterance, then the reply that is spoken.  No tool and no
    failure can add, change or remove any other conversation row. *)
Theorem handle_speech_stores_one_exchange (rounds : nat) (form : gmap string string)
    (w : world) :
  let r := handle_speech client (execute_tool json_dumps str_other) rounds form w in
  conversations (data (ext (snd r))) = conversations (data (ext w))
  \/ exists reply t1 t2,
       fst r = Returned (reply_directive reply)
       /\ conversations (data (ext (snd r)))
          = conversations (with_exchange (identity form) (utterance form) reply t1 t2
                             (data (ext w))).
Proof.
  cbv zeta. unfold handle_speech. fold (utterance form) (identity form).
  destruct (truthy (utterance form)); cbn [negb]; [|left; reflexivity].
  change (ext (log (HistoryLoaded (identity form)) w)) with (ext w).
  pose proof (get_history_data (identity form) 10 (ext w)) as Hdata.
  destruct (get_history (identity form) 10 (ext w)) as [[turns|e0] b]; cbn [fst snd] in *;
    [|left; cbn [snd ext set_ext]; rewrite Hdata; reflexivity].
  match goal with |- context [alloc ?xs ?w0] =>
    assert (Hext : conversations (data (ext (snd (alloc xs w0))))
                   = conversations (data (ext w))) by (cbn [snd alloc ext set_heap set_ext]; rewrite Hdata; reflexivity);
    destruct (alloc xs w0) as [history w1]
  end.
  cbn [snd] in Hext.
  pose proof (get_response_ext client (execute_tool json_dumps str_other)
                (fun b0 => conversations (data b0) = conversations (data (ext w)))) as Hkeep.
  specialize (Hkeep ltac:(intros name arguments b0 Hb0; cbv beta;
                          etransitivity;
                          [exact (execute_tool_conversations json_dumps str_other
                                    name arguments b0) | exact Hb0])
                rounds (utterance form) history (identity form) w1 Hext).
  destruct (get_response client (execute_tool json_dumps str_other) rounds (utterance form)
              history (identity form) w1) as [[r|e'|] w2]; cbn [fst snd] in *;
    [| |left; exact Hkeep].
  - match goal with |- context [save_turn ?p ?u ?a ?b0] =>
      pose proof (save_turn_rows p u a b0) as Hrows;
      destruct (save_turn p u a b0) as [? b']
    end.
    cbn [fst snd ext log set_ext] in *. destruct Hrows as [-> | (t1 & t2 & ->)].
    + left. exact Hkeep.
    + right. exists r, t1, t2. split; [reflexivity|]. cbn. rewrite Hkeep. reflexivity.
  - match goal with |- context [save_turn ?p ?u ?a ?b0] =>
      pose proof (save_turn_rows p u a b0) as Hrows;
      destruct (save_turn p u a b0) as [? b']
    end.
    cbn [fst snd ext log set_ext] in *. destruct Hrows as [-> | (t1 & t2 & ->)].
    + left. exact Hkeep.
    + right. exists TECHNICAL_ISSUE, t1, t2. split; [reflexivity|]. cbn. rewrite Hkeep.
      reflexivity.
Qed.

End StoredExchange.

(* ===================================================================== *)
(** * 19. The further properties on sample states                       *)
(* ===================================================================== *)

Lemma sample_answers (n : nat) : answers sample_backend n.
Proof. intros k Hk. reflexivity. Defined.

Lemma history_answers (n : nat) : answers history_backend n.
Proof. intros k Hk. reflexivity. Defined.

Lemma get_history_bounds_witness :
  fst (get_history "+15550100" (-1) history_backend)
  = Raise (DatabaseError "LIMIT must not be negative").
Proof.
  apply (proj1 (proj2 (get_history_bounds "+15550100" (-1) history_backend)));
    [lia | apply history_answers].
Defined.


Lemma save_turn_appends_for_one_caller_witness :
  stored_turns "+15550199" (snd (save_turn "+15550100" "hello" "hi" history_backend))
  = stored_turns "+15550199" history_backend.
Proof.
  apply (proj2 (proj2 (proj2 (proj2 (save_turn_appends_for_one_caller
                                       "+15550100" "hello" "hi" history_backend))))).
  discriminate.
Defined.

Lemma get_customer_lookup_witness :
  exists d, fst (get_customer (JString "+15550100") sample_backend) = Return (Some d).
Proof.
  apply (proj1 (proj2 (proj2 (get_customer_lookup (JString "+15550100") sample_backend)))
           (sample_answers 3)
           [("phone", JString "+15550100"); ("name", JString "Alice");
            ("status", JString "active")] "+15550100" eq_refl).
  - left. reflexivity.
  - reflexivity.
Defined.

Lemma update_customer_status_effect_witness :
  data (snd (update_customer_status (JString "+15550100") (JString "suspended")
               (failing_at 2)))
  = data (failing_at 2).
Proof.
  apply (proj1 (update_customer_status_effect (JString "+15550100") (JString "suspended")
                  (failing_at 2)) (DatabaseError "commit failed")).
  vm_compute. reflexivity.
Defined.

Lemma update_then_get_customer_witness :
  fst (get_customer (JString "+15550100")
         (snd (update_customer_status (JString "+15550100") (JString "suspended")
                 sample_backend)))
  = Return (Some [("phone", JString "+15550100"); ("name", JString "Alice");
                  ("status", JString "suspended")]).
Proof.
  apply (update_then_get_customer "+15550100" "suspended" sample_backend).
  - vm_compute. reflexivity.
  - intros k Hk. reflexivity.
Defined.

Lemma create_ticket_effect_witness :
  next_ticket_id (data (snd (create_ticket (JString "+15550100") (JString "No signal")
                               (JString "high") ticket_backend))) = 4 + 1.
Proof.
  apply (proj1 (proj2 (create_ticket_effect (JString "+15550100") (JString "No signal")
                         (JString "high") ticket_backend)) 4).
  vm_compute. reflexivity.
Defined.

Lemma get_tickets_lists_the_callers_tickets_witness :
  exists sorted,
    fst (get_tickets (JString "+15550100") ticket_backend) = Return (map ticket_dict sorted)
    /\ Permutation sorted (tickets_of "+15550100" (data ticket_backend))
    /\ StronglySorted (newer_first t_created_at) sorted.
Proof.
  destruct (fst (get_tickets (JString "+15550100") ticket_backend)) as [rows|e] eqn:Hrows.
  - destruct (proj1 (get_tickets_lists_the_callers_tickets (JString "+15550100")
                       ticket_backend rows Hrows) "+15550100" eq_refl)
      as (sorted & -> & Hperm & Hsorted).
    exists sorted. repeat split; assumption.
  - vm_compute in Hrows. discriminate.
Defined.

Lemma create_ticket_then_get_tickets_witness :
  exists rows,
    fst (get_tickets (JString "+15550100")
           (snd (create_ticket (JString "+15550100") (JString "No signal") (JString "high")
                   sample_backend)))
    = Return rows
    /\ length rows = 1%nat.
Proof.
  destruct (create_ticket_then_get_tickets "+15550100" (JString "No signal") (JString "high")
              sample_backend 1)
    as (i & pr & rows & _ & _ & Hrows & _ & Hlen).
  - vm_compute. reflexivity.
  - intros k Hk. reflexivity.
  - exists rows. split; [exact Hrows | exact Hlen].
Defined.

Lemma search_results_witness :
  fst (search (JString "roaming") history_backend)
  = Return "No relevant information found in knowledge base.".
Proof.
  apply (proj1 (proj2 (proj2 (search_results (JString "roaming") history_backend)))).
  reflexivity.
Defined.

Lemma execute_tool_writes_witness :
  data (snd (sample_registry "get_customer_info" status_arguments sample_backend))
  = data sample_backend.
Proof.
  apply (proj2 (proj2 (proj2 (execute_tool_writes sample_dumps sample_str
                                "get_customer_info" status_arguments sample_backend))));
    discriminate.
Defined.

Lemma execute_tool_rejects_non_object_witness :
  exists what,
    sample_registry "get_customer_info" "[]" sample_backend
    = (Raise (TypeError what), sample_backend).
Proof.
  apply (execute_tool_rejects_non_object sample_dumps sample_str "get_customer_info" "[]"
           sample_backend (JArray []) ["phone"]).
  - vm_compute. reflexivity.
  - reflexivity.
  - intros d. discriminate.
Defined.

Lemma create_support_ticket_once_witness :
  exists row,
    tickets (data (snd (sample_registry "create_support_ticket" new_ticket_arguments
                          ticket_backend)))
    = tickets (data ticket_backend) ++ [row]
    /\ t_id row = 4.
Proof.
  destruct (proj1 (create_support_ticket_once sample_dumps sample_str new_ticket_arguments
                     ticket_backend)
              ("Support ticket created successfully. Ticket ID: 4"
               +:+ ". The customer will be contacted within 24 hours."))
    as (d & phone & issue & priority & p & i & pr & _ & _ & _ & _ & _ & _ & _ & _ & Hrow).
  - vm_compute. reflexivity.
  - eexists. split; [exact Hrow | reflexivity].
Defined.

Lemma unknown_caller_is_not_found_witness :
  fst (sample_registry "update_account_status" status_arguments sample_backend)
  = Return "Customer not found. Could not update account status."
  /\ data (snd (sample_registry "update_account_status" status_arguments sample_backend))
     = data sample_backend.
Proof.
  apply (unknown_caller_is_not_found sample_dumps sample_str status_arguments
           "+15550111" "suspended"
           [("phone", JString "+15550111"); ("status", JString "suspended")]
           sample_backend).
  - vm_compute. reflexivity.
  - reflexivity.
  - reflexivity.
  - intros c [<- | []]. vm_compute. discriminate.
  - reflexivity.
  - apply sample_answers.
Defined.

Lemma get_response_transcript_shape_witness :
  exists blocks last,
    Forall full_round blocks
    /\ concat blocks ++ last
       = [Response {| msg_content := None; tool_calls := Some [search_call; ticket_call] |};
          ToolResult "call_1" "To reset your password, open the login page.";
          ToolResult "call_2" "No previous support tickets found for this customer."].
Proof.
  destruct (get_response_transcript_shape two_step_client sample_registry 3 "hello"
              1%positive "+15550100" sample_world)
    as (blocks & last & later & n' & b' & _ & Hfull & Hheap & _).
  exists blocks, last. split; [exact Hfull|].
  assert (Hrun : heap (snd (get_response two_step_client sample_registry 3 "hello"
                              1%positive "+15550100" sample_world))
                   !! fst (alloc (initial_transcript (contents 1%positive sample_world)
                                    "hello") sample_world)
                 = Some (initial_transcript (contents 1%positive sample_world) "hello"
                         ++ [Response {| msg_content := None;
                                         tool_calls := Some [search_call; ticket_call] |};
                             ToolResult "call_1"
                               "To reset your password, open the login page.";
                             ToolResult "call_2"
                               "No previous support tickets found for this customer."]))
    by (vm_compute; reflexivity).
  rewrite Hrun in Hheap.
  assert (Heq : initial_transcript (contents 1%positive sample_world) "hello"
                ++ concat blocks ++ last
                = initial_transcript (contents 1%positive sample_world) "hello"
                  ++ [Response {| msg_content := None;
                                  tool_calls := Some [search_call; ticket_call] |};
                      ToolResult "call_1" "To reset your password, open the login page.";
                      ToolResult "call_2"
                        "No previous support tickets found for this customer."])
    by congruence.
  exact (app_inv_head _ _ _ Heq).
Defined.

Lemma reply_comes_from_the_last_model_answer_witness :
  exists T' m n earlier,
    trace (snd (get_response two_step_client stub_tool 4 "hello" 1%positive "+15550100"
                  sample_world))
    = trace sample_world ++ earlier ++ [ModelInvoked T']
    /\ signals_completion (two_step_client n T') m
    /\ "You can reset your password from the login page." = spoken m.
Proof.
  destruct (reply_comes_from_the_last_model_answer two_step_client stub_tool 4 "hello"
              1%positive "+15550100" sample_world
              "You can reset your password from the login page.")
    as (T' & m & n & earlier & Htrace & _ & Hdone & Hspoken & _).
  - vm_compute. reflexivity.
  - exists T', m, n, earlier. repeat split; assumption.
Defined.

Lemma exception_comes_from_the_last_call_witness :
  exists earlier last,
    trace (snd (get_response timeout_client stub_tool 1 "hello" 1%positive "+15550100"
                  sample_world))
    = trace sample_world ++ earlier ++ [last]
    /\ raised_by timeout_client stub_tool (APIError "Request timed out.") last
         (snd (get_response timeout_client stub_tool 1 "hello" 1%positive "+15550100"
                 sample_world)).
Proof.
  apply (exception_comes_from_the_last_call timeout_client stub_tool 1 "hello" 1%positive
           "+15550100" sample_world (APIError "Request timed out.")).
  vm_compute. reflexivity.
Defined.

Lemma handle_speech_raises_only_on_history_load_witness :
  fst (handle_speech two_step_client sample_registry 3 (speech_form "hello") offline_world)
  = Raised (DatabaseError "connection failed").
Proof.
  apply (proj2 (proj1 (handle_speech_raises_only_on_history_load two_step_client
                         sample_registry 3 (speech_form "hello") offline_world
                         (DatabaseError "connection failed")))).
  split.
  - vm_compute. discriminate.
  - vm_compute. reflexivity.
Defined.

